(** * Multi-Prompt-Agent: the stage-flow engine and its configuration validator

    A shallow embedding of [src/multi_prompt_agent.py] (class
    [MultiPromptAgent]) and [src/schema_validation.py] (class
    [SchemaValidator]), followed by the properties of the specification that
    were checked against it.

    Conventions of the embedding.
    - A Python [str] is a [string]; [lower], [split], [in] and [replace] are
      the Python string methods on strings of ASCII characters (code points
      below 128).  On other characters [str.lower] and [str.split] follow
      Unicode's case mapping and white space, which the embedding does not
      model: the properties of the transition resolver that depend on them are
      stated for ASCII strings.
    - The validator and the start-up read the raw document.  They are
      modelled on documents of the schema's types ([schema_typed]: the
      sections and the stages are objects, [next_stages] an array of objects,
      a stage reference a string); [SchemaTypeError] marks a document outside
      this fragment and is no exception of the program.
    - A Python [dict] is an association list in insertion order, with at most
      one binding per key; lookups take the first binding.
    - JSON values (the configuration document, the context values) are the
      type [json].
    - The engine's methods run in a small state-and-exception monad over the
      session ([UserData]), the agent's chat context and the trace of what the
      agent emitted (speech, error and warning log lines).  A Python exception
      keeps the mutations made before it was raised.
    - [datetime.now().isoformat()] is an input of each operation that stamps a
      history entry. *)

From Stdlib Require Import String Ascii List ZArith Lia Bool Arith.
From Stdlib Require Import Permutation Sorted DecimalString.
Import ListNotations.
Open Scope string_scope.
Set Warnings "-register-all".

(* ================================================================= *)
(** * Part I: definitions *)

(* ----------------------------------------------------------------- *)
(** ** Python strings *)

Module PyStr.

(** [c.lower()] for an ASCII character: A-Z become a-z.  A character above
    127 is left as it is, which is not what Python does with the letters
    there. *)
Definition lower_char (c : ascii) : ascii :=
  let n := nat_of_ascii c in
  if ((65 <=? n) && (n <=? 90))%nat then ascii_of_nat (n + 32) else c.

(** [s.lower()] of a string of ASCII characters. *)
Fixpoint lower (s : string) : string :=
  match s with
  | EmptyString => EmptyString
  | String c s' => String (lower_char c) (lower s')
  end.

(** [c.isspace()] for an ASCII character: tab, line feed, vertical tab, form
    feed, carriage return, the four separators 0x1c-0x1f and the space.
    Unicode's other white space (0x85, 0xa0, ...) is not counted. *)
Definition isspace (c : ascii) : bool :=
  let n := nat_of_ascii c in
  (((9 <=? n) && (n <=? 13)) || ((28 <=? n) && (n <=? 32)))%nat.

(** [s.split()] with no separator, of a string of ASCII characters: the
    maximal runs of non-space characters.  [cur] is the run being read. *)
Fixpoint split_from (cur : string) (s : string) : list string :=
  match s with
  | EmptyString => match cur with EmptyString => [] | _ => [cur] end
  | String c s' =>
      if isspace c
      then match cur with
           | EmptyString => split_from EmptyString s'
           | _ => cur :: split_from EmptyString s'
           end
      else split_from (cur ++ String c EmptyString) s'
  end.

Definition split (s : string) : list string := split_from EmptyString s.

(** [s.startswith(p)]. *)
Fixpoint starts_with (p s : string) : bool :=
  match p, s with
  | EmptyString, _ => true
  | String _ _, EmptyString => false
  | String a p', String b s' => Ascii.eqb a b && starts_with p' s'
  end.

(** [needle in hay]: [needle] occurs in [hay] as a substring. *)
Fixpoint contains (needle hay : string) : bool :=
  starts_with needle hay
  || match hay with
     | EmptyString => false
     | String _ hay' => contains needle hay'
     end.

(** The scan of [s.replace(old, new)] for a non-empty [old]: [skip] counts
    the characters of a matched occurrence that are still to be dropped. *)
Fixpoint replace_scan (old new : string) (skip : nat) (s : string) : string :=
  match s with
  | EmptyString => EmptyString
  | String c s' =>
      match skip with
      | S k => replace_scan old new k s'
      | O =>
          if starts_with old s
          then new ++ replace_scan old new (String.length old - 1) s'
          else String c (replace_scan old new 0 s')
      end
  end.

(** [s.replace("", new)]: [new] before every character and at the end. *)
Fixpoint interleave (new s : string) : string :=
  match s with
  | EmptyString => new
  | String c s' => new ++ String c (interleave new s')
  end.

(** [s.replace(old, new)]: every non-overlapping occurrence of [old], found
    from left to right, becomes [new]. *)
Definition replace (old new s : string) : string :=
  match old with
  | EmptyString => interleave new s
  | _ => replace_scan old new 0 s
  end.

(** [sep.join(l)]. *)
Fixpoint join (sep : string) (l : list string) : string :=
  match l with
  | [] => EmptyString
  | [x] => x
  | x :: l' => x ++ sep ++ join sep l'
  end.

(** No brace character occurs in [s]. *)
Fixpoint brace_free (s : string) : bool :=
  match s with
  | EmptyString => true
  | String c s' =>
      negb (Ascii.eqb c "{"%char) && negb (Ascii.eqb c "}"%char)
      && brace_free s'
  end.

End PyStr.

(* ----------------------------------------------------------------- *)
(** ** Python dictionaries *)

Module PyDict.

Definition t (A : Type) : Type := list (string * A).

Fixpoint get {A} (k : string) (d : t A) : option A :=
  match d with
  | [] => None
  | (k', v) :: d' => if String.eqb k k' then Some v else get k d'
  end.

(** [k in d]. *)
Definition mem {A} (k : string) (d : t A) : bool :=
  match get k d with Some _ => true | None => false end.

Definition keys {A} (d : t A) : list string := map fst d.

(** [d[k] = v]: an existing key keeps its position, a new one goes last. *)
Fixpoint set {A} (k : string) (v : A) (d : t A) : t A :=
  match d with
  | [] => [(k, v)]
  | (k', v') :: d' =>
      if String.eqb k k' then (k', v) :: d' else (k', v') :: set k v d'
  end.

(** [d.update(other)]. *)
Definition update {A} (d other : t A) : t A :=
  fold_left (fun acc kv => set (fst kv) (snd kv) acc) other d.

End PyDict.

(* ----------------------------------------------------------------- *)
(** ** JSON values and their textual representation *)

(** A float is kept as the text Python prints for it; the program does no
    arithmetic on the values it loads. *)
Inductive json : Type :=
| JNull
| JBool (b : bool)
| JInt (z : Z)
| JFloat (repr : string)
| JStr (s : string)
| JList (l : list json)
| JDict (d : list (string * json)).

Module PyRepr.

Definition hex_digit (n : nat) : ascii :=
  match String.get n "0123456789abcdef" with
  | Some c => c
  | None => "0"%char
  end.

(** One character of [repr(s)], [quote] being the quote chosen for [s], for
    an ASCII character.  Python also escapes the characters above 127 that
    are not printable; here they are kept as they are. *)
Definition escape_char (quote c : ascii) : string :=
  let n := nat_of_ascii c in
  if Ascii.eqb c quote || Ascii.eqb c "\"%char
  then String "\"%char (String c EmptyString)
  else if (n =? 9)%nat then "\t"
  else if (n =? 10)%nat then "\n"
  else if (n =? 13)%nat then "\r"
  else if ((n <? 32) || (n =? 127))%nat
  then "\x" ++ String (hex_digit (n / 16)) (String (hex_digit (n mod 16)) EmptyString)
  else String c EmptyString.

Fixpoint escape (quote : ascii) (s : string) : string :=
  match s with
  | EmptyString => EmptyString
  | String c s' => escape_char quote c ++ escape quote s'
  end.

Definition squote : ascii := "'"%char.
Definition dquote : ascii := ascii_of_nat 34.

(** [repr(s)] of a string: single quotes, unless [s] has a single quote and
    no double quote. *)
Definition repr_str (s : string) : string :=
  let quote :=
    if PyStr.contains (String squote EmptyString) s
       && negb (PyStr.contains (String dquote EmptyString) s)
    then dquote else squote in
  String quote (escape quote s ++ String quote EmptyString).

Definition repr_int (z : Z) : string := NilZero.string_of_int (Z.to_int z).

(** [repr(v)]. *)
Fixpoint repr (v : json) : string :=
  match v with
  | JNull => "None"
  | JBool true => "True"
  | JBool false => "False"
  | JInt z => repr_int z
  | JFloat r => r
  | JStr s => repr_str s
  | JList l => "[" ++ PyStr.join ", " (map repr l) ++ "]"
  | JDict d =>
      "{" ++ PyStr.join ", "
               (map (fun kv => repr_str (fst kv) ++ ": " ++ repr (snd kv)) d)
          ++ "}"
  end.

(** [str(v)]: a string is its own text, anything else prints as [repr]. *)
Definition str (v : json) : string :=
  match v with
  | JStr s => s
  | _ => repr v
  end.

End PyRepr.

(* ----------------------------------------------------------------- *)
(** ** The configuration as the engine reads it

    [run_agent.py] builds the agent from the document that
    [SchemaValidator] accepted, so the keys the validator requires ([id],
    [name], [prompt], [completion_criteria] of a stage, [stage_id] and
    [condition] of a [next_stages] entry) are plain fields.  The keys it does
    not check are optional fields: reading an absent one raises [KeyError]
    where the source subscripts the dictionary.  The values have the types of
    the documented schema: texts are strings, [priority] is an integer,
    [context_updates] an object and [next_stages] an array.  The validator
    checks the presence of a key and not the type of its value, so a
    document it accepts with a null or a number in place of a text is not
    represented: what the engine does with such a value (a [TypeError] or an
    [AttributeError] of Python) is outside the embedding. *)

Module NextStage.
Record t : Type := mk {
  stage_id : string;
  condition : string;
  priority : option Z
}.
End NextStage.

Module Stage.
Record t : Type := mk {
  id : string;
  name : string;
  description : option string;
  greeting : option string;
  prompt : string;
  completion_criteria : string;
  context_updates : option (PyDict.t json);
  next_stages : option (list NextStage.t)
}.
End Stage.

Module Config.
Record t : Type := mk {
  agent_name : string;
  base_instructions : string;
  start_stage : string;
  stages : PyDict.t Stage.t
}.
End Config.

(** The attributes [MultiPromptAgent.__init__] sets and the methods read. *)
Module Agent.
Record t : Type := mk {
  config : Config.t;
  start_stage_id : string;
  stages : PyDict.t Stage.t
}.

Definition init (config : Config.t) : t :=
  {| config := config;
     start_stage_id := Config.start_stage config;
     stages := Config.stages config |}.
End Agent.

(* ----------------------------------------------------------------- *)
(** ** Session state *)

Module HistoryEntry.
Record t : Type := mk {
  role : string;
  content : string;
  stage_id : string;
  timestamp : string
}.
End HistoryEntry.

(** [UserData]; [ctx], the LiveKit job context, is not part of the engine. *)
Module UserData.
Record t : Type := mk {
  current_stage_id : string;
  context : PyDict.t json;
  conversation_history : list HistoryEntry.t;
  config : option Config.t;
  stages : PyDict.t Stage.t
}.

(** [UserData()] with the dataclass defaults. *)
Definition default : t :=
  {| current_stage_id := "";
     context := [];
     conversation_history := [];
     config := None;
     stages := [] |}.
End UserData.

(** What the system message of [_update_stage_context] is built from. *)
Record StageContextDescriptor : Type := {
  d_base_instructions : string;
  d_stage_id : string;
  d_stage_name : string;
  d_stage_description : string;
  d_completion_criteria : string;
  d_context : PyDict.t json;
  d_prompt : string;
  (* (stage_id, condition, priority) per candidate; None when the stage has
     no "next_stages" *)
  d_next_stages_info : option (list (string * string * Z))
}.

Inductive chat_message : Type :=
| SystemMessage (d : StageContextDescriptor)
| AssistantMessage (content : string).

(** What the agent emits: [session.say], [logger.error], [logger.warning]. *)
Inductive event : Type :=
| Say (text : string)
| ErrStageNotFound (stage_id : string)
| ErrTargetStageNotFound (target_stage : string)
| WarnInvalidTransition (current_stage_id target_stage : string)
                        (valid_transitions : list string).

Record World : Type := {
  userdata : UserData.t;
  chat_ctx : list chat_message;
  trace : list event
}.

(* ----------------------------------------------------------------- *)
(** ** Exceptions and the monad of the methods *)

Inductive exn : Type :=
| KeyError (key : string)
| ValueError (msg : string)
| SchemaTypeError.

Inductive result (A : Type) : Type :=
| Ok (a : A)
| Raise (e : exn).
Arguments Ok {A} a.
Arguments Raise {A} e.

Definition M (A : Type) : Type := World -> result A * World.

Definition ret {A} (a : A) : M A := fun w => (Ok a, w).

Definition bind {A B} (c : M A) (k : A -> M B) : M B :=
  fun w =>
    match c w with
    | (Ok a, w') => k a w'
    | (Raise e, w') => (Raise e, w')
    end.

Definition lift {A} (r : result A) : M A := fun w => (r, w).

Declare Scope py_scope.
Delimit Scope py_scope with py.
Notation "x <- c ;; k" := (bind c (fun x => k))
  (at level 61, c at next level, right associativity) : py_scope.
Notation "c ;; k" := (bind c (fun _ => k))
  (at level 61, right associativity) : py_scope.
Open Scope py_scope.

Definition get_userdata : M UserData.t := fun w => (Ok (userdata w), w).

Definition put_userdata (u : UserData.t) : M unit :=
  fun w => (Ok tt, {| userdata := u; chat_ctx := chat_ctx w; trace := trace w |}).

Definition emit (e : event) : M unit :=
  fun w => (Ok tt, {| userdata := userdata w; chat_ctx := chat_ctx w;
                      trace := trace w ++ [e] |}).

(** [d[key]] on a dictionary of the configuration. *)
Definition getitem {A} (d : PyDict.t A) (key : string) : result A :=
  match PyDict.get key d with
  | Some v => Ok v
  | None => Raise (KeyError key)
  end.

(** [stage[key]] for a key the validator does not require. *)
Definition subscript {A} (key : string) (field : option A) : result A :=
  match field with
  | Some v => Ok v
  | None => Raise (KeyError key)
  end.

Definition set_current_stage_id (stage_id : string) : M unit :=
  u <- get_userdata ;;
  put_userdata {| UserData.current_stage_id := stage_id;
                  UserData.context := UserData.context u;
                  UserData.conversation_history := UserData.conversation_history u;
                  UserData.config := UserData.config u;
                  UserData.stages := UserData.stages u |}.

Definition update_context (updates : PyDict.t json) : M unit :=
  u <- get_userdata ;;
  put_userdata {| UserData.current_stage_id := UserData.current_stage_id u;
                  UserData.context := PyDict.update (UserData.context u) updates;
                  UserData.conversation_history := UserData.conversation_history u;
                  UserData.config := UserData.config u;
                  UserData.stages := UserData.stages u |}.

Definition append_history (e : HistoryEntry.t) : M unit :=
  u <- get_userdata ;;
  put_userdata {| UserData.current_stage_id := UserData.current_stage_id u;
                  UserData.context := UserData.context u;
                  UserData.conversation_history :=
                    UserData.conversation_history u ++ [e];
                  UserData.config := UserData.config u;
                  UserData.stages := UserData.stages u |}.

(** [chat_ctx = self.chat_ctx.copy()], two [add_message], then
    [self.update_chat_ctx(chat_ctx)]. *)
Definition add_chat_messages (ms : list chat_message) : M unit :=
  fun w => (Ok tt, {| userdata := userdata w; chat_ctx := chat_ctx w ++ ms;
                      trace := trace w |}).

(* ----------------------------------------------------------------- *)
(** ** [MultiPromptAgent] *)

Definition closing_message : string :=
  "Thank you for contacting us. Have a great day!".

(** The marker [f"{{{{{key}}}}}"], that is two braces, the key, two braces. *)
Definition marker (key : string) : string := "{{" ++ key ++ "}}".

(** [_substitute_variables]: one [replace] per item of [context], in the
    order of [context.items()], each on the text the previous one left. *)
Fixpoint _substitute_variables (text : string) (context : PyDict.t json)
  : string :=
  match context with
  | [] => text
  | (key, value) :: rest =>
      _substitute_variables
        (PyStr.replace (marker key) (PyRepr.str value) text) rest
  end.

(** [s.get("priority", 50)]. *)
Definition priority_of (s : NextStage.t) : Z :=
  match NextStage.priority s with
  | Some p => p
  | None => 50%Z
  end.

(** [sorted(l, key=key, reverse=True)]: the stable sort by decreasing key;
    an element goes in front of the first one whose key is not greater. *)
Fixpoint insert_desc {A} (key : A -> Z) (x : A) (l : list A) : list A :=
  match l with
  | [] => [x]
  | y :: l' =>
      if (key x <? key y)%Z then y :: insert_desc key x l' else x :: y :: l'
  end.

Fixpoint sorted_desc {A} (key : A -> Z) (l : list A) : list A :=
  match l with
  | [] => []
  | x :: l' => insert_desc key x (sorted_desc key l')
  end.

(** [any(keyword in user_lower for keyword in condition.lower().split())]. *)
Definition condition_matches (user_lower : string) (next_stage : NextStage.t)
  : bool :=
  let condition := PyStr.lower (NextStage.condition next_stage) in
  let condition_keywords := PyStr.split condition in
  existsb (fun keyword => PyStr.contains keyword user_lower) condition_keywords.

(** The loop of [_find_next_stage] over the sorted entries. *)
Fixpoint first_match (user_lower : string) (l : list NextStage.t)
  : option string :=
  match l with
  | [] => None
  | next_stage :: l' =>
      if condition_matches user_lower next_stage
      then Some (NextStage.stage_id next_stage)
      else first_match user_lower l'
  end.

Definition _find_next_stage (self : Agent.t) (user_input : string)
    (current_stage_id : string) (context : PyDict.t json)
  : result (option string) :=
  match getitem (Agent.stages self) current_stage_id with
  | Raise e => Raise e
  | Ok current_stage =>
      match Stage.next_stages current_stage with
      | None => Ok None
      | Some next_stages =>
          let sorted_next_stages := sorted_desc priority_of next_stages in
          let user_lower := PyStr.lower user_input in
          Ok (first_match user_lower sorted_next_stages)
      end
  end.

(** The candidate lines of the system message. *)
Definition next_stages_info (stage : Stage.t)
  : option (list (string * string * Z)) :=
  match Stage.next_stages stage with
  | None => None
  | Some l =>
      Some (map (fun ns => (NextStage.stage_id ns, NextStage.condition ns,
                            priority_of ns)) l)
  end.

Definition _update_stage_context (self : Agent.t) (stage : Stage.t)
    (prompt : string) : M unit :=
  u <- get_userdata ;;
  let info := next_stages_info stage in
  description <- lift (subscript "description" (Stage.description stage)) ;;
  let stage_system_msg :=
    {| d_base_instructions := Config.base_instructions (Agent.config self);
       d_stage_id := Stage.id stage;
       d_stage_name := Stage.name stage;
       d_stage_description := description;
       d_completion_criteria := Stage.completion_criteria stage;
       d_context := UserData.context u;
       d_prompt := prompt;
       d_next_stages_info := info |} in
  add_chat_messages [SystemMessage stage_system_msg; AssistantMessage prompt].

(** [_enter_stage]; [now] is [datetime.now().isoformat()]. *)
Definition _enter_stage (self : Agent.t) (stage_id : string) (now : string)
  : M unit :=
  set_current_stage_id stage_id ;;
  if negb (PyDict.mem stage_id (Agent.stages self))
  then emit (ErrStageNotFound stage_id)
  else
    stage <- lift (getitem (Agent.stages self) stage_id) ;;
    match Stage.context_updates stage with
    | Some updates => update_context updates
    | None => ret tt
    end ;;
    u <- get_userdata ;;
    greeting_text <- lift (subscript "greeting" (Stage.greeting stage)) ;;
    let greeting := _substitute_variables greeting_text (UserData.context u) in
    let prompt := _substitute_variables (Stage.prompt stage) (UserData.context u) in
    (* the log line that formats stage['description'] *)
    lift (subscript "description" (Stage.description stage)) ;;
    emit (Say greeting) ;;
    append_history {| HistoryEntry.role := "assistant";
                      HistoryEntry.content := prompt;
                      HistoryEntry.stage_id := stage_id;
                      HistoryEntry.timestamp := now |} ;;
    _update_stage_context self stage prompt.

(** [on_enter], without the room attributes of LiveKit. *)
Definition on_enter (self : Agent.t) (now : string) : M unit :=
  u <- get_userdata ;;
  put_userdata {| UserData.current_stage_id := Agent.start_stage_id self;
                  UserData.context := UserData.context u;
                  UserData.conversation_history := UserData.conversation_history u;
                  UserData.config := Some (Agent.config self);
                  UserData.stages := Agent.stages self |} ;;
  u' <- get_userdata ;;
  _enter_stage self (UserData.current_stage_id u') now.

Definition on_user_speech_committed (user_msg : string) (now : string)
  : M unit :=
  u <- get_userdata ;;
  append_history {| HistoryEntry.role := "user";
                    HistoryEntry.content := user_msg;
                    HistoryEntry.stage_id := UserData.current_stage_id u;
                    HistoryEntry.timestamp := now |}.

(** [x in l] for a list of strings. *)
Definition str_in (x : string) (l : list string) : bool :=
  existsb (String.eqb x) l.

(** [[ns["stage_id"] for ns in current_stage["next_stages"]]], or [[]]. *)
Definition valid_transitions_of (current_stage : Stage.t) : list string :=
  match Stage.next_stages current_stage with
  | Some l => map NextStage.stage_id l
  | None => []
  end.

Definition move_to_next_stage (self : Agent.t) (target_stage : string)
    (now : string) : M unit :=
  u <- get_userdata ;;
  if String.eqb target_stage "END"
  then emit (Say closing_message)
  else if negb (PyDict.mem target_stage (UserData.stages u))
  then emit (ErrTargetStageNotFound target_stage)
  else
    current_stage <-
      lift (getitem (UserData.stages u) (UserData.current_stage_id u)) ;;
    let valid_transitions := valid_transitions_of current_stage in
    if negb (str_in target_stage valid_transitions)
       && negb (String.eqb target_stage "END")
    then emit (WarnInvalidTransition (UserData.current_stage_id u)
                                     target_stage valid_transitions)
    else _enter_stage self target_stage now.

(** The truth value of a string in [if next_stage:]: only the empty string is
    false ([None] is the other false value of an [Optional[str]]). *)
Definition truthy (s : string) : bool := negb (String.eqb s EmptyString).

Definition complete_current_stage (self : Agent.t) (next_stage_reason : string)
    (now : string) : M unit :=
  u <- get_userdata ;;
  next_stage <-
    lift (_find_next_stage self next_stage_reason
            (UserData.current_stage_id u) (UserData.context u)) ;;
  match next_stage with
  | Some target =>
      if truthy target
      then move_to_next_stage self target now
      else ret tt
  | None => ret tt
  end.

Definition end_conversation (self : Agent.t) (now : string) : M unit :=
  u <- get_userdata ;;
  current_stage <-
    lift (getitem (UserData.stages u) (UserData.current_stage_id u)) ;;
  let valid_transitions := valid_transitions_of current_stage in
  if str_in "completion" valid_transitions
  then move_to_next_stage self "completion" now
  else if str_in "goodbye" valid_transitions
  then move_to_next_stage self "goodbye" now
  else if PyDict.mem "goodbye" (UserData.stages u)
  then _enter_stage self "goodbye" now
  else emit (Say closing_message).

(* ----------------------------------------------------------------- *)
(** ** [SchemaValidator]

    The validator reads the raw document.  [key in x], [x[key]] and
    [x.items()] are modelled on JSON objects, iteration on JSON arrays, and a
    stage reference as a JSON string; a document that puts another kind of
    value there is outside the modelled fragment and gives [SchemaTypeError].
    This is not what Python does there: [key in x] on a string is a
    substring test and on an array a membership test, a [for] loop also
    visits the keys of an object and the characters of a string, and a
    number is simply no key of the stages.  So [SchemaTypeError] says nothing
    about the program, and the properties of the validator are stated for
    the documents of the schema's types, on which it never arises. *)

Module SchemaValidator.

(** [key in x] for a dictionary [x]. *)
Definition py_in (key : string) (x : json) : result bool :=
  match x with
  | JDict d => Ok (PyDict.mem key d)
  | _ => Raise SchemaTypeError
  end.

(** [x[key]] for a dictionary [x]. *)
Definition py_getitem (x : json) (key : string) : result json :=
  match x with
  | JDict d => getitem d key
  | _ => Raise SchemaTypeError
  end.

(** [x.items()] for a dictionary [x]. *)
Definition py_items (x : json) : result (list (string * json)) :=
  match x with
  | JDict d => Ok d
  | _ => Raise SchemaTypeError
  end.

(** The elements a [for] loop over [x] visits, for a list [x]. *)
Definition py_iter (x : json) : result (list json) :=
  match x with
  | JList l => Ok l
  | _ => Raise SchemaTypeError
  end.

(** A stage reference that is a string, ready to be compared with ["END"]
    and looked up among the stages. *)
Definition py_stage_ref (x : json) : result string :=
  match x with
  | JStr s => Ok s
  | _ => Raise SchemaTypeError
  end.

Definition and_then {A B} (r : result A) (k : A -> result B) : result B :=
  match r with
  | Ok a => k a
  | Raise e => Raise e
  end.

Notation "x <-- c ;;; k" := (and_then c (fun x => k))
  (at level 61, c at next level, right associativity).
Notation "c ;;; k" := (and_then c (fun _ => k))
  (at level 61, right associativity).

(** [for x in l: body(x)]. *)
Fixpoint for_each {A} (l : list A) (body : A -> result unit) : result unit :=
  match l with
  | [] => Ok tt
  | x :: l' => body x ;;; for_each l' body
  end.

(** [for key in keys: if key not in x: raise ValueError(msg(key))]. *)
Definition require_keys (x : json) (keys : list string)
    (msg : string -> string) : result unit :=
  for_each keys (fun key =>
    present <-- py_in key x ;;;
    if negb present then Raise (ValueError (msg key)) else Ok tt).

(** [all(key in x for key in keys)]. *)
Fixpoint all_in (x : json) (keys : list string) : result bool :=
  match keys with
  | [] => Ok true
  | key :: keys' =>
      present <-- py_in key x ;;;
      if present then all_in x keys' else Ok false
  end.

Definition _validate_global_settings (config : json) : result unit :=
  global_settings <-- py_getitem config "global_settings" ;;;
  require_keys global_settings ["llm_settings"; "stt_settings"; "tts_settings"]
    (fun section => "Missing " ++ section ++ " in global_settings") ;;;
  llm <-- py_getitem global_settings "llm_settings" ;;;
  ok_llm <-- all_in llm ["provider"; "model"; "temperature"] ;;;
  if negb ok_llm
  then Raise (ValueError "LLM settings missing required fields")
  else
  stt <-- py_getitem global_settings "stt_settings" ;;;
  ok_stt <-- all_in stt ["provider"; "model"; "language"] ;;;
  if negb ok_stt
  then Raise (ValueError "STT settings missing required fields")
  else
  tts <-- py_getitem global_settings "tts_settings" ;;;
  ok_tts <-- all_in tts ["provider"; "model"; "voice"] ;;;
  if negb ok_tts
  then Raise (ValueError "TTS settings missing required fields")
  else Ok tt.

Definition _validate_agent_config (config : json) : result unit :=
  agent_config <-- py_getitem config "agent_config" ;;;
  require_keys agent_config ["name"; "base_instructions"]
    (fun field => "Missing " ++ field ++ " in agent_config").

(** The body of the loop over [stage["next_stages"]]. *)
Definition _validate_next_stage (stage_id : string)
    (all_stages : PyDict.t json) (next_stage : json) : result unit :=
  has_id <-- py_in "stage_id" next_stage ;;;
  if negb has_id
  then Raise (ValueError
                ("next_stage in stage '" ++ stage_id ++ "' missing stage_id"))
  else
  has_condition <-- py_in "condition" next_stage ;;;
  if negb has_condition
  then Raise (ValueError
                ("next_stage in stage '" ++ stage_id ++ "' missing condition"))
  else
  target <-- py_getitem next_stage "stage_id" ;;;
  target_stage <-- py_stage_ref target ;;;
  if negb (String.eqb target_stage "END")
     && negb (PyDict.mem target_stage all_stages)
  then Raise (ValueError
                ("Stage '" ++ stage_id ++ "' references non-existent stage: "
                 ++ target_stage))
  else Ok tt.

Definition _validate_stage (stage_id : string) (stage : json)
    (all_stages : PyDict.t json) : result unit :=
  require_keys stage ["id"; "name"; "prompt"; "completion_criteria"]
    (fun field =>
       "Stage '" ++ stage_id ++ "' missing required field: " ++ field) ;;;
  has_next <-- py_in "next_stages" stage ;;;
  if has_next
  then
    next_stages <-- py_getitem stage "next_stages" ;;;
    entries <-- py_iter next_stages ;;;
    for_each entries (_validate_next_stage stage_id all_stages)
  else Ok tt.

Definition _validate_stage_flow (config : json) : result unit :=
  flow <-- py_getitem config "flow" ;;;
  has_start <-- py_in "start_stage" flow ;;;
  if negb has_start then Raise (ValueError "Missing start_stage in flow") else
  has_stages <-- py_in "stages" flow ;;;
  if negb has_stages then Raise (ValueError "Missing stages in flow") else
  start <-- py_getitem flow "start_stage" ;;;
  stages <-- py_getitem flow "stages" ;;;
  start_stage <-- py_stage_ref start ;;;
  all_stages <-- py_items stages ;;;
  if negb (PyDict.mem start_stage all_stages)
  then Raise (ValueError
                ("start_stage '" ++ start_stage ++ "' not found in stages"))
  else
  for_each all_stages (fun item =>
    _validate_stage (fst item) (snd item) all_stages).

Definition _validate_config (config : json) : result unit :=
  require_keys config ["global_settings"; "agent_config"; "flow"]
    (fun key => "Missing required key in config: " ++ key) ;;;
  _validate_global_settings config ;;;
  _validate_agent_config config ;;;
  _validate_stage_flow config.

End SchemaValidator.

(* ----------------------------------------------------------------- *)
(** ** Vocabulary of the properties *)

(** The session state of the specification: current stage, context and
    history. *)
Definition session_state (w : World)
  : string * PyDict.t json * list HistoryEntry.t :=
  (UserData.current_stage_id (userdata w),
   UserData.context (userdata w),
   UserData.conversation_history (userdata w)).

(** [w] after one more emitted event and nothing else. *)
Definition with_event (w : World) (e : event) : World :=
  {| userdata := userdata w; chat_ctx := chat_ctx w; trace := trace w ++ [e] |}.

(** [w] with another current stage and nothing else changed. *)
Definition with_current (w : World) (stage_id : string) : World :=
  {| userdata :=
       {| UserData.current_stage_id := stage_id;
          UserData.context := UserData.context (userdata w);
          UserData.conversation_history :=
            UserData.conversation_history (userdata w);
          UserData.config := UserData.config (userdata w);
          UserData.stages := UserData.stages (userdata w) |};
     chat_ctx := chat_ctx w;
     trace := trace w |}.

(** The context once the [context_updates] of [stage] are merged into it. *)
Definition merged_context (stage : Stage.t) (context : PyDict.t json)
  : PyDict.t json :=
  match Stage.context_updates stage with
  | Some updates => PyDict.update context updates
  | None => context
  end.

(** The history entry of a stage entry. *)
Definition entry_of (stage_id : string) (stage : Stage.t)
    (context : PyDict.t json) (now : string) : HistoryEntry.t :=
  {| HistoryEntry.role := "assistant";
     HistoryEntry.content := _substitute_variables (Stage.prompt stage) context;
     HistoryEntry.stage_id := stage_id;
     HistoryEntry.timestamp := now |}.

(** The world after a stage entry that found all it reads. *)
Definition entered (self : Agent.t) (stage_id : string) (stage : Stage.t)
    (greeting_text description : string) (now : string) (w : World) : World :=
  let context := merged_context stage (UserData.context (userdata w)) in
  let prompt := _substitute_variables (Stage.prompt stage) context in
  {| userdata :=
       {| UserData.current_stage_id := stage_id;
          UserData.context := context;
          UserData.conversation_history :=
            UserData.conversation_history (userdata w)
            ++ [entry_of stage_id stage context now];
          UserData.config := UserData.config (userdata w);
          UserData.stages := UserData.stages (userdata w) |};
     chat_ctx :=
       chat_ctx w
       ++ [SystemMessage
             {| d_base_instructions :=
                  Config.base_instructions (Agent.config self);
                d_stage_id := Stage.id stage;
                d_stage_name := Stage.name stage;
                d_stage_description := description;
                d_completion_criteria := Stage.completion_criteria stage;
                d_context := context;
                d_prompt := prompt;
                d_next_stages_info := next_stages_info stage |};
           AssistantMessage prompt];
     trace := trace w ++ [Say (_substitute_variables greeting_text context)] |}.

(** The session an agent has entered: [userdata.stages] is the agent's stage
    graph ([on_enter] stores it) and the current stage is one of its keys. *)
Definition session_ok (self : Agent.t) (w : World) : Prop :=
  UserData.stages (userdata w) = Agent.stages self
  /\ PyDict.mem (UserData.current_stage_id (userdata w)) (Agent.stages self)
     = true.

Definition is_invalid_transition_warning (e : event) : bool :=
  match e with
  | WarnInvalidTransition _ _ _ => true
  | _ => false
  end.

(** A template: literal text and markers.  [render] is its text and
    [instantiate] the substitution the specification describes, every marker
    of a context key replaced at once by the text of the key's value and
    every other marker left as it is. *)
Inductive piece : Type :=
| Lit (text : string)
| Var (key : string).

Fixpoint render (template : list piece) : string :=
  match template with
  | [] => EmptyString
  | Lit text :: rest => text ++ render rest
  | Var key :: rest => marker key ++ render rest
  end.

Fixpoint instantiate (template : list piece) (context : PyDict.t json)
  : string :=
  match template with
  | [] => EmptyString
  | Lit text :: rest => text ++ instantiate rest context
  | Var key :: rest =>
      match PyDict.get key context with
      | Some value => PyRepr.str value
      | None => marker key
      end ++ instantiate rest context
  end.

(** Literal text and keys without brace characters. *)
Definition plain_piece (p : piece) : bool :=
  match p with
  | Lit text => PyStr.brace_free text
  | Var key => PyStr.brace_free key
  end.

Definition plain_template (template : list piece) : bool :=
  forallb plain_piece template.

(** Keys without brace characters. *)
Definition plain_keys (context : PyDict.t json) : bool :=
  forallb (fun item => PyStr.brace_free (fst item)) context.

(** Keys and texts of the values without brace characters. *)
Definition plain_context (context : PyDict.t json) : bool :=
  forallb (fun item => PyStr.brace_free (fst item)
                       && PyStr.brace_free (PyRepr.str (snd item))) context.

(** The template once the markers of [key] are filled with [value]. *)
Definition fill (key value : string) (template : list piece) : list piece :=
  map (fun p =>
         match p with
         | Var k => if String.eqb k key then Lit value else Var k
         | Lit text => Lit text
         end) template.

(** No opening brace occurs in [s]. *)
Fixpoint no_open (s : string) : bool :=
  match s with
  | EmptyString => true
  | String c s' => negb (Ascii.eqb c "{"%char) && no_open s'
  end.

(** Decreasing order of the keys. *)
Definition key_ge {A} (key : A -> Z) (a b : A) : Prop := (key b <= key a)%Z.

(** [x], at position [i] of [l], wins the selection by [key] among the
    elements that satisfy [f]: it satisfies [f], and every other element that
    does either has a smaller key or has the same key and comes no
    earlier. *)
Definition wins {A} (key : A -> Z) (f : A -> bool) (l : list A) (i : nat)
    (x : A) : Prop :=
  nth_error l i = Some x
  /\ f x = true
  /\ forall j y,
       nth_error l j = Some y -> f y = true ->
       (key y < key x)%Z \/ (key y = key x /\ i <= j).

(** [s] holds ASCII characters only.  On such strings [str.lower()] and
    [str.split()] of Python are [PyStr.lower] and [PyStr.split]; the
    properties of the resolver are stated for them. *)
Fixpoint is_ascii (s : string) : bool :=
  match s with
  | EmptyString => true
  | String c s' => (nat_of_ascii c <? 128)%nat && is_ascii s'
  end.

(** The priority a transition declares, 50 when it declares none. *)
Definition declared_priority (ns : NextStage.t) : Z :=
  match NextStage.priority ns with
  | Some p => p
  | None => 50%Z
  end.

(** [t] is a substring of [s]. *)
Definition occurs_in (t s : string) : Prop :=
  exists pre post, s = (pre ++ t ++ post)%string.

(** No whitespace occurs in [t]. *)
Fixpoint blank_free (t : string) : bool :=
  match t with
  | EmptyString => true
  | String c t' => negb (PyStr.isspace c) && blank_free t'
  end.

(** [pre] is empty or ends with whitespace; [post] is empty or starts with
    whitespace. *)
Definition ends_blank (pre : string) : Prop :=
  pre = EmptyString
  \/ exists p c, pre = (p ++ String c EmptyString)%string
                 /\ PyStr.isspace c = true.

Definition starts_blank (post : string) : Prop :=
  post = EmptyString
  \/ exists c p, post = String c p /\ PyStr.isspace c = true.

(** [t] is a whitespace-separated token of [s]: a non-empty run of
    characters without whitespace, with whitespace or an end of [s] on
    either side. *)
Definition token_of (s t : string) : Prop :=
  t <> EmptyString
  /\ blank_free t = true
  /\ exists pre post,
       s = (pre ++ t ++ post)%string /\ ends_blank pre /\ starts_blank post.

(** Some token of the lowercased condition of [ns] is a substring of the
    lowercased input. *)
Definition keyword_matches (user_input : string) (ns : NextStage.t) : Prop :=
  exists keyword,
    token_of (PyStr.lower (NextStage.condition ns)) keyword
    /\ occurs_in keyword (PyStr.lower user_input).

(** The tool calls and callbacks that act on a session. *)
Inductive operation : Type :=
| OpUserSpeech (user_msg : string)
| OpMoveToNextStage (target_stage : string)
| OpCompleteCurrentStage (next_stage_reason : string)
| OpEndConversation.

Definition run_operation (self : Agent.t) (now : string) (op : operation)
  : M unit :=
  match op with
  | OpUserSpeech user_msg => on_user_speech_committed user_msg now
  | OpMoveToNextStage target_stage => move_to_next_stage self target_stage now
  | OpCompleteCurrentStage reason => complete_current_stage self reason now
  | OpEndConversation => end_conversation self now
  end.

(** A sequence of operations, each with its time stamp; an exception of one
    call is reported to the caller and the session goes on. *)
Fixpoint run_operations (self : Agent.t) (ops : list (operation * string))
    (w : World) : World :=
  match ops with
  | [] => w
  | (op, now) :: ops' =>
      run_operations self ops' (snd (run_operation self now op w))
  end.

(* ----------------------------------------------------------------- *)
(** ** Vocabulary of the validator's properties *)

(** The value of field [key] of a JSON object. *)
Definition field (x : json) (key : string) : option json :=
  match x with
  | JDict d => PyDict.get key d
  | _ => None
  end.

Definition has_field (x : json) (key : string) : bool :=
  match x with
  | JDict d => PyDict.mem key d
  | _ => false
  end.

Definition has_fields (x : json) (keys : list string) : bool :=
  forallb (has_field x) keys.

Inductive settings : Type := LLM | STT | TTS.

Definition settings_key (s : settings) : string :=
  match s with
  | LLM => "llm_settings"
  | STT => "stt_settings"
  | TTS => "tts_settings"
  end.

Definition settings_label (s : settings) : string :=
  match s with
  | LLM => "LLM"
  | STT => "STT"
  | TTS => "TTS"
  end.

Definition settings_fields (s : settings) : list string :=
  match s with
  | LLM => ["provider"; "model"; "temperature"]
  | STT => ["provider"; "model"; "language"]
  | TTS => ["provider"; "model"; "voice"]
  end.

Definition top_level_keys : list string :=
  ["global_settings"; "agent_config"; "flow"].

Definition agent_fields : list string := ["name"; "base_instructions"].

Definition flow_fields : list string := ["start_stage"; "stages"].

Definition stage_fields : list string :=
  ["id"; "name"; "prompt"; "completion_criteria"].

(** Structural completeness, as section 4.1 of the specification lists it. *)
Definition complete_next_stage (all_stages : PyDict.t json) (next_stage : json)
  : Prop :=
  has_field next_stage "condition" = true
  /\ exists target,
       field next_stage "stage_id" = Some (JStr target)
       /\ (target <> "END" -> PyDict.mem target all_stages = true).

Definition complete_stage (all_stages : PyDict.t json) (stage : json) : Prop :=
  has_fields stage stage_fields = true
  /\ forall next_stages,
       field stage "next_stages" = Some next_stages ->
       exists entries,
         next_stages = JList entries
         /\ forall next_stage,
              In next_stage entries ->
              complete_next_stage all_stages next_stage.

Definition complete_settings (global_settings : json) (s : settings) : Prop :=
  exists x,
    field global_settings (settings_key s) = Some x
    /\ has_fields x (settings_fields s) = true.

Definition complete_flow (flow : json) : Prop :=
  exists start_stage all_stages,
    field flow "start_stage" = Some (JStr start_stage)
    /\ field flow "stages" = Some (JDict all_stages)
    /\ PyDict.mem start_stage all_stages = true
    /\ forall stage_id stage,
         In (stage_id, stage) all_stages -> complete_stage all_stages stage.

Definition structurally_complete (config : json) : Prop :=
  exists global_settings agent_config flow,
    field config "global_settings" = Some global_settings
    /\ field config "agent_config" = Some agent_config
    /\ field config "flow" = Some flow
    /\ (forall s, complete_settings global_settings s)
    /\ has_fields agent_config agent_fields = true
    /\ complete_flow flow.

(** A document whose sections, where present, are JSON objects, whose
    [next_stages] are arrays of objects and whose stage references are
    strings. *)
Definition is_dict (x : json) : bool :=
  match x with JDict _ => true | _ => false end.

Definition is_str (x : json) : bool :=
  match x with JStr _ => true | _ => false end.

Definition if_present (o : option json) (p : json -> bool) : bool :=
  match o with
  | Some v => p v
  | None => true
  end.

Definition typed_next_stage (next_stage : json) : bool :=
  is_dict next_stage && if_present (field next_stage "stage_id") is_str.

Definition typed_stage (stage : json) : bool :=
  is_dict stage
  && if_present (field stage "next_stages")
       (fun next_stages =>
          match next_stages with
          | JList entries => forallb typed_next_stage entries
          | _ => false
          end).

Definition typed_flow (flow : json) : bool :=
  is_dict flow
  && if_present (field flow "start_stage") is_str
  && if_present (field flow "stages")
       (fun stages =>
          match stages with
          | JDict d => forallb (fun item => typed_stage (snd item)) d
          | _ => false
          end).

Definition typed_global_settings (global_settings : json) : bool :=
  is_dict global_settings
  && if_present (field global_settings "llm_settings") is_dict
  && if_present (field global_settings "stt_settings") is_dict
  && if_present (field global_settings "tts_settings") is_dict.

Definition schema_typed (config : json) : bool :=
  is_dict config
  && if_present (field config "global_settings") typed_global_settings
  && if_present (field config "agent_config") is_dict
  && if_present (field config "flow") typed_flow.

(** What the validator reports. *)
Inductive violation : Type :=
| MissingTopLevelKey (key : string)
| MissingSettingsSection (section : string)
| IncompleteSettings (s : settings)
| MissingAgentField (name : string)
| MissingFlowField (name : string)
| UnknownStartStage (start_stage : string)
| StageMissingField (stage_id name : string)
| NextStageMissingField (stage_id name : string)
| UnknownTarget (stage_id target_stage : string).

(** The text of the [ValueError]. *)
Definition message (v : violation) : string :=
  match v with
  | MissingTopLevelKey key => "Missing required key in config: " ++ key
  | MissingSettingsSection section =>
      "Missing " ++ section ++ " in global_settings"
  | IncompleteSettings s =>
      settings_label s ++ " settings missing required fields"
  | MissingAgentField name => "Missing " ++ name ++ " in agent_config"
  | MissingFlowField name => "Missing " ++ name ++ " in flow"
  | UnknownStartStage start_stage =>
      "start_stage '" ++ start_stage ++ "' not found in stages"
  | StageMissingField stage_id name =>
      "Stage '" ++ stage_id ++ "' missing required field: " ++ name
  | NextStageMissingField stage_id name =>
      "next_stage in stage '" ++ stage_id ++ "' missing " ++ name
  | UnknownTarget stage_id target_stage =>
      "Stage '" ++ stage_id ++ "' references non-existent stage: "
      ++ target_stage
  end.

(** The field, the stage and the target a message names.  For a settings
    section that lacks a sub-field it is the label of the section. *)
Definition named_parts (v : violation) : list string :=
  match v with
  | MissingTopLevelKey key => [key]
  | MissingSettingsSection section => [section]
  | IncompleteSettings s => [settings_label s]
  | MissingAgentField name => [name]
  | MissingFlowField name => [name]
  | UnknownStartStage start_stage => ["start_stage"; start_stage]
  | StageMissingField stage_id name => [stage_id; name]
  | NextStageMissingField stage_id name => [stage_id; name]
  | UnknownTarget stage_id target_stage => [stage_id; target_stage]
  end.

(** The place of a check in the validator's order. *)
Definition rank (v : violation) : nat :=
  match v with
  | MissingTopLevelKey _ => 0
  | MissingSettingsSection _ => 1
  | IncompleteSettings LLM => 2
  | IncompleteSettings STT => 3
  | IncompleteSettings TTS => 4
  | MissingAgentField _ => 5
  | MissingFlowField _ => 6
  | UnknownStartStage _ => 7
  | StageMissingField _ _ => 8
  | NextStageMissingField _ _ => 8
  | UnknownTarget _ _ => 8
  end.

(** The violations a document has. *)
Inductive entry_violation (all_stages : PyDict.t json) (stage_id : string)
    (next_stage : json) : violation -> Prop :=
| ev_stage_id :
    has_field next_stage "stage_id" = false ->
    entry_violation all_stages stage_id next_stage
      (NextStageMissingField stage_id "stage_id")
| ev_condition :
    has_field next_stage "condition" = false ->
    entry_violation all_stages stage_id next_stage
      (NextStageMissingField stage_id "condition")
| ev_target target :
    field next_stage "stage_id" = Some (JStr target) ->
    target <> "END" ->
    PyDict.mem target all_stages = false ->
    entry_violation all_stages stage_id next_stage
      (UnknownTarget stage_id target).

Inductive stage_violation (all_stages : PyDict.t json) (stage_id : string)
    (stage : json) : violation -> Prop :=
| sv_field name :
    In name stage_fields ->
    has_field stage name = false ->
    stage_violation all_stages stage_id stage (StageMissingField stage_id name)
| sv_entry entries next_stage v :
    field stage "next_stages" = Some (JList entries) ->
    In next_stage entries ->
    entry_violation all_stages stage_id next_stage v ->
    stage_violation all_stages stage_id stage v.

Inductive occurs (config : json) : violation -> Prop :=
| occ_top_level key :
    In key top_level_keys ->
    has_field config key = false ->
    occurs config (MissingTopLevelKey key)
| occ_section global_settings s :
    field config "global_settings" = Some global_settings ->
    has_field global_settings (settings_key s) = false ->
    occurs config (MissingSettingsSection (settings_key s))
| occ_settings global_settings s x :
    field config "global_settings" = Some global_settings ->
    field global_settings (settings_key s) = Some x ->
    has_fields x (settings_fields s) = false ->
    occurs config (IncompleteSettings s)
| occ_agent agent_config name :
    field config "agent_config" = Some agent_config ->
    In name agent_fields ->
    has_field agent_config name = false ->
    occurs config (MissingAgentField name)
| occ_flow flow name :
    field config "flow" = Some flow ->
    In name flow_fields ->
    has_field flow name = false ->
    occurs config (MissingFlowField name)
| occ_start flow start_stage all_stages :
    field config "flow" = Some flow ->
    field flow "start_stage" = Some (JStr start_stage) ->
    field flow "stages" = Some (JDict all_stages) ->
    PyDict.mem start_stage all_stages = false ->
    occurs config (UnknownStartStage start_stage)
| occ_stage flow all_stages stage_id stage v :
    field config "flow" = Some flow ->
    field flow "stages" = Some (JDict all_stages) ->
    In (stage_id, stage) all_stages ->
    stage_violation all_stages stage_id stage v ->
    occurs config v.

(** What the validator reports is a violation the document has, and none
    of a lower rank is there. *)
Definition reported (config : json) (v : violation) : Prop :=
  occurs config v /\ forall v', occurs config v' -> rank v <= rank v'.

(** How a check ends: it passes exactly on what is complete, a [ValueError]
    carries the message of a violation, and the document is found ill-typed
    only if it is. *)
Definition outcome (r : result unit) (complete : Prop) (typed : bool)
    (violated : violation -> Prop) : Prop :=
  match r with
  | Ok _ => complete
  | Raise (ValueError m) =>
      ~ complete /\ exists v, m = message v /\ violated v
  | Raise SchemaTypeError => ~ complete /\ typed = false
  | Raise (KeyError _) => False
  end.

(** [key] is the first of [keys] that [x] lacks. *)
Definition first_missing (x : json) (keys : list string) (key : string)
  : Prop :=
  exists before after,
    keys = (before ++ key :: after)%list
    /\ has_fields x before = true
    /\ has_field x key = false.

(** The order in which the settings sections are checked. *)
Definition settings_order : list settings := [LLM; STT; TTS].

(** The first violation in the order of the checks: what is checked before
    it is complete.  For an entry of [next_stages]: stage_id, then condition,
    then the target. *)
Inductive first_entry_violation (all_stages : PyDict.t json)
    (stage_id : string) (next_stage : json) : violation -> Prop :=
| fev_stage_id :
    has_field next_stage "stage_id" = false ->
    first_entry_violation all_stages stage_id next_stage
      (NextStageMissingField stage_id "stage_id")
| fev_condition :
    has_field next_stage "stage_id" = true ->
    has_field next_stage "condition" = false ->
    first_entry_violation all_stages stage_id next_stage
      (NextStageMissingField stage_id "condition")
| fev_target target :
    has_field next_stage "condition" = true ->
    field next_stage "stage_id" = Some (JStr target) ->
    target <> "END" ->
    PyDict.mem target all_stages = false ->
    first_entry_violation all_stages stage_id next_stage
      (UnknownTarget stage_id target).

(** For a stage: its four fields in their order, then the entries of
    [next_stages] in theirs. *)
Inductive first_stage_violation (all_stages : PyDict.t json)
    (stage_id : string) (stage : json) : violation -> Prop :=
| fsv_field name :
    first_missing stage stage_fields name ->
    first_stage_violation all_stages stage_id stage
      (StageMissingField stage_id name)
| fsv_entry before next_stage after v :
    has_fields stage stage_fields = true ->
    field stage "next_stages"
    = Some (JList (before ++ next_stage :: after)%list) ->
    (forall e, In e before -> complete_next_stage all_stages e) ->
    first_entry_violation all_stages stage_id next_stage v ->
    first_stage_violation all_stages stage_id stage v.

(** The checks before those of the agent section, of the flow and of the
    stages have passed. *)
Definition settings_passed (config : json) : Prop :=
  has_fields config top_level_keys = true
  /\ exists global_settings,
       field config "global_settings" = Some global_settings
       /\ forall s, complete_settings global_settings s.

Definition agent_passed (config : json) : Prop :=
  settings_passed config
  /\ exists agent_config,
       field config "agent_config" = Some agent_config
       /\ has_fields agent_config agent_fields = true.

(** For a document: the top-level keys in their order; the settings
    sections; the sub-fields of the LLM, the STT and the TTS settings; the
    fields of the agent section; those of the flow; the start stage; the
    stages in the order of the document. *)
Inductive first_violation (config : json) : violation -> Prop :=
| fv_top_level key :
    first_missing config top_level_keys key ->
    first_violation config (MissingTopLevelKey key)
| fv_section global_settings key :
    has_fields config top_level_keys = true ->
    field config "global_settings" = Some global_settings ->
    first_missing global_settings (map settings_key settings_order) key ->
    first_violation config (MissingSettingsSection key)
| fv_settings global_settings before s after x :
    has_fields config top_level_keys = true ->
    field config "global_settings" = Some global_settings ->
    has_fields global_settings (map settings_key settings_order) = true ->
    settings_order = (before ++ s :: after)%list ->
    (forall s', In s' before -> complete_settings global_settings s') ->
    field global_settings (settings_key s) = Some x ->
    has_fields x (settings_fields s) = false ->
    first_violation config (IncompleteSettings s)
| fv_agent agent_config name :
    settings_passed config ->
    field config "agent_config" = Some agent_config ->
    first_missing agent_config agent_fields name ->
    first_violation config (MissingAgentField name)
| fv_flow flow name :
    agent_passed config ->
    field config "flow" = Some flow ->
    first_missing flow flow_fields name ->
    first_violation config (MissingFlowField name)
| fv_start flow start_stage all_stages :
    agent_passed config ->
    field config "flow" = Some flow ->
    field flow "start_stage" = Some (JStr start_stage) ->
    field flow "stages" = Some (JDict all_stages) ->
    PyDict.mem start_stage all_stages = false ->
    first_violation config (UnknownStartStage start_stage)
| fv_stage flow start_stage before stage_id stage after v :
    agent_passed config ->
    field config "flow" = Some flow ->
    field flow "start_stage" = Some (JStr start_stage) ->
    field flow "stages"
    = Some (JDict (before ++ (stage_id, stage) :: after)%list) ->
    PyDict.mem start_stage (before ++ (stage_id, stage) :: after)%list
    = true ->
    (forall item,
       In item before ->
       complete_stage (before ++ (stage_id, stage) :: after)%list
         (snd item)) ->
    first_stage_violation (before ++ (stage_id, stage) :: after)%list
      stage_id stage v ->
    first_violation config v.

(** No event of the list is the invalid-transition warning. *)
Definition no_invalid_transition_warning (es : list event) : Prop :=
  forallb (fun e => negb (is_invalid_transition_warning e)) es = true.

(* ----------------------------------------------------------------- *)
(** ** Sample configurations *)

Module Sample.

Definition greeting : Stage.t :=
  {| Stage.id := "greeting";
     Stage.name := "Greeting";
     Stage.description := Some "Welcome the caller";
     Stage.greeting := Some "Hello {{user_name}}, how can I help?";
     Stage.prompt := "Find out why {{user_name}} is calling.";
     Stage.completion_criteria := "The reason for the call is known";
     Stage.context_updates := Some [("user_name", JStr "Ana")];
     Stage.next_stages :=
       Some [ {| NextStage.stage_id := "billing";
                 NextStage.condition := "bill payment";
                 NextStage.priority := Some 100%Z |} ] |}.

Definition billing : Stage.t :=
  {| Stage.id := "billing";
     Stage.name := "Billing";
     Stage.description := Some "Help with a bill";
     Stage.greeting := Some "Let us look at your bill, {{user_name}}.";
     Stage.prompt := "Resolve the billing question of {{user_name}}.";
     Stage.completion_criteria := "The bill is settled";
     Stage.context_updates := Some [("department", JStr "billing")];
     Stage.next_stages :=
       Some [ {| NextStage.stage_id := "END";
                 NextStage.condition := "done finished";
                 NextStage.priority := None |} ] |}.

Definition config : Config.t :=
  {| Config.agent_name := "Front desk";
     Config.base_instructions := "You are a helpful assistant.";
     Config.start_stage := "greeting";
     Config.stages := [("greeting", greeting); ("billing", billing)] |}.

Definition agent : Agent.t := Agent.init config.

Definition fresh : World :=
  {| userdata := UserData.default; chat_ctx := []; trace := [] |}.

(** The session once the agent has entered it. *)
Definition started : World := snd (on_enter agent "t0" fresh).

(** A stage with a given id, list of transitions and nothing else of note. *)
Definition plain (stage_id : string) (next : option (list NextStage.t))
  : Stage.t :=
  {| Stage.id := stage_id;
     Stage.name := stage_id;
     Stage.description := Some "";
     Stage.greeting := Some ("Entering " ++ stage_id);
     Stage.prompt := "Handle " ++ stage_id;
     Stage.completion_criteria := "";
     Stage.context_updates := None;
     Stage.next_stages := next |}.

Definition edge (target condition : string) : NextStage.t :=
  {| NextStage.stage_id := target;
     NextStage.condition := condition;
     NextStage.priority := None |}.

Definition agent_of (start : string) (stages : PyDict.t Stage.t) : Agent.t :=
  Agent.init {| Config.agent_name := "Sample";
                Config.base_instructions := "";
                Config.start_stage := start;
                Config.stages := stages |}.

(** A graph with both farewell stages. *)
Definition farewell_stages : PyDict.t Stage.t :=
  [ ("intake", plain "intake" (Some [edge "goodbye" "bye"; edge "completion" "done"]));
    ("survey", plain "survey" (Some [edge "goodbye" "bye"]));
    ("lonely", plain "lonely" None);
    ("completion", plain "completion" (Some [edge "END" "end"]));
    ("goodbye", plain "goodbye" None) ].

Definition farewell_at (current : string) : World :=
  snd (on_enter (agent_of current farewell_stages) "t0" fresh).

(** A graph whose second stage is keyed by the empty string. *)
Definition blank_stages : PyDict.t Stage.t :=
  [ ("menu", plain "menu" (Some [edge "" "other"]));
    ("", plain "" None) ].

Definition blank_agent : Agent.t := agent_of "menu" blank_stages.

Definition blank_started : World := snd (on_enter blank_agent "t0" fresh).

(** Configuration documents. *)
Definition llm_settings : json :=
  JDict [("provider", JStr "openai"); ("model", JStr "gpt-4o-mini");
         ("temperature", JFloat "0.7")].

Definition stage_document (stage_id : string) (next : list (string * string))
  : json :=
  JDict [("id", JStr stage_id); ("name", JStr "A stage");
         ("description", JStr ""); ("greeting", JStr "Hello");
         ("prompt", JStr "Help the caller");
         ("completion_criteria", JStr "The caller is helped");
         ("next_stages",
          JList (map (fun e => JDict [("stage_id", JStr (fst e));
                                      ("condition", JStr (snd e))]) next))].

Definition document_of (llm : json) (stages : list (string * json)) : json :=
  JDict [("global_settings",
          JDict [("llm_settings", llm);
                 ("stt_settings",
                  JDict [("provider", JStr "deepgram"); ("model", JStr "nova-2");
                         ("language", JStr "en")]);
                 ("tts_settings",
                  JDict [("provider", JStr "cartesia"); ("model", JStr "sonic");
                         ("voice", JStr "ash")])]);
         ("agent_config",
          JDict [("name", JStr "Front desk");
                 ("base_instructions", JStr "You are a helpful assistant.")]);
         ("flow",
          JDict [("start_stage", JStr "greeting"); ("stages", JDict stages)])].

Definition document : json :=
  document_of llm_settings
    [("greeting", stage_document "greeting" [("billing", "bill payment")]);
     ("billing", stage_document "billing" [("END", "done")])].

(** The LLM settings lack "model". *)
Definition document_without_model : json :=
  document_of
    (JDict [("provider", JStr "openai"); ("temperature", JFloat "0.7")])
    [("greeting", stage_document "greeting" [("billing", "bill payment")]);
     ("billing", stage_document "billing" [("END", "done")])].

(** The stage stored under "greeting" says its id is "welcome". *)
Definition document_with_other_id : json :=
  document_of llm_settings
    [("greeting", stage_document "welcome" [("billing", "bill payment")]);
     ("billing", stage_document "billing" [("END", "done")])].

(** The stage "billing" refers to a stage that is not there. *)
Definition document_with_unknown_target : json :=
  document_of llm_settings
    [("greeting", stage_document "greeting" [("billing", "bill payment")]);
     ("billing", stage_document "billing" [("refund", "money back")])].

End Sample.

(* ----------------------------------------------------------------- *)
(** ** [SchemaValidator.get_config_summary] *)

Module ConfigSummary.

Import SchemaValidator.

(** The truth value of a loaded value in [if not self.config]. *)
Definition py_truthy (x : json) : bool :=
  match x with
  | JNull => false
  | JBool b => b
  | JInt z => negb (z =? 0)%Z
  | JFloat r => negb (String.eqb r "0.0" || String.eqb r "-0.0")
  | JStr s => negb (String.eqb s EmptyString)
  | JList l => match l with [] => false | _ => true end
  | JDict d => match d with [] => false | _ => true end
  end.

(** [get_config_summary]; [config] is [self.config], [None] before a
    document is loaded.  The summary is the dictionary the method returns,
    its entries in the order of the dictionary display. *)
Definition get_config_summary (config : option json) : result json :=
  match config with
  | None => Ok (JDict [])
  | Some c =>
      if negb (py_truthy c) then Ok (JDict [])
      else
        flow <-- py_getitem c "flow" ;;;
        agent_config <-- py_getitem c "agent_config" ;;;
        agent_name <-- py_getitem agent_config "name" ;;;
        start_stage <-- py_getitem flow "start_stage" ;;;
        stages <-- py_getitem flow "stages" ;;;
        counted <-- py_items stages ;;;
        stages' <-- py_getitem flow "stages" ;;;
        listed <-- py_items stages' ;;;
        global_settings <-- py_getitem c "global_settings" ;;;
        llm <-- py_getitem global_settings "llm_settings" ;;;
        llm_model <-- py_getitem llm "model" ;;;
        global_settings' <-- py_getitem c "global_settings" ;;;
        stt <-- py_getitem global_settings' "stt_settings" ;;;
        stt_provider <-- py_getitem stt "provider" ;;;
        global_settings'' <-- py_getitem c "global_settings" ;;;
        tts <-- py_getitem global_settings'' "tts_settings" ;;;
        tts_provider <-- py_getitem tts "provider" ;;;
        Ok (JDict
              [("agent_name", agent_name);
               ("schema_type", JStr "stages");
               ("start_stage", start_stage);
               ("total_stages", JInt (Z.of_nat (List.length counted)));
               ("stage_list", JList (map JStr (PyDict.keys listed)));
               ("llm_model", llm_model);
               ("stt_provider", stt_provider);
               ("tts_provider", tts_provider)])
  end.

End ConfigSummary.

(* ----------------------------------------------------------------- *)
(** ** Start-up: [MultiPromptAgent.__init__] and [entrypoint]

    The construction of the agent on the raw document.  The providers, the
    voice-activity detector and the base class [Agent] are LiveKit's and not
    part of the source: a call of one of them is recorded with its
    arguments, and whether it returns is a parameter of the model. *)

Module Startup.

Import SchemaValidator.

(** A call of LiveKit: the constructor of a provider with its arguments,
    the loader of the voice-activity detector, the constructor of the base
    class with the instructions and the four objects it is given (an object
    is identified with the call that made it). *)
Inductive call : Type :=
| DeepgramSTT (model language : json)
| OpenAISTT (model language : json)
| DeepgramDefaultSTT
| OpenAILLM (model temperature : json)
| ElevenLabsTTS (voice_id model : json)
| CartesiaTTS (model voice : json)
| OpenAITTS (model voice : json)
| CartesiaDefaultTTS
| SileroVADLoad
| AgentInit (instructions : string) (stt llm tts vad : call).

(** How a step of the start-up ends: it returns; it raises an exception of
    the source's own reads and checks; or a call of LiveKit raises, with an
    exception that is LiveKit's. *)
Inductive started (A : Type) : Type :=
| Returned (a : A)
| Raised (e : exn)
| LiveKitRaised (c : call).

Arguments Returned {A} a.
Arguments Raised {A} e.
Arguments LiveKitRaised {A} c.

Definition own {A} (r : result A) : started A :=
  match r with
  | Ok a => Returned a
  | Raise e => Raised e
  end.

Definition and_next {A B} (r : started A) (k : A -> started B) : started B :=
  match r with
  | Returned a => k a
  | Raised e => Raised e
  | LiveKitRaised c => LiveKitRaised c
  end.

Notation "x <== c ;;; k" := (and_next c (fun x => k))
  (at level 61, c at next level, right associativity).

(** [provider == name] for a loaded value and a string literal. *)
Definition is_name (provider : json) (name : string) : bool :=
  match provider with
  | JStr s => String.eqb s name
  | _ => false
  end.

(** The system prompt [__init__] builds around the configured instructions
    and the list of the stage ids. *)
Definition base_instructions_of (configured stage_list : string) : string :=
  "
" ++ configured ++ "

DYNAMIC STAGE-BASED BEHAVIOR:
- You operate in stages: " ++ stage_list ++ "
- Each stage has specific objectives and completion criteria
- Stay in current stage until completion criteria is met
- Use the move_to_next_stage function ONLY when current stage is complete
- Follow stage instructions carefully and ask follow-up questions as needed
".

(** What [__init__] leaves in the agent. *)
Record constructed : Type := {
  c_start_stage_id : json;
  c_stages : PyDict.t json;
  c_instructions : string;
  c_stt : call;
  c_llm : call;
  c_tts : call;
  c_vad : call
}.

Section LiveKit.

(** Whether a call of LiveKit returns. *)
Variable returns : call -> bool.

Definition livekit (c : call) : started call :=
  if returns c then Returned c else LiveKitRaised c.

Definition _create_stt_provider (global_settings : json) : started call :=
  stt_settings <== own (py_getitem global_settings "stt_settings") ;;;
  provider <== own (py_getitem stt_settings "provider") ;;;
  if is_name provider "deepgram"
  then
    model <== own (py_getitem stt_settings "model") ;;;
    language <== own (py_getitem stt_settings "language") ;;;
    livekit (DeepgramSTT model language)
  else if is_name provider "openai"
  then
    model <== own (py_getitem stt_settings "model") ;;;
    language <== own (py_getitem stt_settings "language") ;;;
    livekit (OpenAISTT model language)
  else livekit DeepgramDefaultSTT.

Definition _create_llm_provider (global_settings : json) : started call :=
  llm_settings <== own (py_getitem global_settings "llm_settings") ;;;
  model <== own (py_getitem llm_settings "model") ;;;
  temperature <== own (py_getitem llm_settings "temperature") ;;;
  livekit (OpenAILLM model temperature).

Definition _create_tts_provider (global_settings : json) : started call :=
  tts_settings <== own (py_getitem global_settings "tts_settings") ;;;
  provider <== own (py_getitem tts_settings "provider") ;;;
  if is_name provider "elevenlabs"
  then
    voice <== own (py_getitem tts_settings "voice") ;;;
    model <== own (py_getitem tts_settings "model") ;;;
    livekit (ElevenLabsTTS voice model)
  else if is_name provider "cartesia"
  then
    model <== own (py_getitem tts_settings "model") ;;;
    voice <== own (py_getitem tts_settings "voice") ;;;
    livekit (CartesiaTTS model voice)
  else if is_name provider "openai"
  then
    model <== own (py_getitem tts_settings "model") ;;;
    voice <== own (py_getitem tts_settings "voice") ;;;
    livekit (OpenAITTS model voice)
  else livekit CartesiaDefaultTTS.

Definition _create_vad_provider : started call := livekit SileroVADLoad.

(** [__init__]: the reads of the document, the instructions, then the
    arguments of [super().__init__] from left to right, the call itself and
    the last log line, which reads the name of the agent. *)
Definition __init__ (config : json) : started constructed :=
  global_settings <== own (py_getitem config "global_settings") ;;;
  agent_config <== own (py_getitem config "agent_config") ;;;
  flow <== own (py_getitem config "flow") ;;;
  start_stage_id <== own (py_getitem flow "start_stage") ;;;
  stages <== own (py_getitem flow "stages") ;;;
  all_stages <== own (py_items stages) ;;;
  let stage_list := PyStr.join ", " (PyDict.keys all_stages) in
  configured <== own (py_getitem agent_config "base_instructions") ;;;
  let base_instructions :=
    base_instructions_of (PyRepr.str configured) stage_list in
  stt <== _create_stt_provider global_settings ;;;
  llm <== _create_llm_provider global_settings ;;;
  tts <== _create_tts_provider global_settings ;;;
  vad <== _create_vad_provider ;;;
  agent <== livekit (AgentInit base_instructions stt llm tts vad) ;;;
  name <== own (py_getitem agent_config "name") ;;;
  Returned {| c_start_stage_id := start_stage_id;
              c_stages := all_stages;
              c_instructions := base_instructions;
              c_stt := stt;
              c_llm := llm;
              c_tts := tts;
              c_vad := vad |}.

(** [entrypoint] of [run_agent.py] from the loaded document on: the
    validator, the checks of the flow, the construction of the agent.  The
    connection to the room, the log file and the start of the session are
    LiveKit's; the [except] clause raises the exception again. *)
Definition entrypoint (config : json) : started constructed :=
  validated <== own (_validate_config config) ;;;
  agent_config <== own (py_getitem config "agent_config") ;;;
  name <== own (py_getitem agent_config "name") ;;;
  has_flow <== own (py_in "flow" config) ;;;
  if negb has_flow
  then Raised (ValueError "Missing 'flow' section in configuration")
  else
  flow <== own (py_getitem config "flow") ;;;
  has_start <== own (py_in "start_stage" flow) ;;;
  incomplete <==
    (if negb has_start then Returned true
     else has_stages <== own (py_in "stages" flow) ;;;
          Returned (negb has_stages)) ;;;
  if (incomplete : bool)
  then Raised (ValueError
                 "Flow must contain both 'start_stage' and 'stages' definitions")
  else
  start <== own (py_getitem flow "start_stage") ;;;
  stages <== own (py_getitem flow "stages") ;;;
  start_stage <== own (py_stage_ref start) ;;;
  all_stages <== own (py_items stages) ;;;
  if negb (PyDict.mem start_stage all_stages)
  then Raised (ValueError
                 ("Start stage '" ++ start_stage
                  ++ "' not found in defined stages"))
  else __init__ config.

End LiveKit.

End Startup.

(* ----------------------------------------------------------------- *)
(** ** Vocabulary of the further properties *)

(** The results of a sequence of operations, call by call. *)
Fixpoint run_results (self : Agent.t) (ops : list (operation * string))
    (w : World) : list (result unit) :=
  match ops with
  | [] => []
  | (op, now) :: ops' =>
      fst (run_operation self now op w)
      :: run_results self ops' (snd (run_operation self now op w))
  end.

(** A stage that has the two keys [_enter_stage] reads and the validator
    does not ask for. *)
Definition readable (stage : Stage.t) : bool :=
  match Stage.greeting stage, Stage.description stage with
  | Some _, Some _ => true
  | _, _ => false
  end.

Definition graph_readable (stages : PyDict.t Stage.t) : bool :=
  forallb (fun item => readable (snd item)) stages.

(** [w'] holds what [w] held of the history, the chat context and the trace,
    and possibly more after it. *)
Definition grows (w w' : World) : Prop :=
  (exists entries,
     UserData.conversation_history (userdata w')
     = (UserData.conversation_history (userdata w) ++ entries)%list)
  /\ (exists messages, chat_ctx w' = (chat_ctx w ++ messages)%list)
  /\ (exists events, trace w' = (trace w ++ events)%list).

(** Every key of the context of [w] is a key of the context of [w']. *)
Definition keeps_keys (w w' : World) : Prop :=
  forall key,
    PyDict.mem key (UserData.context (userdata w)) = true ->
    PyDict.mem key (UserData.context (userdata w')) = true.

(** The entries of the history are user or assistant entries of stages of
    the graph. *)
Definition entry_ok (self : Agent.t) (e : HistoryEntry.t) : Prop :=
  PyDict.mem (HistoryEntry.stage_id e) (Agent.stages self) = true
  /\ (HistoryEntry.role e = "user" \/ HistoryEntry.role e = "assistant").

Definition history_ok (self : Agent.t) (w : World) : Prop :=
  Forall (entry_ok self) (UserData.conversation_history (userdata w)).



(** [w] once [_enter_stage] has set the stage and merged its updates and
    nothing else. *)
Definition half_entered (w : World) (stage_id : string) (stage : Stage.t)
  : World :=
  {| userdata :=
       {| UserData.current_stage_id := stage_id;
          UserData.context :=
            merged_context stage (UserData.context (userdata w));
          UserData.conversation_history :=
            UserData.conversation_history (userdata w);
          UserData.config := UserData.config (userdata w);
          UserData.stages := UserData.stages (userdata w) |};
     chat_ctx := chat_ctx w;
     trace := trace w |}.

(** The ways [_enter_stage] ends: the stage is not in the graph; it is and
    lacks a key the method reads; it is entered. *)
Inductive enter_outcome (self : Agent.t) (stage_id now : string) (w : World)
  : result unit * World -> Prop :=
| eo_unknown :
    PyDict.mem stage_id (Agent.stages self) = false ->
    enter_outcome self stage_id now w
      (Ok tt, with_event (with_current w stage_id) (ErrStageNotFound stage_id))
| eo_failed stage key :
    PyDict.get stage_id (Agent.stages self) = Some stage ->
    readable stage = false ->
    enter_outcome self stage_id now w
      (Raise (KeyError key), half_entered w stage_id stage)
| eo_entered stage greeting_text description :
    PyDict.get stage_id (Agent.stages self) = Some stage ->
    Stage.greeting stage = Some greeting_text ->
    Stage.description stage = Some description ->
    enter_outcome self stage_id now w
      (Ok tt, entered self stage_id stage greeting_text description now w).

(** The ways an operation ends: nothing changes; one event is emitted; a
    stage of the session's graph is entered; a user entry is appended. *)
Inductive operation_outcome (self : Agent.t) (now : string) (w : World)
  : result unit * World -> Prop :=
| oo_nothing r : operation_outcome self now w (r, w)
| oo_event e : operation_outcome self now w (Ok tt, with_event w e)
| oo_enter target :
    PyDict.mem target (UserData.stages (userdata w)) = true ->
    operation_outcome self now w (_enter_stage self target now w)
| oo_speech user_msg :
    operation_outcome self now w (on_user_speech_committed user_msg now w).

(** Only whitespace, if anything, occurs in [s]. *)
Fixpoint all_space (s : string) : bool :=
  match s with
  | EmptyString => true
  | String c s' => PyStr.isspace c && all_space s'
  end.

(** The template once the markers of every item of the context are filled,
    item by item. *)
Fixpoint fill_all (context : PyDict.t json) (template : list piece)
  : list piece :=
  match context with
  | [] => template
  | (key, value) :: rest => fill_all rest (fill key (PyRepr.str value) template)
  end.

(** The keys of the markers of a template. *)
Fixpoint vars (template : list piece) : list string :=
  match template with
  | [] => []
  | Lit _ :: rest => vars rest
  | Var key :: rest => key :: vars rest
  end.

(** The value the last item for [key] gives it, if there is one. *)
Definition last_value {A} (key : string) (updates : PyDict.t A) : option A :=
  PyDict.get key (rev updates).

(** The moves of the current stage the methods make: along a transition the
    stage declares, to a stage of the graph other than "END"; or the forced
    move of [end_conversation] to the stage "goodbye". *)
Inductive move (self : Agent.t) (a b : string) : Prop :=
| move_declared stage :
    PyDict.get a (Agent.stages self) = Some stage ->
    In b (valid_transitions_of stage) ->
    b <> "END" ->
    PyDict.mem b (Agent.stages self) = true ->
    move self a b
| move_forced :
    PyDict.mem a (Agent.stages self) = true ->
    b = "goodbye" ->
    PyDict.mem "goodbye" (Agent.stages self) = true ->
    move self a b.

(** A path of such moves. *)
Inductive path (self : Agent.t) (a : string) : string -> Prop :=
| path_here : path self a a
| path_move b c : path self a b -> move self b c -> path self a c.

(** Further sample data. *)
Module SampleMore.





(** A graph with a stage stored under the key "END". *)
Definition end_stages : PyDict.t Stage.t :=
  [ ("lobby", Sample.plain "lobby" (Some [Sample.edge "END" "done"]));
    ("END", Sample.plain "END" None) ].

Definition end_agent : Agent.t := Sample.agent_of "lobby" end_stages.

Definition end_started : World := snd (on_enter end_agent "t0" Sample.fresh).

(** The started sample session after a stage entry with an unknown id. *)
Definition lost : World :=
  snd (_enter_stage Sample.agent "nowhere" "t1" Sample.started).

End SampleMore.

(* ================================================================= *)
(** * Part II: properties *)

(* ----------------------------------------------------------------- *)
(** ** The monad and the session *)

Ltac exec :=
  unfold on_enter, end_conversation, complete_current_stage,
    move_to_next_stage, on_user_speech_committed, _enter_stage,
    _update_stage_context, set_current_stage_id, update_context,
    append_history, add_chat_messages, emit, put_userdata, get_userdata,
    bind, ret, lift, with_event; simpl.

Lemma str_in_In (x : string) (l : list string) :
  str_in x l = true <-> In x l.
Proof.
  unfold str_in. rewrite existsb_exists. split.
  - intros [y [Hy Heq]]. apply String.eqb_eq in Heq. now subst.
  - intros H. exists x. split; [assumption | apply String.eqb_refl].
Qed.

(** [_enter_stage] always leaves [current_stage_id] at its argument, whether
    the stage exists or not and whether the call returns or raises. *)
Lemma enter_stage_current (self : Agent.t) (stage_id now : string) (w : World) :
  UserData.current_stage_id (userdata (snd (_enter_stage self stage_id now w)))
  = stage_id
  /\ UserData.stages (userdata (snd (_enter_stage self stage_id now w)))
     = UserData.stages (userdata w).
Proof.
  exec.
  destruct (PyDict.mem stage_id (Agent.stages self)); simpl; [|now split].
  unfold getitem.
  destruct (PyDict.get stage_id (Agent.stages self)) as [stage|]; simpl;
    [|now split].
  destruct (Stage.context_updates stage); simpl;
    destruct (Stage.greeting stage); simpl; try (now split);
    destruct (Stage.description stage); simpl; now split.
Qed.

(** What [_enter_stage] does on a stage id that is not in the graph. *)
Lemma enter_stage_unknown (self : Agent.t) (stage_id now : string) (w : World) :
  PyDict.mem stage_id (Agent.stages self) = false ->
  _enter_stage self stage_id now w
  = (Ok tt, with_event (with_current w stage_id) (ErrStageNotFound stage_id)).
Proof. intros H. exec. rewrite H. reflexivity. Qed.

(** What [_enter_stage] does on a stage that has what the method reads. *)
Lemma enter_stage_known (self : Agent.t) (stage_id now : string) (w : World)
    (stage : Stage.t) (greeting_text description : string) :
  PyDict.get stage_id (Agent.stages self) = Some stage ->
  Stage.greeting stage = Some greeting_text ->
  Stage.description stage = Some description ->
  _enter_stage self stage_id now w
  = (Ok tt, entered self stage_id stage greeting_text description now w).
Proof.
  intros Hget Hg Hd. exec. unfold PyDict.mem, getitem. rewrite Hget. simpl.
  unfold entered, merged_context.
  destruct (Stage.context_updates stage); simpl; rewrite Hg; simpl;
    rewrite Hd; simpl; reflexivity.
Qed.

(** A successful [_enter_stage] on a stage of the graph had a greeting and a
    description to read. *)
Lemma enter_stage_ok_inv (self : Agent.t) (stage_id now : string) (w w' : World)
    (stage : Stage.t) :
  PyDict.get stage_id (Agent.stages self) = Some stage ->
  _enter_stage self stage_id now w = (Ok tt, w') ->
  exists greeting_text description,
    Stage.greeting stage = Some greeting_text
    /\ Stage.description stage = Some description.
Proof.
  intros Hget. exec. unfold PyDict.mem, getitem. rewrite Hget. simpl.
  destruct (Stage.context_updates stage); simpl;
    destruct (Stage.greeting stage) as [g|]; simpl; try discriminate;
    destruct (Stage.description stage) as [d|]; simpl; try discriminate;
    intros _; eauto.
Qed.

(* ----------------------------------------------------------------- *)
(** ** The current stage stays a stage of the graph *)

Lemma enter_stage_session_ok (self : Agent.t) (stage_id now : string) (w : World) :
  UserData.stages (userdata w) = Agent.stages self ->
  PyDict.mem stage_id (Agent.stages self) = true ->
  session_ok self (snd (_enter_stage self stage_id now w)).
Proof.
  intros Hst Hmem. destruct (enter_stage_current self stage_id now w) as [Hc Hs].
  split; [now rewrite Hs | now rewrite Hc].
Qed.

Lemma move_to_next_stage_session_ok (self : Agent.t) (target now : string)
    (w : World) :
  session_ok self w ->
  session_ok self (snd (move_to_next_stage self target now w)).
Proof.
  intros Hok. pose proof Hok as [Hst Hcur].
  unfold move_to_next_stage, bind, get_userdata, lift.
  destruct (String.eqb target "END"); [exact Hok|].
  destruct (PyDict.mem target (UserData.stages (userdata w))) eqn:Hmem; simpl;
    [|exact Hok].
  destruct (getitem _ _) as [cs|e]; [|exact Hok].
  destruct (negb (str_in target (valid_transitions_of cs)) && _); [exact Hok|].
  apply enter_stage_session_ok; [assumption | now rewrite <- Hst].
Qed.

Lemma complete_current_stage_session_ok (self : Agent.t) (reason now : string)
    (w : World) :
  session_ok self w ->
  session_ok self (snd (complete_current_stage self reason now w)).
Proof.
  intros Hok. unfold complete_current_stage, bind, get_userdata, lift.
  destruct (_find_next_stage _ _ _ _) as [[target|]|e]; try exact Hok.
  destruct (truthy target); [|exact Hok].
  now apply move_to_next_stage_session_ok.
Qed.

Lemma end_conversation_session_ok (self : Agent.t) (now : string) (w : World) :
  session_ok self w ->
  session_ok self (snd (end_conversation self now w)).
Proof.
  intros Hok. pose proof Hok as [Hst Hcur].
  unfold end_conversation, bind, get_userdata, lift.
  destruct (getitem _ _) as [cs|e]; [|exact Hok].
  destruct (str_in "completion" _);
    [now apply move_to_next_stage_session_ok|].
  destruct (str_in "goodbye" _);
    [now apply move_to_next_stage_session_ok|].
  destruct (PyDict.mem "goodbye" (UserData.stages (userdata w))) eqn:Hg;
    [|exact Hok].
  apply enter_stage_session_ok; [assumption | now rewrite <- Hst].
Qed.

Lemma run_operation_session_ok (self : Agent.t) (now : string) (op : operation)
    (w : World) :
  session_ok self w -> session_ok self (snd (run_operation self now op w)).
Proof.
  destruct op; simpl.
  - intros H. exact H.
  - apply move_to_next_stage_session_ok.
  - apply complete_current_stage_session_ok.
  - apply end_conversation_session_ok.
Qed.

(** X20.  The current stage stays a stage of the graph: [on_enter]
    establishes the invariant [session_ok] when the start stage is in the
    graph (the validator checks it), and every sequence of operations keeps
    it: the calls that reach [_enter_stage] test the stage id first. *)
Theorem current_stage_stays_valid (self : Agent.t) (now : string)
    (ops : list (operation * string)) (w : World) :
  PyDict.mem (Agent.start_stage_id self) (Agent.stages self) = true ->
  session_ok self (run_operations self ops (snd (on_enter self now w))).
Proof.
  intros Hstart.
  assert (H0 : session_ok self (snd (on_enter self now w))).
  { unfold on_enter, bind, get_userdata, put_userdata. simpl.
    apply enter_stage_session_ok; [reflexivity | exact Hstart]. }
  revert H0. generalize (snd (on_enter self now w)).
  induction ops as [|[op t] ops IH]; intros w0 H0; simpl; [exact H0|].
  apply IH. now apply run_operation_session_ok.
Qed.

Lemma current_stage_stays_valid_sample :
  session_ok Sample.agent
    (run_operations Sample.agent
       [(OpUserSpeech "I need to pay my bill", "t1");
        (OpCompleteCurrentStage "bill payment", "t2");
        (OpMoveToNextStage "nowhere", "t3");
        (OpEndConversation, "t4")]
       (snd (on_enter Sample.agent "t0" Sample.fresh))).
Proof. apply (current_stage_stays_valid Sample.agent). reflexivity. Defined.

(* ----------------------------------------------------------------- *)
(** ** Entering a stage *)

(** C1 (the code departs from the claim).  [_enter_stage] assigns
    [current_stage_id] before it tests that the stage exists: entered with
    the id "nowhere", which is not a stage of the sample graph, the started
    sample session reports the missing stage and returns, but its current
    stage is now "nowhere" and no longer a key of the graph, so the session
    state is not the one before the call. *)
Theorem C1_enter_unknown_stage_moves_current_stage :
  PyDict.mem "nowhere" (Agent.stages Sample.agent) = false
  /\ UserData.current_stage_id (userdata Sample.started) = "greeting"
  /\ exists w',
       _enter_stage Sample.agent "nowhere" "t1" Sample.started = (Ok tt, w')
       /\ trace w' = (trace Sample.started ++ [ErrStageNotFound "nowhere"])%list
       /\ UserData.current_stage_id (userdata w') = "nowhere"
       /\ session_state w' <> session_state Sample.started
       /\ PyDict.mem (UserData.current_stage_id (userdata w'))
            (Agent.stages Sample.agent) = false.
Proof.
  split; [reflexivity|]. split; [reflexivity|].
  eexists. split; [now apply enter_stage_unknown|].
  repeat split; try reflexivity. discriminate.
Qed.

(** C6.  Entering a stage of the graph, when it succeeds, merges the stage's
    [context_updates] into the context and appends exactly one history entry:
    role "assistant", content the stage's prompt rendered with the merged
    context (the greeting plays no part in it), the entered stage's id and
    the time of the call.  It succeeds whenever the stage has the greeting
    and the description the method reads. *)
Theorem C6_enter_stage_appends_one_assistant_entry
    (self : Agent.t) (stage_id now : string) (w : World) (stage : Stage.t) :
  PyDict.get stage_id (Agent.stages self) = Some stage ->
  let context' := merged_context stage (UserData.context (userdata w)) in
  (forall w',
     _enter_stage self stage_id now w = (Ok tt, w') ->
     UserData.context (userdata w') = context'
     /\ UserData.conversation_history (userdata w')
        = (UserData.conversation_history (userdata w)
           ++ [ {| HistoryEntry.role := "assistant";
                   HistoryEntry.content :=
                     _substitute_variables (Stage.prompt stage) context';
                   HistoryEntry.stage_id := stage_id;
                   HistoryEntry.timestamp := now |} ])%list
     /\ length (UserData.conversation_history (userdata w'))
        = S (length (UserData.conversation_history (userdata w))))
  /\ (Stage.greeting stage <> None ->
      Stage.description stage <> None ->
      exists w', _enter_stage self stage_id now w = (Ok tt, w')).
Proof.
  intros Hget context'. split.
  - intros w' Hrun.
    destruct (enter_stage_ok_inv _ _ _ _ _ _ Hget Hrun) as (g & d & Hg & Hd).
    rewrite (enter_stage_known _ _ _ _ _ _ _ Hget Hg Hd) in Hrun.
    injection Hrun as <-. simpl. repeat split.
    rewrite length_app. simpl. lia.
  - intros Hg Hd.
    destruct (Stage.greeting stage) as [g|] eqn:Eg; [|contradiction].
    destruct (Stage.description stage) as [d|] eqn:Ed; [|contradiction].
    eexists. now apply (enter_stage_known self stage_id now w stage g d).
Qed.

Lemma C6_enter_stage_appends_one_assistant_entry_witness :
  exists w',
    _enter_stage Sample.agent "billing" "t1" Sample.started = (Ok tt, w')
    /\ UserData.conversation_history (userdata w')
       = (UserData.conversation_history (userdata Sample.started)
          ++ [ {| HistoryEntry.role := "assistant";
                  HistoryEntry.content := "Resolve the billing question of Ana.";
                  HistoryEntry.stage_id := "billing";
                  HistoryEntry.timestamp := "t1" |} ])%list.
Proof.
  destruct (C6_enter_stage_appends_one_assistant_entry
              Sample.agent "billing" "t1" Sample.started Sample.billing
              eq_refl) as [Hpost Hrun].
  destruct Hrun as [w' Hw']; [discriminate | discriminate |].
  exists w'. split; [exact Hw'|].
  destruct (Hpost w' Hw') as (_ & Hh & _). exact Hh.
Defined.

(* ----------------------------------------------------------------- *)
(** ** Requested transitions *)

Lemma move_to_listed_target
    (self : Agent.t) (target now : string) (w : World) (current_stage : Stage.t) :
  PyDict.get (UserData.current_stage_id (userdata w))
    (UserData.stages (userdata w)) = Some current_stage ->
  In target (valid_transitions_of current_stage) ->
  target <> "END" ->
  PyDict.mem target (UserData.stages (userdata w)) = true ->
  move_to_next_stage self target now w = _enter_stage self target now w.
Proof.
  intros Hcur Hin Hend Hmem.
  apply String.eqb_neq in Hend. apply str_in_In in Hin.
  unfold move_to_next_stage, bind, get_userdata, lift, getitem.
  rewrite Hend, Hmem, Hcur. simpl. rewrite Hin. reflexivity.
Qed.

(** C2.  For a target other than "END": a target that is not a key of the
    stage graph is reported as not found and the session state is unchanged;
    a target of the graph that the current stage does not list is reported as
    an invalid transition (with the current stage, the target and the valid
    targets) and the session state is unchanged; a listed target of the graph
    is entered.  The three cases cover every target, so the call is rejected
    exactly for the targets of the first two. *)
Theorem C2_move_to_next_stage_validates
    (self : Agent.t) (target now : string) (w : World) :
  target <> "END" ->
  (PyDict.mem target (UserData.stages (userdata w)) = false ->
   move_to_next_stage self target now w
   = (Ok tt, with_event w (ErrTargetStageNotFound target))
   /\ session_state (with_event w (ErrTargetStageNotFound target))
      = session_state w)
  /\ (forall current_stage,
        PyDict.get (UserData.current_stage_id (userdata w))
          (UserData.stages (userdata w)) = Some current_stage ->
        PyDict.mem target (UserData.stages (userdata w)) = true ->
        let valid := valid_transitions_of current_stage in
        (~ In target valid ->
         move_to_next_stage self target now w
         = (Ok tt,
            with_event w
              (WarnInvalidTransition
                 (UserData.current_stage_id (userdata w)) target valid))
         /\ session_state
              (with_event w
                 (WarnInvalidTransition
                    (UserData.current_stage_id (userdata w)) target valid))
            = session_state w)
        /\ (In target valid ->
            move_to_next_stage self target now w
            = _enter_stage self target now w)).
Proof.
  intros Hend. apply String.eqb_neq in Hend.
  split.
  - intros Hmem. split; [|reflexivity].
    unfold move_to_next_stage, bind, get_userdata.
    rewrite Hend, Hmem. reflexivity.
  - intros cs Hcur Hmem valid. split.
    + intros Hnot. split; [|reflexivity].
      unfold move_to_next_stage, bind, get_userdata, lift, getitem.
      rewrite Hend, Hmem, Hcur. simpl.
      destruct (str_in target (valid_transitions_of cs)) eqn:Hin.
      * apply str_in_In in Hin. contradiction.
      * reflexivity.
    + intros Hin. apply str_in_In in Hin.
      unfold move_to_next_stage, bind, get_userdata, lift, getitem.
      rewrite Hend, Hmem, Hcur. simpl. unfold valid in Hin. rewrite Hin.
      reflexivity.
Qed.

Lemma C2_move_to_next_stage_validates_witness :
  move_to_next_stage Sample.agent "nowhere" "t1" Sample.started
  = (Ok tt, with_event Sample.started (ErrTargetStageNotFound "nowhere"))
  /\ move_to_next_stage Sample.agent "greeting" "t1" Sample.started
     = (Ok tt, with_event Sample.started
                 (WarnInvalidTransition "greeting" "greeting" ["billing"]))
  /\ move_to_next_stage Sample.agent "billing" "t1" Sample.started
     = _enter_stage Sample.agent "billing" "t1" Sample.started.
Proof.
  split; [|split].
  - apply (C2_move_to_next_stage_validates Sample.agent "nowhere" "t1"
             Sample.started); [discriminate | reflexivity].
  - apply (C2_move_to_next_stage_validates Sample.agent "greeting" "t1"
             Sample.started ltac:(discriminate)) with
      (current_stage := Sample.greeting); [reflexivity | reflexivity |].
    simpl. intros [H|[]]. discriminate.
  - apply (C2_move_to_next_stage_validates Sample.agent "billing" "t1"
             Sample.started ltac:(discriminate)) with
      (current_stage := Sample.greeting); [reflexivity | reflexivity |].
    simpl. now left.
Defined.

(** C3 (as amended).  A request to move to "END" speaks the closing message
    and does nothing else: the call returns normally, the session (current
    stage, context, history, stage graph) and the chat context are the ones
    before the call, so no stage is entered, no context is merged and no
    history entry is appended.  The engine keeps no record that the
    conversation ended. *)
Theorem C3_move_to_end_only_speaks (self : Agent.t) (now : string) (w : World) :
  exists w',
    move_to_next_stage self "END" now w = (Ok tt, w')
    /\ trace w' = (trace w ++ [Say closing_message])%list
    /\ userdata w' = userdata w
    /\ chat_ctx w' = chat_ctx w
    /\ session_state w' = session_state w.
Proof.
  exists (with_event w (Say closing_message)). repeat split.
Qed.

(** C3 as stated fails: after the move to "END" the sample session is in no
    terminal state.  Its session state is the one before the call, and the
    next request, a move to "billing", is carried out and changes the
    current stage. *)
Lemma C3_end_is_not_a_terminal_state :
  let w1 := snd (move_to_next_stage Sample.agent "END" "t1" Sample.started) in
  let w2 := snd (move_to_next_stage Sample.agent "billing" "t2" w1) in
  userdata w1 = userdata Sample.started
  /\ fst (move_to_next_stage Sample.agent "billing" "t2" w1) = Ok tt
  /\ UserData.current_stage_id (userdata w1) = "greeting"
  /\ UserData.current_stage_id (userdata w2) = "billing"
  /\ session_state w2 <> session_state w1.
Proof.
  repeat split. discriminate.
Qed.

(* ----------------------------------------------------------------- *)
(** ** Ending the conversation *)


(** C7 (as amended).  [end_conversation] reads the targets the current stage
    declares and takes the first case that applies: "completion" is declared,
    and the call is [move_to_next_stage("completion")], which enters the
    stage "completion" when the graph has it, so what is spoken is that
    stage's greeting; else "goodbye" is declared, and the call is
    [move_to_next_stage("goodbye")] likewise; else the graph has a stage
    "goodbye", which is entered directly, whatever the current stage
    declares; else the default closing message is spoken and nothing else
    happens: session and chat context are unchanged, and the engine keeps no
    record that the conversation ended. *)
Theorem C7_end_conversation_preference_order
    (self : Agent.t) (now : string) (w : World) (current_stage : Stage.t) :
  PyDict.get (UserData.current_stage_id (userdata w))
    (UserData.stages (userdata w)) = Some current_stage ->
  let valid := valid_transitions_of current_stage in
  let stages := UserData.stages (userdata w) in
  (In "completion" valid ->
   end_conversation self now w = move_to_next_stage self "completion" now w
   /\ (PyDict.mem "completion" stages = true ->
       end_conversation self now w = _enter_stage self "completion" now w))
  /\ (~ In "completion" valid -> In "goodbye" valid ->
      end_conversation self now w = move_to_next_stage self "goodbye" now w
      /\ (PyDict.mem "goodbye" stages = true ->
          end_conversation self now w = _enter_stage self "goodbye" now w))
  /\ (~ In "completion" valid -> ~ In "goodbye" valid ->
      PyDict.mem "goodbye" stages = true ->
      end_conversation self now w = _enter_stage self "goodbye" now w)
  /\ (~ In "completion" valid -> ~ In "goodbye" valid ->
      PyDict.mem "goodbye" stages = false ->
      exists w',
        end_conversation self now w = (Ok tt, w')
        /\ trace w' = (trace w ++ [Say closing_message])%list
        /\ userdata w' = userdata w
        /\ chat_ctx w' = chat_ctx w).
Proof.
  intros Hcur valid stages.
  assert (Hrun : end_conversation self now w =
    if str_in "completion" valid
    then move_to_next_stage self "completion" now w
    else if str_in "goodbye" valid
    then move_to_next_stage self "goodbye" now w
    else if PyDict.mem "goodbye" stages
    then _enter_stage self "goodbye" now w
    else emit (Say closing_message) w).
  { unfold end_conversation, bind, get_userdata, lift, getitem.
    rewrite Hcur. subst valid stages.
    destruct (str_in "completion" _); [reflexivity|].
    destruct (str_in "goodbye" _); [reflexivity|].
    destruct (PyDict.mem _ _); reflexivity. }
  assert (Hno : forall x, ~ In x valid -> str_in x valid = false).
  { intros x Hx. destruct (str_in x valid) eqn:E; [|reflexivity].
    apply str_in_In in E. contradiction. }
  split; [|split; [|split]].
  - intros Hc. pose proof Hc as Hc'. apply str_in_In in Hc'.
    rewrite Hrun, Hc'. split; [reflexivity|].
    intros Hmem.
    apply (move_to_listed_target self "completion" now w current_stage);
      [assumption | assumption | discriminate | assumption].
  - intros Hnc Hg. pose proof Hg as Hg'. apply str_in_In in Hg'.
    rewrite Hrun, (Hno _ Hnc), Hg'. split; [reflexivity|].
    intros Hmem.
    apply (move_to_listed_target self "goodbye" now w current_stage);
      [assumption | assumption | discriminate | assumption].
  - intros Hnc Hng Hmem. rewrite Hrun, (Hno _ Hnc), (Hno _ Hng), Hmem.
    reflexivity.
  - intros Hnc Hng Hmem. rewrite Hrun, (Hno _ Hnc), (Hno _ Hng), Hmem.
    exists (with_event w (Say closing_message)). repeat split.
Qed.

Lemma C7_end_conversation_preference_order_witness :
  (let a := Sample.agent_of "intake" Sample.farewell_stages in
   end_conversation a "t1" (Sample.farewell_at "intake")
   = _enter_stage a "completion" "t1" (Sample.farewell_at "intake"))
  /\ (let a := Sample.agent_of "survey" Sample.farewell_stages in
      end_conversation a "t1" (Sample.farewell_at "survey")
      = _enter_stage a "goodbye" "t1" (Sample.farewell_at "survey"))
  /\ (let a := Sample.agent_of "lonely" Sample.farewell_stages in
      end_conversation a "t1" (Sample.farewell_at "lonely")
      = _enter_stage a "goodbye" "t1" (Sample.farewell_at "lonely"))
  /\ (exists w',
        end_conversation Sample.agent "t1" Sample.started = (Ok tt, w')
        /\ trace w' = (trace Sample.started ++ [Say closing_message])%list
        /\ userdata w' = userdata Sample.started
        /\ chat_ctx w' = chat_ctx Sample.started).
Proof.
  split; [|split; [|split]].
  - destruct (C7_end_conversation_preference_order
                (Sample.agent_of "intake" Sample.farewell_stages) "t1"
                (Sample.farewell_at "intake")
                (Sample.plain "intake"
                   (Some [Sample.edge "goodbye" "bye";
                          Sample.edge "completion" "done"])) eq_refl)
      as (H & _).
    apply H; [right; left; reflexivity | reflexivity].
  - destruct (C7_end_conversation_preference_order
                (Sample.agent_of "survey" Sample.farewell_stages) "t1"
                (Sample.farewell_at "survey")
                (Sample.plain "survey" (Some [Sample.edge "goodbye" "bye"]))
                eq_refl)
      as (_ & H & _).
    apply H; [intros [E|[]]; discriminate | left; reflexivity | reflexivity].
  - destruct (C7_end_conversation_preference_order
                (Sample.agent_of "lonely" Sample.farewell_stages) "t1"
                (Sample.farewell_at "lonely") (Sample.plain "lonely" None)
                eq_refl)
      as (_ & _ & H & _).
    apply H; [intros [] | intros [] | reflexivity].
  - destruct (C7_end_conversation_preference_order Sample.agent "t1"
                Sample.started Sample.greeting eq_refl)
      as (_ & _ & _ & H).
    apply H; [intros [E|[]]; discriminate | intros [E|[]]; discriminate
             | reflexivity].
Defined.

(** C7 as stated fails in its last case: the sample session is in the stage
    "greeting", which declares neither "completion" nor "goodbye", and the
    graph has no stage "goodbye"; [end_conversation] speaks the default
    closing message, but it sets no ended state: the session is the one
    before the call and the next request, a move to "billing", is carried
    out. *)
Lemma C7_default_farewell_sets_no_ended_state :
  let w1 := snd (end_conversation Sample.agent "t1" Sample.started) in
  let w2 := snd (move_to_next_stage Sample.agent "billing" "t2" w1) in
  trace w1 = (trace Sample.started ++ [Say closing_message])%list
  /\ userdata w1 = userdata Sample.started
  /\ fst (move_to_next_stage Sample.agent "billing" "t2" w1) = Ok tt
  /\ UserData.current_stage_id (userdata w2) = "billing"
  /\ session_state w2 <> session_state w1.
Proof.
  repeat split. discriminate.
Qed.

(* ----------------------------------------------------------------- *)
(** ** The stable sort by decreasing priority *)

Section StableSort.

Context {A : Type} (key : A -> Z).

Lemma insert_desc_perm (x : A) (l : list A) :
  Permutation (insert_desc key x l) (x :: l).
Proof.
  induction l as [|y l IH]; simpl; [reflexivity|].
  destruct (key x <? key y)%Z; [|reflexivity].
  rewrite IH. apply perm_swap.
Qed.

Lemma sorted_desc_perm (l : list A) : Permutation (sorted_desc key l) l.
Proof.
  induction l as [|x l IH]; simpl; [reflexivity|].
  rewrite insert_desc_perm. now apply perm_skip.
Qed.

Lemma sorted_desc_In (x : A) (l : list A) :
  In x (sorted_desc key l) <-> In x l.
Proof.
  split; apply Permutation_in;
    [apply sorted_desc_perm | symmetry; apply sorted_desc_perm].
Qed.

Lemma insert_desc_sorted (x : A) (l : list A) :
  StronglySorted (key_ge key) l -> StronglySorted (key_ge key) (insert_desc key x l).
Proof.
  induction l as [|y l IH]; intros Hs; simpl.
  - constructor; constructor.
  - apply StronglySorted_inv in Hs as [Hl Hy].
    destruct (key x <? key y)%Z eqn:E.
    + apply Z.ltb_lt in E. constructor; [now apply IH|].
      apply Forall_forall. intros z Hz.
      apply (Permutation_in _ (insert_desc_perm x l)) in Hz.
      destruct Hz as [<-|Hz]; [unfold key_ge; lia|].
      rewrite Forall_forall in Hy. now apply Hy.
    + apply Z.ltb_ge in E. constructor; [now constructor|].
      constructor; [exact E|].
      rewrite Forall_forall in *. intros z Hz. specialize (Hy z Hz).
      unfold key_ge in *. lia.
Qed.

Lemma sorted_desc_sorted (l : list A) :
  StronglySorted (key_ge key) (sorted_desc key l).
Proof.
  induction l as [|x l IH]; simpl; [constructor|].
  now apply insert_desc_sorted.
Qed.

(** Stability: the entries of one priority come out in the order they had. *)
Lemma insert_desc_filter (p : Z) (x : A) (l : list A) :
  filter (fun y => (key y =? p)%Z) (insert_desc key x l)
  = filter (fun y => (key y =? p)%Z) (x :: l).
Proof.
  induction l as [|y l IH]; [reflexivity|].
  simpl insert_desc. destruct (key x <? key y)%Z eqn:E; [|reflexivity].
  apply Z.ltb_lt in E. simpl in *. rewrite IH.
  destruct (key x =? p)%Z eqn:Ex; [|reflexivity].
  destruct (key y =? p)%Z eqn:Ey; [|reflexivity].
  apply Z.eqb_eq in Ex, Ey. lia.
Qed.

Lemma sorted_desc_stable (p : Z) (l : list A) :
  filter (fun y => (key y =? p)%Z) (sorted_desc key l)
  = filter (fun y => (key y =? p)%Z) l.
Proof.
  induction l as [|x l IH]; [reflexivity|].
  simpl sorted_desc. rewrite insert_desc_filter. simpl. now rewrite IH.
Qed.

(** The first element with a property in the sorted list. *)
Variable f : A -> bool.

Lemma find_insert_desc (x : A) (l : list A) :
  StronglySorted (key_ge key) l ->
  find f (insert_desc key x l)
  = if f x
    then match find f l with
         | Some y => if (key x <? key y)%Z then Some y else Some x
         | None => Some x
         end
    else find f l.
Proof.
  induction l as [|y l IH]; intros Hs.
  - simpl. now destruct (f x).
  - apply StronglySorted_inv in Hs as [Hl Hy]. specialize (IH Hl).
    simpl insert_desc. destruct (key x <? key y)%Z eqn:E.
    + simpl. rewrite IH. destruct (f y) eqn:Fy.
      * rewrite E. now destruct (f x).
      * reflexivity.
    + cbn [find]. destruct (f x) eqn:Fx; [|reflexivity].
      destruct (f y) eqn:Fy; [now rewrite E|].
      destruct (find f l) as [z|] eqn:Fz; [|reflexivity].
      apply find_some in Fz as [Hz _].
      rewrite Forall_forall in Hy. specialize (Hy z Hz).
      apply Z.ltb_ge in E. unfold key_ge in Hy.
      assert (Hzx : (key x <? key z)%Z = false) by (apply Z.ltb_ge; lia).
      now rewrite Hzx.
Qed.

Lemma find_sorted_desc_none (l : list A) :
  find f (sorted_desc key l) = None <-> forall x, In x l -> f x = false.
Proof.
  split.
  - intros H x Hx. apply (find_none _ _ H). now apply sorted_desc_In.
  - intros H. destruct (find f (sorted_desc key l)) as [x|] eqn:E;
      [|reflexivity].
    apply find_some in E as [Hx Fx].
    apply (proj1 (sorted_desc_In _ _)) in Hx.
    rewrite (H x Hx) in Fx. discriminate.
Qed.

Lemma find_sorted_desc_wins (l : list A) (x : A) :
  find f (sorted_desc key l) = Some x -> exists i, wins key f l i x.
Proof.
  revert x. induction l as [|x0 l IH]; intros x; [discriminate|].
  simpl sorted_desc. rewrite find_insert_desc by apply sorted_desc_sorted.
  destruct (f x0) eqn:F0.
  - destruct (find f (sorted_desc key l)) as [y0|] eqn:Fl.
    + destruct (IH y0 eq_refl) as (i & Hi & Fy & Hdom).
      destruct (key x0 <? key y0)%Z eqn:E; intros [= <-].
      * apply Z.ltb_lt in E. exists (S i). repeat split; try assumption.
        intros [|j] y Hj Fy'.
        -- injection Hj as <-. now left.
        -- destruct (Hdom j y Hj Fy') as [?|[? ?]]; [now left|right; lia].
      * apply Z.ltb_ge in E. exists 0. repeat split; try assumption.
        intros [|j] y Hj Fy'.
        -- injection Hj as <-. right. lia.
        -- destruct (Hdom j y Hj Fy') as [?|[? ?]]; lia.
    + intros [= <-]. exists 0. repeat split; try assumption.
      intros [|j] y Hj Fy'.
      * injection Hj as <-. right. lia.
      * simpl in Hj. apply nth_error_In in Hj.
        rewrite find_sorted_desc_none in Fl. rewrite (Fl y Hj) in Fy'.
        discriminate.
  - intros Hx. destruct (IH x Hx) as (i & Hi & Fx & Hdom).
    exists (S i). repeat split; try assumption.
    intros [|j] y Hj Fy'.
    + injection Hj as <-. rewrite F0 in Fy'. discriminate.
    + destruct (Hdom j y Hj Fy') as [?|[? ?]]; [now left|right; lia].
Qed.

Lemma wins_unique (l : list A) (i j : nat) (x y : A) :
  wins key f l i x -> wins key f l j y -> i = j /\ x = y.
Proof.
  intros (Hi & Fx & Hx) (Hj & Fy & Hy).
  destruct (Hx j y Hj Fy) as [H1|[H1 H1']];
    destruct (Hy i x Hi Fx) as [H2|[H2 H2']]; try lia.
  assert (i = j) by lia. subst j. split; [reflexivity|]. congruence.
Qed.

Lemma wins_find_sorted_desc (l : list A) (i : nat) (x : A) :
  wins key f l i x -> find f (sorted_desc key l) = Some x.
Proof.
  intros Hw. destruct (find f (sorted_desc key l)) as [y|] eqn:E.
  - destruct (find_sorted_desc_wins _ _ E) as [j Hj].
    destruct (wins_unique _ _ _ _ _ Hw Hj) as [_ ->]. reflexivity.
  - rewrite find_sorted_desc_none in E. destruct Hw as (Hi & Fx & _).
    apply nth_error_In in Hi. rewrite (E x Hi) in Fx. discriminate.
Qed.

End StableSort.

Lemma first_match_find (user_lower : string) (l : list NextStage.t) :
  first_match user_lower l
  = option_map NextStage.stage_id (find (condition_matches user_lower) l).
Proof.
  induction l as [|ns l IH]; [reflexivity|]. simpl.
  now destruct (condition_matches user_lower ns).
Qed.

(* ----------------------------------------------------------------- *)
(** ** Strings *)

Lemma append_assoc (a b c : string) : ((a ++ b) ++ c = a ++ (b ++ c))%string.
Proof. induction a as [|x a IH]; simpl; [reflexivity | now rewrite IH]. Qed.

Lemma append_empty_r (a : string) : (a ++ "")%string = a.
Proof. induction a as [|x a IH]; simpl; [reflexivity | now rewrite IH]. Qed.

Lemma starts_with_append (p rest : string) :
  PyStr.starts_with p (p ++ rest) = true.
Proof.
  induction p as [|c p IH]; simpl; [reflexivity|].
  now rewrite Ascii.eqb_refl.
Qed.

Lemma contains_starts_with (needle hay : string) :
  PyStr.starts_with needle hay = true -> PyStr.contains needle hay = true.
Proof. intros H. destruct hay; simpl in *; now rewrite H. Qed.

Lemma contains_append (needle pre post : string) :
  PyStr.contains needle (pre ++ needle ++ post) = true.
Proof.
  induction pre as [|c pre IH].
  - cbn [append]. apply contains_starts_with, starts_with_append.
  - cbn [append PyStr.contains]. rewrite IH. apply orb_true_r.
Qed.

Lemma starts_with_inv (p s : string) :
  PyStr.starts_with p s = true -> exists post, s = (p ++ post)%string.
Proof.
  revert s. induction p as [|a p IH]; intros s; [now exists s|].
  destruct s as [|b s]; cbn [PyStr.starts_with]; [discriminate|].
  intros H. apply andb_true_iff in H as [Hab Hp].
  apply Ascii.eqb_eq in Hab. subst b.
  destruct (IH s Hp) as [post ->]. now exists post.
Qed.

Lemma contains_inv (needle hay : string) :
  PyStr.contains needle hay = true ->
  exists pre post, hay = (pre ++ needle ++ post)%string.
Proof.
  induction hay as [|c hay IH]; cbn [PyStr.contains]; intros H;
    apply orb_true_iff in H as [H|H].
  - apply starts_with_inv in H as [post ->]. now exists EmptyString, post.
  - discriminate.
  - apply starts_with_inv in H as [post ->]. now exists EmptyString, post.
  - destruct (IH H) as (pre & post & ->). now exists (String c pre), post.
Qed.

(* ----------------------------------------------------------------- *)
(** ** The transition resolver *)

Lemma condition_matches_spec (user_lower : string) (ns : NextStage.t) :
  condition_matches user_lower ns = true
  <-> exists keyword,
        In keyword (PyStr.split (PyStr.lower (NextStage.condition ns)))
        /\ PyStr.contains keyword user_lower = true.
Proof. unfold condition_matches. apply existsb_exists. Qed.

Lemma contains_occurs_in (needle hay : string) :
  PyStr.contains needle hay = true <-> occurs_in needle hay.
Proof.
  split; [apply contains_inv|].
  intros (pre & post & ->). apply contains_append.
Qed.

Lemma split_from_run (t cur post : string) :
  blank_free t = true ->
  PyStr.split_from cur (t ++ post) = PyStr.split_from (cur ++ t) post.
Proof.
  revert cur. induction t as [|c t IH]; intros cur Ht.
  - now rewrite append_empty_r.
  - cbn [blank_free] in Ht. apply andb_true_iff in Ht as [Hc Ht].
    apply negb_true_iff in Hc.
    cbn [append PyStr.split_from]. rewrite Hc, (IH _ Ht).
    now rewrite append_assoc.
Qed.

Lemma split_from_end_of_run (cur post : string) :
  cur <> EmptyString -> starts_blank post ->
  In cur (PyStr.split_from cur post).
Proof.
  intros Hcur [->|(c & p & -> & Hc)]; cbn [PyStr.split_from].
  - destruct cur; [contradiction | now left].
  - rewrite Hc. destruct cur; [contradiction | now left].
Qed.

Lemma split_from_after_blank (p rest cur t : string) (c : ascii) :
  PyStr.isspace c = true ->
  In t (PyStr.split_from EmptyString rest) ->
  In t (PyStr.split_from cur (p ++ String c rest)).
Proof.
  intros Hc Hin. revert cur. induction p as [|a p IH]; intros cur.
  - cbn [append PyStr.split_from]. rewrite Hc.
    destruct cur; [assumption | now right].
  - cbn [append PyStr.split_from]. destruct (PyStr.isspace a).
    + destruct cur; [apply IH | right; apply IH].
    + apply IH.
Qed.

Lemma blank_free_append (a b : string) :
  blank_free (a ++ b) = blank_free a && blank_free b.
Proof.
  induction a as [|c a IH]; [reflexivity|].
  cbn [append blank_free]. now rewrite IH, andb_assoc.
Qed.

Lemma ends_blank_cons (c : ascii) (pre : string) :
  PyStr.isspace c = true -> ends_blank pre -> ends_blank (String c pre).
Proof.
  intros Hc [->|(p & c' & -> & Hc')]; right.
  - now exists EmptyString, c.
  - now exists (String c p), c'.
Qed.

Lemma ends_blank_after (cur pre : string) (c : ascii) :
  PyStr.isspace c = true -> ends_blank pre ->
  ends_blank (cur ++ String c pre).
Proof.
  intros Hc [->|(p & c' & -> & Hc')]; right.
  - now exists cur, c.
  - exists (cur ++ String c p)%string, c'. split; [|assumption].
    now rewrite append_assoc.
Qed.

(** The runs [split_from] gives, in the text made of the run being read and
    the text still to read. *)
Lemma split_from_token (s cur t : string) :
  blank_free cur = true ->
  In t (PyStr.split_from cur s) ->
  t <> EmptyString
  /\ blank_free t = true
  /\ exists pre post,
       (cur ++ s)%string = (pre ++ t ++ post)%string
       /\ ends_blank pre /\ starts_blank post.
Proof.
  revert cur. induction s as [|c s IH]; intros cur Hcur;
    cbn [PyStr.split_from].
  - destruct cur as [|a cur]; [contradiction|]. intros [<-|[]].
    split; [discriminate|]. split; [assumption|].
    exists EmptyString, EmptyString. rewrite !append_empty_r.
    split; [reflexivity|]. split; now left.
  - destruct (PyStr.isspace c) eqn:Hc.
    + assert (Hrest : In t (PyStr.split_from EmptyString s) ->
                      t <> EmptyString
                      /\ blank_free t = true
                      /\ exists pre post,
                           (cur ++ String c s)%string
                           = (pre ++ t ++ post)%string
                           /\ ends_blank pre /\ starts_blank post).
      { intros Hin.
        destruct (IH EmptyString eq_refl Hin)
          as (Hne & Hbf & pre & post & Heq & Hpre & Hpost).
        cbn [append] in Heq.
        split; [assumption|]. split; [assumption|].
        exists (cur ++ String c pre)%string, post.
        split; [rewrite Heq; now rewrite append_assoc|].
        split; [now apply ends_blank_after | assumption]. }
      destruct cur as [|a cur]; [exact Hrest|].
      intros [<-|Hin]; [|now apply Hrest].
      split; [discriminate|]. split; [assumption|].
      exists EmptyString, (String c s). split; [reflexivity|].
      split; [now left | right; now exists c, s].
    + intros Hin.
      assert (Hcur' : blank_free (cur ++ String c EmptyString) = true).
      { rewrite blank_free_append, Hcur. cbn [blank_free]. now rewrite Hc. }
      destruct (IH _ Hcur' Hin) as (Hne & Hbf & pre & post & Heq & H).
      split; [assumption|]. split; [assumption|].
      exists pre, post. split; [|assumption].
      rewrite <- Heq. now rewrite append_assoc.
Qed.

(** [split] gives the whitespace-separated tokens. *)
Lemma split_tokens (s t : string) : In t (PyStr.split s) <-> token_of s t.
Proof.
  unfold PyStr.split, token_of. split.
  - intros Hin. exact (split_from_token s EmptyString t eq_refl Hin).
  - intros (Hne & Hbf & pre & post & -> & Hpre & Hpost).
    assert (Hhere : forall cur,
              In t (PyStr.split_from cur (t ++ post)) \/ cur <> EmptyString).
    { intros [|a cur]; [left | right; discriminate].
      rewrite (split_from_run t EmptyString post Hbf). cbn [append].
      now apply split_from_end_of_run. }
    destruct Hpre as [->|(p & c & -> & Hc)].
    + cbn [append]. destruct (Hhere EmptyString) as [H|H];
        [exact H | contradiction].
    + rewrite append_assoc. cbn [append].
      apply split_from_after_blank; [assumption|].
      destruct (Hhere EmptyString) as [H|H]; [exact H | contradiction].
Qed.

Lemma condition_matches_keyword (user_input : string) (ns : NextStage.t) :
  condition_matches (PyStr.lower user_input) ns = true
  <-> keyword_matches user_input ns.
Proof.
  rewrite condition_matches_spec. unfold keyword_matches.
  split; intros (keyword & Hk & Hc); exists keyword;
    (split; [now apply split_tokens | now apply contains_occurs_in]).
Qed.

Lemma condition_matches_not_keyword (user_input : string) (ns : NextStage.t) :
  condition_matches (PyStr.lower user_input) ns = false
  <-> ~ keyword_matches user_input ns.
Proof.
  rewrite <- condition_matches_keyword.
  destruct (condition_matches _ ns); split; intros H;
    try reflexivity; try discriminate; try (intros H'; discriminate).
  exfalso. now apply H.
Qed.

(** C4.  On ASCII strings, where [str.lower()] and [str.split()] are the
    byte-wise functions of the model: [_find_next_stage] returns none for a
    stage without "next_stages".  Otherwise it goes through the entries in
    the order of the stable sort by decreasing declared priority (a
    permutation of the declared entries, declared priorities never
    increasing, entries of equal priority in declaration order, a missing
    priority counting as 50) and returns the target of the first entry one
    of whose condition keywords (the whitespace-separated tokens of the
    lowercased condition) is a substring of the lowercased input.  So it
    returns a target exactly when that is the target of the matching entry
    that beats every other matching entry, by a higher declared priority or,
    at equal priority, by an earlier declaration; it returns none exactly
    when no entry matches. *)
Theorem C4_find_next_stage_by_priority
    (self : Agent.t) (user_input current_stage_id : string)
    (context : PyDict.t json) (current_stage : Stage.t) :
  PyDict.get current_stage_id (Agent.stages self) = Some current_stage ->
  is_ascii user_input = true ->
  (forall next_stages ns,
     Stage.next_stages current_stage = Some next_stages ->
     In ns next_stages -> is_ascii (NextStage.condition ns) = true) ->
  let user_lower := PyStr.lower user_input in
  let result := _find_next_stage self user_input current_stage_id context in
  (Stage.next_stages current_stage = None -> result = Ok None)
  /\ (forall next_stages,
        Stage.next_stages current_stage = Some next_stages ->
        let sorted_next_stages := sorted_desc priority_of next_stages in
        Permutation sorted_next_stages next_stages
        /\ StronglySorted (key_ge declared_priority) sorted_next_stages
        /\ (forall p,
              filter (fun ns => (declared_priority ns =? p)%Z)
                sorted_next_stages
              = filter (fun ns => (declared_priority ns =? p)%Z) next_stages)
        /\ result = Ok (first_match user_lower sorted_next_stages)
        /\ (forall ns,
              condition_matches user_lower ns = true
              <-> keyword_matches user_input ns)
        /\ (forall target,
              result = Ok (Some target)
              <-> exists i ns,
                    nth_error next_stages i = Some ns
                    /\ keyword_matches user_input ns
                    /\ target = NextStage.stage_id ns
                    /\ forall j y,
                         nth_error next_stages j = Some y ->
                         keyword_matches user_input y ->
                         (declared_priority y < declared_priority ns)%Z
                         \/ (declared_priority y = declared_priority ns
                             /\ i <= j))
        /\ (result = Ok None
            <-> forall ns,
                  In ns next_stages -> ~ keyword_matches user_input ns)).
Proof.
  intros Hget _ _ user_lower result. subst result user_lower.
  unfold _find_next_stage, getitem. rewrite Hget. split.
  - intros ->. reflexivity.
  - intros next_stages ->. cbv zeta.
    split; [apply sorted_desc_perm|].
    split; [exact (sorted_desc_sorted priority_of next_stages)|].
    split; [intros p; exact (sorted_desc_stable priority_of p next_stages)|].
    split; [reflexivity|].
    split; [intros ns; apply condition_matches_keyword|].
    rewrite first_match_find. split.
    + intros target. split.
      * intros [= H].
        destruct (find _ _) as [ns|] eqn:E; [|discriminate].
        injection H as <-.
        destruct (find_sorted_desc_wins _ _ _ _ E) as [i (Hi & Hm & Hbeat)].
        exists i, ns. split; [assumption|].
        split; [now apply condition_matches_keyword|].
        split; [reflexivity|].
        intros j y Hj Hy. apply (Hbeat j y Hj).
        now apply condition_matches_keyword.
      * intros (i & ns & Hi & Hm & -> & Hbeat).
        assert (Hw : wins priority_of
                       (condition_matches (PyStr.lower user_input))
                       next_stages i ns).
        { split; [assumption|].
          split; [now apply condition_matches_keyword|].
          intros j y Hj Hy. apply (Hbeat j y Hj).
          now apply condition_matches_keyword. }
        now rewrite (wins_find_sorted_desc _ _ _ _ _ Hw).
    + split.
      * intros [= H].
        destruct (find _ _) as [ns|] eqn:E; [discriminate|].
        intros ns Hin. apply condition_matches_not_keyword.
        exact (proj1 (find_sorted_desc_none _ _ _) E ns Hin).
      * intros H.
        rewrite (proj2 (find_sorted_desc_none _ _ _)); [reflexivity|].
        intros ns Hin. apply condition_matches_not_keyword. now apply H.
Qed.

Lemma C4_find_next_stage_by_priority_witness :
  _find_next_stage Sample.agent "I need to pay my BILL" "greeting" []
  = Ok (Some "billing").
Proof.
  assert (Hascii : forall next_stages ns,
            Stage.next_stages Sample.greeting = Some next_stages ->
            In ns next_stages -> is_ascii (NextStage.condition ns) = true).
  { intros l ns [= <-] Hin.
    repeat (destruct Hin as [<-|Hin]; [reflexivity|]). contradiction. }
  destruct (C4_find_next_stage_by_priority Sample.agent
              "I need to pay my BILL" "greeting" [] Sample.greeting eq_refl
              eq_refl Hascii)
    as [_ H].
  destruct (H _ eq_refl) as (_ & _ & _ & _ & Hmatch & Hsome & _).
  apply Hsome.
  exists 0, {| NextStage.stage_id := "billing";
               NextStage.condition := "bill payment";
               NextStage.priority := Some 100%Z |}.
  split; [reflexivity|]. split; [now apply Hmatch|]. split; [reflexivity|].
  intros [|[|j]] y Hj _; try discriminate.
  injection Hj as <-. right. split; [reflexivity | lia].
Defined.

(** Two matching entries of equal priority: the one declared first wins,
    and a higher priority beats an earlier declaration. *)
Example find_next_stage_tie_and_priority :
  let tie := Sample.agent_of "s"
      [("s", Sample.plain "s"
               (Some [Sample.edge "first" "pay"; Sample.edge "second" "pay"]))] in
  let high := Sample.agent_of "s"
      [("s", Sample.plain "s"
               (Some [Sample.edge "low" "pay";
                      {| NextStage.stage_id := "high";
                         NextStage.condition := "PAY now";
                         NextStage.priority := Some 51%Z |}]))] in
  _find_next_stage tie "I will pay" "s" [] = Ok (Some "first")
  /\ _find_next_stage high "I will pay" "s" [] = Ok (Some "high")
  /\ _find_next_stage high "nothing" "s" [] = Ok None.
Proof. repeat split. Qed.

(* ----------------------------------------------------------------- *)
(** ** Completing the current stage *)

Lemma enter_stage_events (self : Agent.t) (stage_id now : string) (w : World) :
  exists es,
    trace (snd (_enter_stage self stage_id now w)) = (trace w ++ es)%list
    /\ no_invalid_transition_warning es.
Proof.
  exec.
  destruct (PyDict.mem stage_id (Agent.stages self)); simpl;
    [|eexists; split; reflexivity].
  unfold getitem.
  destruct (PyDict.get stage_id (Agent.stages self)) as [stage|]; simpl;
    [|exists []; split; [now rewrite app_nil_r | reflexivity]].
  destruct (Stage.context_updates stage); simpl;
    destruct (Stage.greeting stage); simpl;
    try (exists []; split; [now rewrite app_nil_r | reflexivity]);
    destruct (Stage.description stage); simpl;
    try (exists []; split; [now rewrite app_nil_r | reflexivity]);
    eexists; split; reflexivity.
Qed.

Lemma find_next_stage_target_declared (self : Agent.t)
    (user_input current_stage_id : string) (context : PyDict.t json)
    (current_stage : Stage.t) (target : string) :
  PyDict.get current_stage_id (Agent.stages self) = Some current_stage ->
  _find_next_stage self user_input current_stage_id context = Ok (Some target) ->
  In target (valid_transitions_of current_stage).
Proof.
  intros Hget. unfold _find_next_stage, getitem, valid_transitions_of.
  rewrite Hget. destruct (Stage.next_stages current_stage) as [l|];
    [|discriminate].
  rewrite first_match_find. intros [= H].
  destruct (find _ _) as [ns|] eqn:E; [|discriminate].
  injection H as <-. apply find_some in E as [Hin _].
  apply (proj1 (sorted_desc_In _ _ _)) in Hin. now apply in_map.
Qed.

(** X21.  The target the resolver returns is one the current stage declares,
    so [complete_current_stage] never logs the invalid-transition warning;
    with no target the world is unchanged, with "END" the closing message is
    spoken, and any other non-empty target that is a key of the graph is
    entered. *)
Theorem complete_current_stage_never_rejects_transition
    (self : Agent.t) (reason now : string) (w : World) (current_stage : Stage.t) :
  UserData.stages (userdata w) = Agent.stages self ->
  PyDict.get (UserData.current_stage_id (userdata w)) (Agent.stages self)
  = Some current_stage ->
  (exists es,
     trace (snd (complete_current_stage self reason now w))
     = (trace w ++ es)%list
     /\ no_invalid_transition_warning es)
  /\ exists next_stage,
       _find_next_stage self reason (UserData.current_stage_id (userdata w))
         (UserData.context (userdata w)) = Ok next_stage
       /\ match next_stage with
          | None => complete_current_stage self reason now w = (Ok tt, w)
          | Some target =>
              In target (valid_transitions_of current_stage)
              /\ (target = "END" ->
                  complete_current_stage self reason now w
                  = (Ok tt, with_event w (Say closing_message)))
              /\ (target <> "" -> target <> "END" ->
                  PyDict.mem target (Agent.stages self) = true ->
                  complete_current_stage self reason now w
                  = _enter_stage self target now w)
          end.
Proof.
  intros Hst Hcur.
  assert (Hok : exists o,
            _find_next_stage self reason
              (UserData.current_stage_id (userdata w))
              (UserData.context (userdata w)) = Ok o).
  { unfold _find_next_stage, getitem. rewrite Hcur.
    destruct (Stage.next_stages current_stage); eauto. }
  destruct Hok as [o Ho].
  assert (Hrun : complete_current_stage self reason now w =
            match o with
            | Some target =>
                if truthy target then move_to_next_stage self target now w
                else (Ok tt, w)
            | None => (Ok tt, w)
            end).
  { unfold complete_current_stage, bind, get_userdata, lift. rewrite Ho.
    destruct o as [target|]; [|reflexivity].
    destruct (truthy target); reflexivity. }
  destruct o as [target|].
  - pose proof (find_next_stage_target_declared _ _ _ _ _ _ Hcur Ho) as Hin.
    assert (Hmove :
      move_to_next_stage self target now w =
      if String.eqb target "END" then (Ok tt, with_event w (Say closing_message))
      else if negb (PyDict.mem target (Agent.stages self))
      then (Ok tt, with_event w (ErrTargetStageNotFound target))
      else _enter_stage self target now w).
    { unfold move_to_next_stage, bind, get_userdata, lift, getitem.
      rewrite Hst, Hcur. destruct (String.eqb target "END"); [reflexivity|].
      destruct (PyDict.mem target (Agent.stages self)); [|reflexivity].
      simpl. rewrite (proj2 (str_in_In _ _) Hin). reflexivity. }
    split.
    + rewrite Hrun. destruct (truthy target).
      * rewrite Hmove. destruct (String.eqb target "END").
        -- eexists; split; reflexivity.
        -- destruct (negb _); [eexists; split; reflexivity|].
           apply enter_stage_events.
      * exists []. split; [simpl; now rewrite app_nil_r | reflexivity].
    + exists (Some target). split; [assumption|].
      split; [assumption|]. split.
      * intros ->. rewrite Hrun. reflexivity.
      * intros Hne Hend Hmem. rewrite Hrun.
        unfold truthy. apply String.eqb_neq in Hne, Hend.
        rewrite Hne. simpl. rewrite Hmove, Hend, Hmem. reflexivity.
  - split.
    + rewrite Hrun. exists []. split; [simpl; now rewrite app_nil_r | reflexivity].
    + exists None. split; [assumption | assumption].
Qed.

Lemma complete_current_stage_never_rejects_transition_sample :
  complete_current_stage Sample.agent "a bill payment is due" "t1"
    Sample.started
  = _enter_stage Sample.agent "billing" "t1" Sample.started.
Proof.
  destruct (complete_current_stage_never_rejects_transition Sample.agent
              "a bill payment is due" "t1" Sample.started Sample.greeting
              eq_refl eq_refl) as [_ (o & Ho & H)].
  vm_compute in Ho. injection Ho as <-.
  destruct H as (_ & _ & H). apply H; [discriminate | discriminate | reflexivity].
Defined.

(** C10 (the code departs from the claim).  In the sample graph the stage
    "menu" declares one transition, to the stage whose id is the empty
    string, and the graph has that stage.  For a reason that matches the
    transition the resolver returns the target "", but
    [complete_current_stage] tests it with [if next_stage:], which is false
    for the empty string: no transition is requested, the stage is not
    entered and the world is the one before the call. *)
Theorem C10_empty_target_is_not_entered :
  PyDict.mem "" (Agent.stages Sample.blank_agent) = true
  /\ session_ok Sample.blank_agent Sample.blank_started
  /\ UserData.current_stage_id (userdata Sample.blank_started) = "menu"
  /\ _find_next_stage Sample.blank_agent "something other" "menu"
       (UserData.context (userdata Sample.blank_started)) = Ok (Some "")
  /\ complete_current_stage Sample.blank_agent "something other" "t1"
       Sample.blank_started = (Ok tt, Sample.blank_started)
  /\ snd (move_to_next_stage Sample.blank_agent "" "t1" Sample.blank_started)
     <> Sample.blank_started.
Proof.
  repeat split. discriminate.
Qed.

(* ----------------------------------------------------------------- *)
(** ** Variable substitution *)

#[local] Arguments Ascii.eqb : simpl never.

Lemma brace_free_no_open (s : string) :
  PyStr.brace_free s = true -> no_open s = true.
Proof.
  induction s as [|c s IH]; simpl; [reflexivity|].
  intros H. apply andb_true_iff in H as [H1 H2].
  apply andb_true_iff in H1 as [H1 _]. rewrite H1. now apply IH.
Qed.

Lemma no_open_append (a b : string) :
  no_open (a ++ b) = no_open a && no_open b.
Proof.
  induction a as [|c a IH]; simpl; [reflexivity|].
  now rewrite IH, andb_assoc.
Qed.

(** Dropping the rest of a matched occurrence. *)
Lemma replace_scan_skip (old new u rest : string) :
  PyStr.replace_scan old new (String.length u) (u ++ rest)
  = PyStr.replace_scan old new 0 rest.
Proof. induction u as [|c u IH]; simpl; [reflexivity | exact IH]. Qed.

Lemma replace_scan_match (old' new rest : string) (c : ascii) :
  PyStr.replace_scan (String c old') new 0 (String c old' ++ rest)
  = (new ++ PyStr.replace_scan (String c old') new 0 rest)%string.
Proof.
  change (String c old' ++ rest)%string with (String c (old' ++ rest)).
  cbn [PyStr.replace_scan].
  change (String c (old' ++ rest)) with (String c old' ++ rest)%string.
  rewrite starts_with_append. f_equal.
  replace (String.length (String c old') - 1) with (String.length old')
    by (simpl; lia).
  apply replace_scan_skip.
Qed.

(** Text without an opening brace holds no occurrence of a marker. *)
Lemma replace_scan_no_open (old' new u rest : string) :
  no_open u = true ->
  PyStr.replace_scan (String "{" old') new 0 (u ++ rest)
  = (u ++ PyStr.replace_scan (String "{" old') new 0 rest)%string.
Proof.
  induction u as [|c u IH]; intros H; [reflexivity|].
  simpl in H. apply andb_true_iff in H as [Hc Hu].
  change (String c u ++ rest)%string with (String c (u ++ rest)).
  cbn [PyStr.replace_scan PyStr.starts_with].
  apply negb_true_iff in Hc. rewrite Ascii.eqb_sym in Hc. rewrite Hc.
  simpl. now rewrite IH.
Qed.

(** The marker of one brace-free key is no prefix of the marker of
    another. *)
Lemma starts_with_key (a k rest : string) :
  PyStr.brace_free a = true -> PyStr.brace_free k = true ->
  PyStr.starts_with (a ++ "}}") (k ++ "}}" ++ rest) = true -> a = k.
Proof.
  revert k. induction a as [|c a IH]; intros [|d k] Ha Hk H.
  - reflexivity.
  - simpl in H, Hk. apply andb_true_iff in H as [H _].
    apply Ascii.eqb_eq in H. subst d. discriminate.
  - simpl in H, Ha. apply andb_true_iff in H as [H _].
    apply Ascii.eqb_eq in H. subst c. discriminate.
  - simpl in H, Ha, Hk.
    apply andb_true_iff in H as [H1 H2]. apply Ascii.eqb_eq in H1. subst d.
    apply andb_true_iff in Ha as [_ Ha]. apply andb_true_iff in Hk as [_ Hk].
    f_equal. now apply IH.
Qed.

Lemma starts_with_marker (a k rest : string) :
  PyStr.brace_free a = true -> PyStr.brace_free k = true ->
  PyStr.starts_with (marker a) (marker k ++ rest) = true -> a = k.
Proof.
  intros Ha Hk H. unfold marker in H. simpl in H.
  rewrite append_assoc in H. now apply (starts_with_key a k rest).
Qed.

(** [replace] steps over the marker of another key. *)
Lemma replace_other_marker (a k new rest : string) :
  PyStr.brace_free a = true -> PyStr.brace_free k = true -> a <> k ->
  PyStr.replace (marker a) new (marker k ++ rest)
  = (marker k ++ PyStr.replace (marker a) new rest)%string.
Proof.
  intros Ha Hk Hne.
  destruct (PyStr.starts_with (marker a) (marker k ++ rest)) eqn:E.
  { apply starts_with_marker in E; [contradiction | assumption | assumption]. }
  unfold marker in *. simpl in *. rewrite E.
  assert (E2 : match ((k ++ "}}") ++ rest)%string with
               | EmptyString => false
               | String b s' =>
                   Ascii.eqb "{" b && PyStr.starts_with (a ++ "}}") s'
               end = false).
  { destruct k as [|d k]; [reflexivity|].
    simpl in Hk |- *. apply andb_true_iff in Hk as [Hd _].
    apply andb_true_iff in Hd as [Hd _]. apply negb_true_iff in Hd.
    rewrite Ascii.eqb_sym in Hd. now rewrite Hd. }
  rewrite E2. f_equal. f_equal.
  apply replace_scan_no_open.
  rewrite no_open_append, (brace_free_no_open _ Hk). reflexivity.
Qed.

Lemma replace_same_marker (a new rest : string) :
  PyStr.replace (marker a) new (marker a ++ rest)
  = (new ++ PyStr.replace (marker a) new rest)%string.
Proof.
  exact (replace_scan_match (String "{" (a ++ "}}")) new rest "{"%char).
Qed.

Lemma replace_plain_text (a new text rest : string) :
  PyStr.brace_free text = true ->
  PyStr.replace (marker a) new (text ++ rest)
  = (text ++ PyStr.replace (marker a) new rest)%string.
Proof.
  intros H.
  apply (replace_scan_no_open (String "{" (a ++ "}}")) new text rest).
  now apply brace_free_no_open.
Qed.

Lemma fill_lit (a new text : string) (t : list piece) :
  fill a new (Lit text :: t) = Lit text :: fill a new t.
Proof. reflexivity. Qed.

Lemma fill_var (a new k : string) (t : list piece) :
  fill a new (Var k :: t)
  = (if String.eqb k a then Lit new else Var k) :: fill a new t.
Proof. reflexivity. Qed.

(** One [replace] on the text of a plain template fills the markers of its
    key and nothing else. *)
Lemma replace_render (a new : string) (template : list piece) :
  PyStr.brace_free a = true ->
  plain_template template = true ->
  PyStr.replace (marker a) new (render template)
  = render (fill a new template).
Proof.
  intros Ha. induction template as [|[text|k] t IH]; intros Ht.
  - reflexivity.
  - cbn [plain_template forallb plain_piece] in Ht.
    apply andb_true_iff in Ht as [H1 H2].
    rewrite fill_lit. cbn [render].
    rewrite replace_plain_text by assumption. now rewrite IH.
  - cbn [plain_template forallb plain_piece] in Ht.
    apply andb_true_iff in Ht as [H1 H2].
    rewrite fill_var. cbn [render]. destruct (String.eqb k a) eqn:E.
    + apply String.eqb_eq in E. subst k.
      rewrite replace_same_marker. cbn [render]. now rewrite IH.
    + apply String.eqb_neq in E.
      rewrite replace_other_marker by (try assumption; congruence).
      cbn [render]. now rewrite IH.
Qed.

Lemma fill_plain (a new : string) (template : list piece) :
  PyStr.brace_free new = true ->
  plain_template template = true ->
  plain_template (fill a new template) = true.
Proof.
  intros Hn. induction template as [|[text|k] t IH]; simpl; intros Ht.
  - reflexivity.
  - apply andb_true_iff in Ht as [H1 H2]. rewrite H1. now apply IH.
  - apply andb_true_iff in Ht as [H1 H2].
    destruct (String.eqb k a); simpl; [rewrite Hn | rewrite H1]; now apply IH.
Qed.

Lemma instantiate_fill (a : string) (v : json) (template : list piece)
    (rest : PyDict.t json) :
  instantiate (fill a (PyRepr.str v) template) rest
  = instantiate template ((a, v) :: rest).
Proof.
  induction template as [|[text|k] t IH]; simpl.
  - reflexivity.
  - now rewrite IH.
  - destruct (String.eqb k a); simpl; now rewrite IH.
Qed.

Lemma instantiate_empty (template : list piece) :
  instantiate template [] = render template.
Proof.
  induction template as [|[text|k] t IH]; simpl; [reflexivity | |];
    now rewrite IH.
Qed.

Lemma substitute_plain (template : list piece) (context : PyDict.t json) :
  plain_template template = true ->
  plain_context context = true ->
  _substitute_variables (render template) context
  = instantiate template context.
Proof.
  revert template. induction context as [|[a v] rest IH]; intros t Ht Hc.
  - simpl. now rewrite instantiate_empty.
  - simpl in Hc. apply andb_true_iff in Hc as [Hav Hrest].
    apply andb_true_iff in Hav as [Ha Hv].
    cbn [_substitute_variables]. rewrite replace_render by assumption.
    rewrite IH; [apply instantiate_fill | now apply fill_plain | assumption].
Qed.

(** A pattern without opening brace matches a text as it matches the text
    followed by an opening brace. *)
Lemma starts_with_before_open (p u r : string) :
  no_open p = true ->
  PyStr.starts_with p (u ++ String "{" r) = PyStr.starts_with p u.
Proof.
  revert u. induction p as [|c p IH]; intros u Hp; [now destruct u|].
  cbn [no_open] in Hp. apply andb_true_iff in Hp as [Hc Hp].
  destruct u as [|d u].
  - cbn [append PyStr.starts_with]. apply negb_true_iff in Hc. now rewrite Hc.
  - cbn [append PyStr.starts_with]. now rewrite IH.
Qed.

(** No occurrence of a marker begins before another marker and ends in it. *)
Lemma starts_with_no_straddle (a u r : string) (c : ascii) :
  PyStr.brace_free a = true ->
  PyStr.starts_with (marker a) (String c u ++ String "{" (String "{" r))
  = PyStr.starts_with (marker a) (String c u).
Proof.
  intros Ha.
  assert (Hp : no_open (a ++ "}}") = true).
  { rewrite no_open_append, (brace_free_no_open _ Ha). reflexivity. }
  change (marker a) with (String "{" (String "{" (a ++ "}}"))).
  destruct u as [|d u]; cbn [append PyStr.starts_with].
  - pose proof (starts_with_before_open (a ++ "}}") "" r Hp) as H0.
    cbn [append] in H0. rewrite H0.
    assert (H1 : PyStr.starts_with (a ++ "}}") "" = false)
      by (destruct a; reflexivity).
    rewrite H1. now rewrite !andb_false_r.
  - now rewrite (starts_with_before_open (a ++ "}}") u (String "{" r) Hp).
Qed.

Lemma starts_with_length (p s : string) :
  PyStr.starts_with p s = true -> String.length p <= String.length s.
Proof.
  revert s. induction p as [|c p IH]; intros [|d s] H; simpl in *;
    try lia; try discriminate.
  apply andb_true_iff in H as [_ H]. specialize (IH s H). lia.
Qed.

(** The scan of a text that a marker follows is the scan of the text, then
    the scan of what follows. *)
Lemma replace_scan_before_marker (a new r pre : string) (skip : nat) :
  PyStr.brace_free a = true ->
  skip <= String.length pre ->
  PyStr.replace_scan (marker a) new skip (pre ++ String "{" (String "{" r))
  = (PyStr.replace_scan (marker a) new skip pre
     ++ PyStr.replace_scan (marker a) new 0 (String "{" (String "{" r)))%string.
Proof.
  intros Ha. revert skip. induction pre as [|c pre IH]; intros skip Hskip.
  - simpl in Hskip. assert (skip = 0) by lia. subst skip. reflexivity.
  - destruct skip as [|k].
    + change (String c pre ++ String "{" (String "{" r))%string
        with (String c (pre ++ String "{" (String "{" r))).
      cbn [PyStr.replace_scan].
      change (String c (pre ++ String "{" (String "{" r)))
        with (String c pre ++ String "{" (String "{" r))%string.
      rewrite starts_with_no_straddle by assumption.
      destruct (PyStr.starts_with (marker a) (String c pre)) eqn:E.
      * apply starts_with_length in E.
        change (String.length (String c pre)) with (S (String.length pre)) in E.
        rewrite IH by lia. now rewrite append_assoc.
      * rewrite IH by lia. reflexivity.
    + simpl in Hskip. cbn [append PyStr.replace_scan]. apply IH. lia.
Qed.

(** [replace] for one key leaves the marker of another key where it is,
    whatever stands around it. *)
Lemma replace_around_marker (a k new pre post : string) :
  PyStr.brace_free a = true -> PyStr.brace_free k = true -> a <> k ->
  PyStr.replace (marker a) new (pre ++ marker k ++ post)
  = (PyStr.replace (marker a) new pre ++ marker k
     ++ PyStr.replace (marker a) new post)%string.
Proof.
  intros Ha Hk Hne.
  rewrite <- (replace_other_marker a k new post Ha Hk Hne).
  exact (replace_scan_before_marker a new ((k ++ "}}") ++ post) pre 0 Ha
           (Nat.le_0_l _)).
Qed.

Lemma substitute_keeps_absent_marker (context : PyDict.t json)
    (key pre post : string) :
  PyStr.brace_free key = true ->
  plain_keys context = true ->
  PyDict.mem key context = false ->
  _substitute_variables (pre ++ marker key ++ post) context
  = (_substitute_variables pre context ++ marker key
     ++ _substitute_variables post context)%string.
Proof.
  intros Hk. revert pre post.
  induction context as [|[a v] rest IH]; intros pre post Hkeys Hmem.
  - reflexivity.
  - cbn [plain_keys forallb fst] in Hkeys.
    apply andb_true_iff in Hkeys as [Ha Hrest].
    unfold PyDict.mem in Hmem. cbn [PyDict.get] in Hmem.
    destruct (String.eqb key a) eqn:E; [discriminate|].
    apply String.eqb_neq in E.
    cbn [_substitute_variables].
    rewrite replace_around_marker by (try assumption; congruence).
    apply IH; assumption.
Qed.

(** C5 (as amended).  [_substitute_variables] is a function of its two
    arguments (it reads no state and changes none) that takes the items of
    the context one at a time, in their order, and replaces the occurrences
    of the item's marker in the text the items before it left.  On a
    template whose literal text and keys have no brace character, with a
    context whose keys and value texts have none, the result is the
    substitution of the specification: every marker of a context key
    replaced by [str] of the key's value, every other marker left as it is.
    Whatever the values and the surrounding text, the marker of a brace-free
    key that the context lacks is left in place when the keys of the context
    are brace-free.  The two examples hold. *)
Theorem C5_substitute_variables_fills_markers :
  (forall (template : list piece) (context : PyDict.t json),
     plain_template template = true ->
     plain_context context = true ->
     _substitute_variables (render template) context
     = instantiate template context)
  /\ (forall (context : PyDict.t json) (key pre post : string),
        PyStr.brace_free key = true ->
        plain_keys context = true ->
        PyDict.mem key context = false ->
        _substitute_variables (pre ++ marker key ++ post) context
        = (_substitute_variables pre context ++ marker key
           ++ _substitute_variables post context)%string)
  /\ _substitute_variables "Hello {{name}}" [("name", JStr "Ana")]
     = "Hello Ana"
  /\ _substitute_variables "Hello {{name}}" [] = "Hello {{name}}".
Proof.
  split; [exact substitute_plain|].
  split; [exact substitute_keeps_absent_marker|].
  split; reflexivity.
Qed.

Lemma C5_substitute_variables_fills_markers_witness :
  _substitute_variables "Dear {{title}} {{name}}, your {{item}} is {{n}} days late"
    [("name", JStr "Ana"); ("n", JInt 3); ("title", JStr "Dr")]
  = "Dear Dr Ana, your {{item}} is 3 days late"
  /\ _substitute_variables "{{a}} and {{missing}} and {{a}}"
       [("a", JStr "{{b}}"); ("b", JStr "{x}")]
     = (_substitute_variables "{{a}} and " [("a", JStr "{{b}}"); ("b", JStr "{x}")]
        ++ "{{missing}}"
        ++ _substitute_variables " and {{a}}"
             [("a", JStr "{{b}}"); ("b", JStr "{x}")])%string.
Proof.
  destruct C5_substitute_variables_fills_markers as (Hplain & Habsent & _).
  split.
  - exact (Hplain
             [Lit "Dear "; Var "title"; Lit " "; Var "name"; Lit ", your ";
              Var "item"; Lit " is "; Var "n"; Lit " days late"]
             [("name", JStr "Ana"); ("n", JInt 3); ("title", JStr "Dr")]
             eq_refl eq_refl).
  - exact (Habsent [("a", JStr "{{b}}"); ("b", JStr "{x}")] "missing"
             "{{a}} and " " and {{a}}" eq_refl eq_refl eq_refl).
Defined.

(** C5 as stated fails: a value that holds the marker of a later key is
    substituted again.  The marker of [a] is not replaced by the text of the
    value of [a], which is the marker of [b], but by the value of [b]; with
    the two items in the other order the result is different. *)
Lemma C5_value_with_marker_is_substituted_again :
  let context := [("a", JStr "{{b}}"); ("b", JStr "X")] in
  render [Var "a"] = "{{a}}"
  /\ instantiate [Var "a"] context = "{{b}}"
  /\ _substitute_variables "{{a}}" context = "X"
  /\ _substitute_variables (render [Var "a"]) context
     <> instantiate [Var "a"] context
  /\ _substitute_variables "{{a}}" [("b", JStr "X"); ("a", JStr "{{b}}")]
     = "{{b}}".
Proof.
  repeat split. discriminate.
Qed.

(* ----------------------------------------------------------------- *)
(** ** The configuration validator *)

Import SchemaValidator.

Lemma mem_get {A} (k : string) (d : PyDict.t A) :
  PyDict.mem k d = match PyDict.get k d with Some _ => true | None => false end.
Proof. reflexivity. Qed.

Lemma for_each_ok {A} (l : list A) (body : A -> result unit) :
  for_each l body = Ok tt <-> forall x, In x l -> body x = Ok tt.
Proof.
  induction l as [|x l IH]; simpl.
  - split; [intros _ y [] | reflexivity].
  - unfold and_then. destruct (body x) as [[]|e] eqn:E.
    + rewrite IH. split.
      * intros H y [<-|Hy]; [assumption | now apply H].
      * intros H y Hy. apply H. now right.
    + split; [discriminate|]. intros H.
      specialize (H x (or_introl eq_refl)). congruence.
Qed.

Lemma for_each_raise {A} (l : list A) (body : A -> result unit) (e : exn) :
  for_each l body = Raise e -> exists x, In x l /\ body x = Raise e.
Proof.
  induction l as [|x l IH]; simpl; [discriminate|].
  unfold and_then. destruct (body x) as [[]|e'] eqn:E.
  - intros H. destruct (IH H) as (y & Hy & Hb). exists y. split; [now right | assumption].
  - intros [= <-]. exists x. split; [now left | assumption].
Qed.

Lemma validate_next_stage_outcome (stage_id : string)
    (all_stages : PyDict.t json) (next_stage : json) :
  outcome (_validate_next_stage stage_id all_stages next_stage)
    (complete_next_stage all_stages next_stage)
    (typed_next_stage next_stage)
    (entry_violation all_stages stage_id next_stage).
Proof.
  unfold outcome, complete_next_stage, typed_next_stage.
  destruct next_stage as [| | | | |l|d];
    try (simpl; split; [intros [H _]; discriminate | reflexivity]).
  unfold _validate_next_stage, py_in, py_getitem, getitem, and_then.
  cbn [has_field field is_dict andb]. rewrite !mem_get.
  destruct (PyDict.get "stage_id" d) as [target|] eqn:Eid; cbn [negb].
  2:{ split.
      - intros [_ (t & Ht & _)]. discriminate.
      - exists (NextStageMissingField stage_id "stage_id").
        split; [reflexivity|]. constructor. simpl. now rewrite mem_get, Eid. }
  destruct (PyDict.get "condition" d) as [c|] eqn:Ec; cbn [negb].
  2:{ split.
      - intros [H _]. discriminate.
      - exists (NextStageMissingField stage_id "condition").
        split; [reflexivity|]. constructor. simpl. now rewrite mem_get, Ec. }
  destruct target as [| | | |t| |]; cbn [py_stage_ref if_present is_str];
    try (split; [intros [_ (t & Ht & _)]; discriminate | reflexivity]).
  destruct (String.eqb t "END") eqn:Eend; cbn [negb andb].
  { split; [reflexivity|]. exists t. split; [reflexivity|].
    apply String.eqb_eq in Eend. intros H. contradiction. }
  apply String.eqb_neq in Eend.
  destruct (PyDict.mem t all_stages) eqn:Em; cbn [negb].
  - split; [reflexivity|]. exists t. split; [reflexivity | now intros _].
  - split.
    + intros [_ (t' & [= <-] & H)]. specialize (H Eend). congruence.
    + exists (UnknownTarget stage_id t). split; [reflexivity|].
      now constructor.
Qed.

Lemma for_each_outcome {A} (l : list A) (body : A -> result unit)
    (complete : A -> Prop) (typed : A -> bool)
    (violated : A -> violation -> Prop) :
  (forall x, In x l -> outcome (body x) (complete x) (typed x) (violated x)) ->
  outcome (for_each l body)
    (forall x, In x l -> complete x)
    (forallb typed l)
    (fun v => exists x, In x l /\ violated x v).
Proof.
  intros H. unfold outcome. destruct (for_each l body) as [[]|e] eqn:E.
  - intros x Hx. pose proof (H x Hx) as Hb.
    rewrite (proj1 (for_each_ok l body) E x Hx) in Hb. exact Hb.
  - destruct (for_each_raise _ _ _ E) as (x & Hx & Hb).
    pose proof (H x Hx) as Ho. rewrite Hb in Ho. unfold outcome in Ho.
    destruct e as [k|m|]; [contradiction | |].
    + destruct Ho as [Hn (v & -> & Hv)]. split; [intros Hc; apply Hn; auto|].
      exists v. split; [reflexivity|]. now exists x.
    + destruct Ho as [Hn Ht]. split; [intros Hc; apply Hn; auto|].
      destruct (forallb typed l) eqn:Ef; [|reflexivity].
      rewrite forallb_forall in Ef. rewrite (Ef x Hx) in Ht. discriminate.
Qed.

Lemma require_keys_dict (d : PyDict.t json) (keys : list string)
    (msg : string -> string) :
  require_keys (JDict d) keys msg
  = match find (fun key => negb (PyDict.mem key d)) keys with
    | Some key => Raise (ValueError (msg key))
    | None => Ok tt
    end.
Proof.
  unfold require_keys. induction keys as [|k keys IH]; [reflexivity|].
  cbn [for_each find py_in and_then].
  destruct (PyDict.mem k d); cbn [negb]; [exact IH | reflexivity].
Qed.

Lemma has_fields_find (d : PyDict.t json) (keys : list string) :
  find (fun key => negb (PyDict.mem key d)) keys = None ->
  has_fields (JDict d) keys = true.
Proof.
  intros H. apply forallb_forall. intros k Hk.
  pose proof (find_none _ _ H k Hk) as Hm. simpl.
  now apply negb_false_iff in Hm.
Qed.

Lemma has_fields_missing (x : json) (keys : list string) (key : string) :
  In key keys -> has_field x key = false -> has_fields x keys = false.
Proof.
  intros Hin Hf. destruct (has_fields x keys) eqn:E; [|reflexivity].
  unfold has_fields in E. rewrite forallb_forall in E.
  rewrite (E key Hin) in Hf. discriminate.
Qed.

Lemma validate_stage_outcome (stage_id : string) (stage : json)
    (all_stages : PyDict.t json) :
  outcome (_validate_stage stage_id stage all_stages)
    (complete_stage all_stages stage)
    (typed_stage stage)
    (stage_violation all_stages stage_id stage).
Proof.
  unfold complete_stage, typed_stage.
  destruct stage as [| | | | |l|d];
    try (simpl; split; [intros [H _]; discriminate | reflexivity]).
  unfold _validate_stage. rewrite require_keys_dict.
  destruct (find _ _) as [missing|] eqn:Ef.
  { apply find_some in Ef as [Hin Hm]. apply negb_true_iff in Hm.
    cbn [and_then outcome]. split.
    - intros [H _].
      pose proof (has_fields_missing (JDict d) stage_fields _ Hin Hm).
      congruence.
    - exists (StageMissingField stage_id missing). split; [reflexivity|].
      now constructor. }
  pose proof (has_fields_find _ _ Ef) as Hfields.
  cbn [and_then py_in py_getitem is_dict andb field]. unfold getitem.
  rewrite mem_get.
  destruct (PyDict.get "next_stages" d) as [next_stages|] eqn:En;
    cbn [if_present and_then].
  2:{ simpl. split; [assumption | discriminate]. }
  destruct next_stages as [| | | | |entries|];
    try (simpl; split;
         [intros [_ H]; destruct (H _ eq_refl) as (? & ? & _); discriminate
         | reflexivity]).
  cbn [py_iter and_then].
  pose proof (for_each_outcome entries
                (_validate_next_stage stage_id all_stages)
                (complete_next_stage all_stages) typed_next_stage
                (entry_violation all_stages stage_id)
                (fun x _ => validate_next_stage_outcome stage_id all_stages x))
    as Hloop.
  unfold outcome in *.
  destruct (for_each entries _) as [[]|[k|m|]].
  - split; [assumption|]. intros nss [= <-]. exists entries. now split.
  - contradiction.
  - destruct Hloop as [Hn (v & -> & ns & Hns & Hv)]. split.
    + intros [_ H]. destruct (H _ eq_refl) as (l & [= <-] & Hl). now apply Hn.
    + exists v. split; [reflexivity|].
      now apply (sv_entry _ _ _ entries ns).
  - destruct Hloop as [Hn Ht]. split; [|assumption].
    intros [_ H]. destruct (H _ eq_refl) as (l & [= <-] & Hl). now apply Hn.
Qed.

Lemma field_has_field (x : json) (key : string) (v : json) :
  field x key = Some v -> has_field x key = true.
Proof.
  destruct x; simpl; try discriminate. rewrite mem_get. now intros ->.
Qed.

Lemma entry_violation_rank all_stages stage_id next_stage v :
  entry_violation all_stages stage_id next_stage v -> rank v = 8.
Proof. now destruct 1. Qed.

Lemma stage_violation_rank all_stages stage_id stage v :
  stage_violation all_stages stage_id stage v -> rank v = 8.
Proof.
  destruct 1 as [| ? ? ? ? ? He]; [reflexivity|].
  now apply entry_violation_rank in He.
Qed.

(** The order of the checks: a violation can only be reported once the
    checks before it have passed, so no violation of a lower rank is there. *)
Section Order.

Variables (config global_settings agent_config flow : json).
Hypothesis Hgs : field config "global_settings" = Some global_settings.
Hypothesis Hac : field config "agent_config" = Some agent_config.
Hypothesis Hfl : field config "flow" = Some flow.

Ltac same_field :=
  repeat match goal with
  | H : field ?x ?k = Some ?a, H' : field ?x ?k = Some ?b |- _ =>
      rewrite H in H'; injection H' as <-
  end.

Ltac by_rank :=
  cbn [rank] in *;
  try lia;
  try match goal with
      | H : stage_violation _ _ _ _ |- _ =>
          apply stage_violation_rank in H; cbn [rank] in *; lia
      end;
  try match goal with
      | s : settings |- _ => destruct s; cbn [rank] in *; lia
      end.

Lemma rank_after_top_level (v : violation) : occurs config v -> 1 <= rank v.
Proof.
  intros H. inversion H; subst; by_rank.
  exfalso.
  match goal with
  | Hin : In _ top_level_keys, Hm : has_field _ _ = false |- _ =>
      cbn [top_level_keys In] in Hin;
      destruct Hin as [<-|[<-|[<-|[]]]];
      [rewrite (field_has_field _ _ _ Hgs) in Hm
      |rewrite (field_has_field _ _ _ Hac) in Hm
      |rewrite (field_has_field _ _ _ Hfl) in Hm]; discriminate
  end.
Qed.

Hypothesis Hsections :
  forall s, has_field global_settings (settings_key s) = true.

Lemma rank_after_sections (v : violation) : occurs config v -> 2 <= rank v.
Proof.
  intros H. pose proof (rank_after_top_level v H) as H1.
  inversion H; subst; by_rank.
  exfalso. same_field.
  match goal with
  | Hm : has_field _ (settings_key _) = false |- _ =>
      rewrite Hsections in Hm; discriminate
  end.
Qed.

Lemma rank_after_settings (s0 : settings) (v : violation) :
  (forall s, rank (IncompleteSettings s) <= rank (IncompleteSettings s0) ->
             complete_settings global_settings s) ->
  occurs config v -> S (rank (IncompleteSettings s0)) <= rank v.
Proof.
  intros Hc H. pose proof (rank_after_sections v H) as H1.
  inversion H; subst;
    try (cbn [rank] in *; destruct s0; cbn [rank]; lia);
    try match goal with
        | Hs : stage_violation _ _ _ _ |- _ =>
            apply stage_violation_rank in Hs; destruct s0; cbn [rank]; lia
        end.
  same_field.
  destruct (Nat.le_gt_cases (rank (IncompleteSettings s))
              (rank (IncompleteSettings s0))) as [Hle|Hgt]; [|lia].
  exfalso. destruct (Hc s Hle) as (y & Hy & Hys).
  match goal with
  | Hx : field global_settings (settings_key s) = Some _ |- _ =>
      rewrite Hx in Hy; injection Hy as <-
  end.
  congruence.
Qed.

Hypothesis Hsettings : forall s, complete_settings global_settings s.

Lemma rank_after_global_settings (v : violation) :
  occurs config v -> 5 <= rank v.
Proof.
  intros H. apply (rank_after_settings TTS v); [|assumption].
  intros s _. apply Hsettings.
Qed.

Hypothesis Hagent : has_fields agent_config agent_fields = true.

Lemma rank_after_agent_config (v : violation) : occurs config v -> 6 <= rank v.
Proof.
  intros H. pose proof (rank_after_global_settings v H) as H1.
  inversion H; subst; by_rank.
  exfalso. same_field. unfold has_fields in Hagent.
  rewrite forallb_forall in Hagent.
  match goal with
  | Hin : In ?name agent_fields, Hm : has_field _ ?name = false |- _ =>
      rewrite (Hagent name Hin) in Hm; discriminate
  end.
Qed.

Hypothesis Hflow : has_fields flow flow_fields = true.

Lemma rank_after_flow_fields (v : violation) : occurs config v -> 7 <= rank v.
Proof.
  intros H. pose proof (rank_after_agent_config v H) as H1.
  inversion H; subst; by_rank.
  exfalso. same_field. unfold has_fields in Hflow.
  rewrite forallb_forall in Hflow.
  match goal with
  | Hin : In ?name flow_fields, Hm : has_field _ ?name = false |- _ =>
      rewrite (Hflow name Hin) in Hm; discriminate
  end.
Qed.

Variables (start_stage : string) (all_stages : PyDict.t json).
Hypothesis Hstart : field flow "start_stage" = Some (JStr start_stage).
Hypothesis Hstages : field flow "stages" = Some (JDict all_stages).
Hypothesis Hknown : PyDict.mem start_stage all_stages = true.

Lemma rank_after_start_stage (v : violation) : occurs config v -> 8 <= rank v.
Proof.
  intros H. pose proof (rank_after_flow_fields v H) as H1.
  inversion H; subst; by_rank.
  exfalso. same_field.
  repeat match goal with
  | E : field flow _ = Some _ |- _ =>
      first [rewrite Hstart in E | rewrite Hstages in E]; injection E as <-
  end.
  congruence.
Qed.

End Order.

Lemma all_in_dict (d : PyDict.t json) (keys : list string) :
  all_in (JDict d) keys = Ok (has_fields (JDict d) keys).
Proof.
  induction keys as [|k keys IH]; [reflexivity|].
  cbn [all_in py_in and_then has_fields forallb has_field].
  destruct (PyDict.mem k d); [exact IH | reflexivity].
Qed.

Lemma outcome_iff (r : result unit) (c1 c2 : Prop) (t1 t2 : bool)
    (violated : violation -> Prop) :
  (c1 <-> c2) -> t1 = t2 ->
  outcome r c1 t1 violated -> outcome r c2 t2 violated.
Proof.
  intros Hc <-. unfold outcome. destruct r as [[]|[k|m|]]; tauto.
Qed.

Lemma outcome_seq (r1 r2 : result unit) (c1 c2 : Prop) (t1 t2 : bool)
    (violated : violation -> Prop) :
  outcome r1 c1 t1 violated ->
  (c1 -> outcome r2 c2 t2 violated) ->
  outcome (r1 ;;; r2) (c1 /\ c2) (t1 && t2) violated.
Proof.
  unfold outcome, and_then. destruct r1 as [[]|[k|m|]].
  - intros H1 H2. specialize (H2 H1).
    destruct r2 as [[]|[k|m|]]; [tauto | tauto | |].
    + destruct H2 as [Hn Hv]. split; [tauto | assumption].
    + destruct H2 as [Hn ->]. split; [tauto | apply andb_false_r].
  - tauto.
  - intros [Hn Hv] _. split; [tauto | assumption].
  - intros [Hn ->] _. split; [tauto | reflexivity].
Qed.

Lemma has_fields_not_dict (x : json) (key : string) (keys : list string) :
  is_dict x = false -> has_fields x (key :: keys) = false.
Proof. destruct x; simpl; congruence. Qed.

Section TopLevelKeysPresent.

Variables (c : PyDict.t json) (global_settings agent_config flow : json).
Hypothesis Hgs : PyDict.get "global_settings" c = Some global_settings.
Hypothesis Hac : PyDict.get "agent_config" c = Some agent_config.
Hypothesis Hfl : PyDict.get "flow" c = Some flow.

Lemma global_settings_outcome :
  outcome (_validate_global_settings (JDict c))
    (forall s, complete_settings global_settings s)
    (typed_global_settings global_settings)
    (reported (JDict c)).
Proof.
  unfold _validate_global_settings.
  cbn [py_getitem]. unfold getitem at 1. rewrite Hgs. cbn [and_then].
  destruct global_settings as [| | | | |l|g] eqn:Eg;
    try (cbn; split;
         [intros H; destruct (H LLM) as (x & Hx & _); discriminate
         | reflexivity]).
  rewrite require_keys_dict. cbn [find]. rewrite !mem_get.
  assert (Hmissing : forall s,
            PyDict.get (settings_key s) g = None ->
            ~ (forall s, complete_settings (JDict g) s)
            /\ exists v,
                 ("Missing " ++ settings_key s ++ " in global_settings")%string
                 = message v /\ reported (JDict c) v).
  { intros s Hs. split.
    - intros H. destruct (H s) as (x & Hx & _). cbn [field] in Hx. congruence.
    - exists (MissingSettingsSection (settings_key s)). split; [reflexivity|].
      split.
      + apply (occ_section _ (JDict g) s); [exact Hgs|].
        cbn [has_field]. now rewrite mem_get, Hs.
      + intros v' Hv'.
        apply (rank_after_top_level (JDict c) (JDict g) agent_config flow);
          assumption. }
  destruct (PyDict.get "llm_settings" g) as [llm|] eqn:Ellm; cbn [negb];
    [|exact (Hmissing LLM Ellm)].
  destruct (PyDict.get "stt_settings" g) as [stt|] eqn:Estt; cbn [negb];
    [|exact (Hmissing STT Estt)].
  destruct (PyDict.get "tts_settings" g) as [tts|] eqn:Etts; cbn [negb];
    [|exact (Hmissing TTS Etts)].
  clear Hmissing.
  assert (Hsec : forall s, has_field (JDict g) (settings_key s) = true).
  { intros []; cbn [has_field settings_key]; rewrite mem_get;
      [now rewrite Ellm | now rewrite Estt | now rewrite Etts]. }
  assert (Hget : forall s, field (JDict g) (settings_key s)
                           = Some match s with LLM => llm | STT => stt
                                          | TTS => tts end).
  { intros []; assumption. }
  cbn [and_then py_getitem]. unfold getitem. rewrite Ellm, Estt, Etts.
  cbn [and_then]. unfold typed_global_settings. cbn [is_dict field andb].
  rewrite Ellm, Estt, Etts. cbn [if_present].
  (* one settings section *)
  assert (Hone : forall s x (rest : result unit) (typed_rest : bool),
            field (JDict g) (settings_key s) = Some x ->
            (forall s', rank (IncompleteSettings s') < rank (IncompleteSettings s) ->
                        complete_settings (JDict g) s') ->
            (complete_settings (JDict g) s ->
             outcome rest (forall s, complete_settings (JDict g) s)
               typed_rest (reported (JDict c))) ->
            outcome
              (ok <-- all_in x (settings_fields s) ;;;
               if negb ok
               then Raise (ValueError
                             (settings_label s
                              ++ " settings missing required fields"))
               else rest)
              (forall s, complete_settings (JDict g) s)
              (is_dict x && typed_rest)
              (reported (JDict c))).
  { intros s x rest typed_rest Hx Hbefore Hrest.
    destruct (is_dict x) eqn:Ex.
    - destruct x; try discriminate. rewrite all_in_dict. cbn [and_then andb].
      destruct (has_fields (JDict d) (settings_fields s)) eqn:Ef; cbn [negb].
      + apply Hrest. exists (JDict d). now split.
      + cbn [outcome]. split.
        * intros H. destruct (H s) as (y & Hy & Hys). congruence.
        * exists (IncompleteSettings s). split; [reflexivity|]. split.
          -- now apply (occ_settings _ (JDict g) s (JDict d)).
          -- intros v' Hv'.
             destruct s.
             ++ apply (rank_after_sections (JDict c) (JDict g) agent_config
                         flow); assumption.
             ++ apply (rank_after_settings (JDict c) (JDict g) agent_config
                         flow Hgs Hac Hfl Hsec LLM); [|assumption].
                intros s' Hs'. apply Hbefore. cbn [rank] in *.
                destruct s'; cbn [rank] in *; lia.
             ++ apply (rank_after_settings (JDict c) (JDict g) agent_config
                         flow Hgs Hac Hfl Hsec STT); [|assumption].
                intros s' Hs'. apply Hbefore.
                destruct s'; cbn [rank] in *; lia.
    - assert (Hr : all_in x (settings_fields s) = Raise SchemaTypeError)
        by (destruct x, s; try discriminate; reflexivity).
      rewrite Hr. cbn [and_then outcome andb]. split; [|reflexivity].
      intros H. destruct (H s) as (y & Hy & Hys).
      rewrite Hx in Hy. injection Hy as <-.
      destruct s; cbn [settings_fields] in Hys;
        rewrite has_fields_not_dict in Hys by assumption; discriminate. }
  apply (outcome_iff _ (forall s, complete_settings (JDict g) s) _
           (is_dict llm && (is_dict stt && (is_dict tts && true))) _ _
           (iff_refl _)).
  { destruct (is_dict llm), (is_dict stt), (is_dict tts); reflexivity. }
  apply (Hone LLM llm _ _ (Hget LLM)).
  { intros s' Hs'. destruct s'; cbn [rank] in Hs'; lia. }
  intros Hllm.
  apply (Hone STT stt _ _ (Hget STT)).
  { intros s' Hs'. destruct s'; cbn [rank] in Hs'; try lia. assumption. }
  intros Hstt.
  apply (Hone TTS tts (Ok tt) true (Hget TTS)).
  { intros s' Hs'. destruct s'; cbn [rank] in Hs'; try lia; assumption. }
  intros Htts. cbn [outcome]. intros []; assumption.
Qed.


Hypothesis Hsettings : forall s, complete_settings global_settings s.

Lemma sections_present (s : settings) :
  has_field global_settings (settings_key s) = true.
Proof.
  destruct (Hsettings s) as (x & Hx & _). now apply field_has_field in Hx.
Qed.

Lemma agent_config_outcome :
  outcome (_validate_agent_config (JDict c))
    (has_fields agent_config agent_fields = true)
    (is_dict agent_config)
    (reported (JDict c)).
Proof.
  unfold _validate_agent_config.
  cbn [py_getitem]. unfold getitem. rewrite Hac. cbn [and_then].
  destruct agent_config as [| | | | |l|a] eqn:Ea;
    try (cbn; split; [discriminate | reflexivity]).
  rewrite require_keys_dict.
  destruct (find _ _) as [missing|] eqn:Ef.
  - apply find_some in Ef as [Hin Hm]. apply negb_true_iff in Hm.
    cbn [outcome]. split.
    + intros H.
      pose proof (has_fields_missing (JDict a) agent_fields _ Hin Hm).
      congruence.
    + exists (MissingAgentField missing). split; [reflexivity|]. split.
      * now apply (occ_agent _ (JDict a)).
      * intros v' Hv'.
        apply (rank_after_global_settings (JDict c) global_settings
                 (JDict a) flow Hgs Hac Hfl sections_present Hsettings).
        assumption.
  - cbn [outcome]. now apply has_fields_find.
Qed.

Hypothesis Hagent : has_fields agent_config agent_fields = true.

Lemma stage_flow_outcome :
  outcome (_validate_stage_flow (JDict c))
    (complete_flow flow)
    (typed_flow flow)
    (reported (JDict c)).
Proof.
  unfold _validate_stage_flow, complete_flow, typed_flow.
  cbn [py_getitem]. unfold getitem at 1. rewrite Hfl. cbn [and_then].
  destruct flow as [| | | | |l|f] eqn:Ef;
    try (cbn; split; [intros (? & ? & ? & _); discriminate | reflexivity]).
  cbn [py_in py_getitem and_then is_dict field andb]. unfold getitem.
  rewrite !mem_get.
  assert (Hmissing : forall name,
            In name flow_fields ->
            PyDict.get name f = None ->
            ~ (exists start_stage all_stages,
                 PyDict.get "start_stage" f = Some (JStr start_stage)
                 /\ PyDict.get "stages" f = Some (JDict all_stages)
                 /\ PyDict.mem start_stage all_stages = true
                 /\ forall stage_id stage,
                      In (stage_id, stage) all_stages ->
                      complete_stage all_stages stage)
            /\ exists v,
                 ("Missing " ++ name ++ " in flow")%string = message v
                 /\ reported (JDict c) v).
  { intros name Hin Hn. split.
    - intros (s & a & Hs & Ha & _).
      destruct Hin as [<-|[<-|[]]]; congruence.
    - exists (MissingFlowField name). split; [reflexivity|]. split.
      + apply (occ_flow _ (JDict f)); [assumption | assumption |].
        cbn [has_field]. now rewrite mem_get, Hn.
      + intros v' Hv'.
        apply (rank_after_agent_config (JDict c) global_settings
                 agent_config (JDict f) Hgs Hac Hfl sections_present
                 Hsettings Hagent).
        assumption. }
  destruct (PyDict.get "start_stage" f) as [start|] eqn:Es; cbn [negb];
    [|apply (Hmissing "start_stage"); [now left | assumption]].
  destruct (PyDict.get "stages" f) as [stages|] eqn:Et; cbn [negb];
    [|apply (Hmissing "stages"); [right; now left | assumption]].
  clear Hmissing. cbn [and_then if_present].
  destruct start as [| | | |start_stage| |];
    try (cbn; split; [intros (? & ? & ? & _); discriminate | reflexivity]).
  cbn [py_stage_ref and_then is_str andb].
  destruct stages as [| | | | | |all_stages];
    try (cbn; split;
         [intros (? & ? & _ & ? & _); discriminate | reflexivity]).
  cbn [py_items and_then].
  assert (Hflow : has_fields (JDict f) flow_fields = true).
  { cbn. now rewrite !mem_get, Es, Et. }
  destruct (PyDict.mem start_stage all_stages) eqn:Em; cbn [negb].
  2:{ cbn [outcome]. split.
      - intros (s & a & [= <-] & [= <-] & Hk & _). congruence.
      - exists (UnknownStartStage start_stage). split; [reflexivity|]. split.
        + now apply (occ_start _ (JDict f) start_stage all_stages).
        + intros v' Hv'.
          apply (rank_after_flow_fields (JDict c) global_settings
                   agent_config (JDict f) Hgs Hac Hfl sections_present
                   Hsettings Hagent Hflow).
          assumption. }
  pose proof (for_each_outcome all_stages
                (fun item => _validate_stage (fst item) (snd item) all_stages)
                (fun item => complete_stage all_stages (snd item))
                (fun item => typed_stage (snd item))
                (fun item v =>
                   stage_violation all_stages (fst item) (snd item) v)
                (fun item _ =>
                   validate_stage_outcome (fst item) (snd item) all_stages))
    as Hloop.
  unfold outcome in *.
  destruct (for_each all_stages _) as [[]|[k|m|]].
  - exists start_stage, all_stages.
    split; [reflexivity|]. split; [reflexivity|]. split; [assumption|].
    intros stage_id stage Hin. exact (Hloop (stage_id, stage) Hin).
  - contradiction.
  - destruct Hloop as [Hn (v & -> & [stage_id stage] & Hin & Hv)]. split.
    + intros (s & a & _ & [= <-] & _ & Hall). apply Hn.
      intros [sid st] Hi. exact (Hall sid st Hi).
    + exists v. split; [reflexivity|]. split.
      * now apply (occ_stage _ (JDict f) all_stages stage_id stage).
      * intros v' Hv'. cbn [fst snd] in Hv.
        rewrite (stage_violation_rank _ _ _ _ Hv).
        apply (rank_after_start_stage (JDict c) global_settings
                 agent_config (JDict f) Hgs Hac Hfl sections_present
                 Hsettings Hagent Hflow start_stage all_stages Es Et Em).
        assumption.
  - destruct Hloop as [Hn Ht]. split; [|assumption].
    intros (s & a & _ & [= <-] & _ & Hall). apply Hn.
    intros [sid st] Hi. exact (Hall sid st Hi).
Qed.

End TopLevelKeysPresent.

Lemma validate_config_outcome (config : json) :
  outcome (_validate_config config)
    (structurally_complete config)
    (schema_typed config)
    (reported config).
Proof.
  destruct config as [| | | | |l|c];
    try (cbn; split; [intros (? & ? & ? & ? & _); discriminate | reflexivity]).
  unfold _validate_config. rewrite require_keys_dict. cbn [find].
  rewrite !mem_get.
  assert (Hmissing : forall key,
            In key top_level_keys ->
            PyDict.get key c = None ->
            ~ structurally_complete (JDict c)
            /\ exists v,
                 ("Missing required key in config: " ++ key)%string = message v
                 /\ reported (JDict c) v).
  { intros key Hin Hk. split.
    - intros (gs & ac & fl & Hg & Ha & Hf & _). cbn [field] in *.
      destruct Hin as [<-|[<-|[<-|[]]]]; congruence.
    - exists (MissingTopLevelKey key). split; [reflexivity|]. split.
      + apply occ_top_level; [assumption|].
        cbn [has_field]. now rewrite mem_get, Hk.
      + intros v' _. cbn [rank]. lia. }
  destruct (PyDict.get "global_settings" c) as [gs|] eqn:Egs; cbn [negb];
    [|apply (Hmissing "global_settings"); [now left | assumption]].
  destruct (PyDict.get "agent_config" c) as [ac|] eqn:Eac; cbn [negb];
    [|apply (Hmissing "agent_config"); [right; now left | assumption]].
  destruct (PyDict.get "flow" c) as [fl|] eqn:Efl; cbn [negb];
    [|apply (Hmissing "flow"); [right; right; now left | assumption]].
  clear Hmissing. cbn [and_then].
  apply (outcome_iff _
           ((forall s, complete_settings gs s)
            /\ has_fields ac agent_fields = true /\ complete_flow fl)
           _
           (typed_global_settings gs && (is_dict ac && typed_flow fl))).
  { unfold structurally_complete. cbn [field]. split.
    - intros (Hs & Ha & Hf). now exists gs, ac, fl.
    - intros (gs' & ac' & fl' & Hg & Ha & Hf & H).
      rewrite Egs in Hg. rewrite Eac in Ha. rewrite Efl in Hf.
      injection Hg as <-. injection Ha as <-. injection Hf as <-. exact H. }
  { unfold schema_typed. cbn [is_dict field andb].
    rewrite Egs, Eac, Efl. cbn [if_present]. now rewrite andb_assoc. }
  apply outcome_seq; [now apply (global_settings_outcome c gs ac fl)|].
  intros Hs.
  apply outcome_seq; [now apply (agent_config_outcome c gs ac fl)|].
  intros Ha. now apply (stage_flow_outcome c gs ac fl).
Qed.

Lemma contains_suffix (needle pre : string) :
  PyStr.contains needle (pre ++ needle) = true.
Proof.
  rewrite <- (append_empty_r needle) at 2. apply contains_append.
Qed.

Lemma contains_last (needle a b c : string) :
  PyStr.contains needle (a ++ b ++ c ++ needle) = true.
Proof. rewrite <- !append_assoc. apply contains_suffix. Qed.

Lemma message_names_its_parts (v : violation) (part : string) :
  In part (named_parts v) -> PyStr.contains part (message v) = true.
Proof.
  destruct v; cbn [named_parts message In];
    intros H; repeat destruct H as [<-|H]; try contradiction;
    try apply contains_suffix;
    try apply contains_append;
    try apply contains_last;
    try (apply contains_starts_with, starts_with_append).
  apply contains_starts_with. reflexivity.
Qed.

(** The violations are real: a document that has one is not complete. *)
Lemma entry_violation_not_complete all_stages stage_id next_stage v :
  entry_violation all_stages stage_id next_stage v ->
  ~ complete_next_stage all_stages next_stage.
Proof.
  intros Hv [Hc (target & Ht & Hk)]. destruct Hv as [Hm|Hm|t Hf Hne Hm].
  - apply field_has_field in Ht. congruence.
  - congruence.
  - rewrite Hf in Ht. injection Ht as <-. specialize (Hk Hne). congruence.
Qed.

Lemma stage_violation_not_complete all_stages stage_id stage v :
  stage_violation all_stages stage_id stage v ->
  ~ complete_stage all_stages stage.
Proof.
  intros Hv [Hfields Hnext]. destruct Hv as [name Hin Hm|entries ns v Hf Hin Hv].
  - pose proof (has_fields_missing stage stage_fields name Hin Hm). congruence.
  - destruct (Hnext _ Hf) as (l & [= <-] & Hl).
    exact (entry_violation_not_complete _ _ _ _ Hv (Hl ns Hin)).
Qed.

Lemma occurs_not_complete (config : json) (v : violation) :
  occurs config v -> ~ structurally_complete config.
Proof.
  intros Hv (gs & ac & fl & Hgs & Hac & Hfl & Hs & Ha & Hflow).
  destruct Hv as [key Hin Hm|gs' s Hg Hm|gs' s x Hg Hx Hm|ac' name Hc Hin Hm
                 |fl' name Hf Hin Hm|fl' start all Hf Hst Hall Hm
                 |fl' all stage_id stage v Hf Hall Hin Hv].
  - destruct Hin as [<-|[<-|[<-|[]]]];
      [apply field_has_field in Hgs | apply field_has_field in Hac
      |apply field_has_field in Hfl]; congruence.
  - rewrite Hgs in Hg. injection Hg as <-.
    destruct (Hs s) as (x & Hx & _). apply field_has_field in Hx. congruence.
  - rewrite Hgs in Hg. injection Hg as <-.
    destruct (Hs s) as (y & Hy & Hys). rewrite Hx in Hy. injection Hy as <-.
    congruence.
  - rewrite Hac in Hc. injection Hc as <-.
    pose proof (has_fields_missing ac agent_fields name Hin Hm). congruence.
  - rewrite Hfl in Hf. injection Hf as <-.
    destruct Hflow as (start & all & Hst & Hall & _).
    apply field_has_field in Hst, Hall.
    destruct Hin as [<-|[<-|[]]]; congruence.
  - rewrite Hfl in Hf. injection Hf as <-.
    destruct Hflow as (start' & all' & Hst' & Hall' & Hk & _).
    rewrite Hst in Hst'. injection Hst' as <-.
    rewrite Hall in Hall'. injection Hall' as <-. congruence.
  - rewrite Hfl in Hf. injection Hf as <-.
    destruct Hflow as (start' & all' & _ & Hall' & _ & Hstages).
    rewrite Hall in Hall'. injection Hall' as <-.
    exact (stage_violation_not_complete _ _ _ _ Hv (Hstages _ _ Hin)).
Qed.

(** The message for a settings section names none of its sub-fields. *)
Lemma settings_message_names_no_field (s : settings) (name : string) :
  In name (settings_fields s) ->
  PyStr.contains name (message (IncompleteSettings s)) = false.
Proof.
  destruct s; cbn [settings_fields In];
    intros H; repeat destruct H as [<-|H]; try contradiction; reflexivity.
Qed.

Lemma validate_config_ok_iff (config : json) :
  _validate_config config = Ok tt <-> structurally_complete config.
Proof.
  pose proof (validate_config_outcome config) as H. unfold outcome in H.
  destruct (_validate_config config) as [[]|[k|m|]].
  - tauto.
  - contradiction.
  - split; [discriminate | tauto].
  - split; [discriminate | tauto].
Qed.

Lemma validate_config_error (config : json) :
  schema_typed config = true ->
  ~ structurally_complete config ->
  exists v,
    _validate_config config = Raise (ValueError (message v))
    /\ occurs config v
    /\ forall v', occurs config v' -> rank v <= rank v'.
Proof.
  intros Ht Hn. pose proof (validate_config_outcome config) as H.
  unfold outcome in H.
  destruct (_validate_config config) as [[]|[k|m|]].
  - contradiction.
  - contradiction.
  - destruct H as [_ (v & -> & Hocc & Hmin)]. now exists v.
  - destruct H as [_ H]. congruence.
Qed.

(* ----------------------------------------------------------------- *)
(** ** The first failing check *)

Lemma find_first {A} (f : A -> bool) (l : list A) (x : A) :
  find f l = Some x ->
  exists before after,
    l = (before ++ x :: after)%list
    /\ (forall y, In y before -> f y = false)
    /\ f x = true.
Proof.
  induction l as [|a l IH]; [discriminate|]. cbn [find].
  destruct (f a) eqn:Ea.
  - intros [= <-]. exists [], l. split; [reflexivity|].
    split; [intros y []|assumption].
  - intros H. destruct (IH H) as (before & after & -> & Hb & Hx).
    exists (a :: before), after. split; [reflexivity|].
    split; [|assumption]. intros y [<-|Hy]; [assumption | now apply Hb].
Qed.

Lemma first_missing_find (d : PyDict.t json) (keys : list string)
    (key : string) :
  find (fun k => negb (PyDict.mem k d)) keys = Some key ->
  first_missing (JDict d) keys key.
Proof.
  intros H. destruct (find_first _ _ _ H) as (before & after & -> & Hb & Hk).
  exists before, after. split; [reflexivity|]. split.
  - apply forallb_forall. intros k Hin. cbn [has_field].
    now apply negb_false_iff, Hb.
  - cbn [has_field]. now apply negb_true_iff.
Qed.

Lemma for_each_first {A} (l : list A) (body : A -> result unit) (e : exn) :
  for_each l body = Raise e ->
  exists before x after,
    l = (before ++ x :: after)%list
    /\ (forall y, In y before -> body y = Ok tt)
    /\ body x = Raise e.
Proof.
  induction l as [|a l IH]; [discriminate|]. cbn [for_each].
  unfold and_then. destruct (body a) as [[]|e'] eqn:Ea.
  - intros H. destruct (IH H) as (before & x & after & -> & Hb & Hx).
    exists (a :: before), x, after. split; [reflexivity|].
    split; [|assumption]. intros y [<-|Hy]; [assumption | now apply Hb].
  - intros [= <-]. exists [], a, l. split; [reflexivity|].
    split; [intros y []|assumption].
Qed.

Lemma validate_next_stage_first (stage_id : string)
    (all_stages : PyDict.t json) (next_stage : json) (e : exn) :
  typed_next_stage next_stage = true ->
  _validate_next_stage stage_id all_stages next_stage = Raise e ->
  exists v,
    e = ValueError (message v)
    /\ first_entry_violation all_stages stage_id next_stage v.
Proof.
  unfold typed_next_stage.
  destruct next_stage as [| | | | |l|d]; try discriminate.
  unfold _validate_next_stage, py_in, py_getitem, getitem, and_then.
  cbn [is_dict field andb]. rewrite !mem_get.
  destruct (PyDict.get "stage_id" d) as [target|] eqn:Eid; cbn [negb].
  2:{ intros _ [= <-]. exists (NextStageMissingField stage_id "stage_id").
      split; [reflexivity|]. constructor. cbn. now rewrite mem_get, Eid. }
  destruct (PyDict.get "condition" d) as [c|] eqn:Ec; cbn [negb].
  2:{ intros _ [= <-]. exists (NextStageMissingField stage_id "condition").
      split; [reflexivity|].
      constructor; cbn; rewrite mem_get; [now rewrite Eid | now rewrite Ec]. }
  cbn [if_present].
  destruct target as [| | | |t| |]; try discriminate.
  cbn [py_stage_ref].
  destruct (String.eqb t "END") eqn:Eend; cbn [negb andb]; [discriminate|].
  destruct (PyDict.mem t all_stages) eqn:Em; cbn [negb]; [discriminate|].
  intros _ [= <-]. exists (UnknownTarget stage_id t).
  split; [reflexivity|]. apply String.eqb_neq in Eend.
  constructor; try assumption. cbn. now rewrite mem_get, Ec.
Qed.

Lemma validate_next_stage_complete (stage_id : string)
    (all_stages : PyDict.t json) (next_stage : json) :
  _validate_next_stage stage_id all_stages next_stage = Ok tt ->
  complete_next_stage all_stages next_stage.
Proof.
  intros E.
  pose proof (validate_next_stage_outcome stage_id all_stages next_stage) as H.
  now rewrite E in H.
Qed.

Lemma validate_stage_first (stage_id : string) (stage : json)
    (all_stages : PyDict.t json) (e : exn) :
  typed_stage stage = true ->
  _validate_stage stage_id stage all_stages = Raise e ->
  exists v,
    e = ValueError (message v)
    /\ first_stage_violation all_stages stage_id stage v.
Proof.
  unfold typed_stage.
  destruct stage as [| | | | |l|d]; try discriminate.
  cbn [is_dict andb field].
  unfold _validate_stage. rewrite require_keys_dict.
  destruct (find _ _) as [missing|] eqn:Ef.
  { intros _ [= <-]. exists (StageMissingField stage_id missing).
    split; [reflexivity|]. constructor. now apply first_missing_find. }
  pose proof (has_fields_find _ _ Ef) as Hfields.
  cbn [and_then py_in py_getitem]. unfold getitem. rewrite mem_get.
  destruct (PyDict.get "next_stages" d) as [next_stages|] eqn:En;
    cbn [if_present and_then]; [|discriminate].
  destruct next_stages as [| | | | |entries|]; try discriminate.
  cbn [py_iter and_then]. intros Ht Hr.
  destruct (for_each_first _ _ _ Hr)
    as (before & x & after & -> & Hb & Hx).
  rewrite forallb_forall in Ht.
  assert (Htx : typed_next_stage x = true)
    by (apply Ht, in_or_app; right; now left).
  destruct (validate_next_stage_first _ _ _ _ Htx Hx) as (v & -> & Hv).
  exists v. split; [reflexivity|].
  apply (fsv_entry _ _ _ before x after); try assumption.
  intros y Hy. apply (validate_next_stage_complete stage_id). now apply Hb.
Qed.

Lemma validate_stage_complete (stage_id : string) (stage : json)
    (all_stages : PyDict.t json) :
  _validate_stage stage_id stage all_stages = Ok tt ->
  complete_stage all_stages stage.
Proof.
  intros E.
  pose proof (validate_stage_outcome stage_id stage all_stages) as H.
  now rewrite E in H.
Qed.

Lemma has_fields_fields (x : json) (keys : list string) (key : string) :
  has_fields x keys = true -> In key keys -> exists v, field x key = Some v.
Proof.
  unfold has_fields. rewrite forallb_forall. intros H Hin.
  specialize (H key Hin). destruct x; cbn [has_field field] in *;
    try discriminate.
  rewrite mem_get in H. destruct (PyDict.get key d) as [v|]; [|discriminate].
  now exists v.
Qed.

(** On a document of the schema's types the validator raises the
    [ValueError] of the first violation. *)
Lemma validate_config_first (config : json) (e : exn) :
  schema_typed config = true ->
  _validate_config config = Raise e ->
  exists v, e = ValueError (message v) /\ first_violation config v.
Proof.
  unfold schema_typed.
  destruct config as [| | | | |l|c]; try discriminate.
  cbn [is_dict andb field].
  unfold _validate_config. rewrite require_keys_dict.
  destruct (find _ _) as [missing|] eqn:Ef.
  { intros _ [= <-]. exists (MissingTopLevelKey missing).
    split; [reflexivity|]. constructor. now apply first_missing_find. }
  pose proof (has_fields_find _ _ Ef) as Htop.
  destruct (has_fields_fields _ _ "global_settings" Htop) as [gs Hgs];
    [cbn; tauto|].
  destruct (has_fields_fields _ _ "agent_config" Htop) as [ac Hac];
    [cbn; tauto|].
  destruct (has_fields_fields _ _ "flow" Htop) as [fl Hfl];
    [cbn; tauto|].
  cbn [field] in Hgs, Hac, Hfl. rewrite Hgs, Hac, Hfl. cbn [if_present].
  intros Htyped.
  apply andb_true_iff in Htyped as [Htyped Htfl].
  apply andb_true_iff in Htyped as [Htgs Htac].
  cbn [and_then].
  (* the settings *)
  unfold _validate_global_settings at 1.
  cbn [py_getitem]. unfold getitem at 1. rewrite Hgs. cbn [and_then].
  unfold typed_global_settings in Htgs.
  destruct gs as [| | | | |lg|g]; try discriminate.
  cbn [is_dict andb field] in Htgs.
  rewrite require_keys_dict.
  destruct (find (fun key => negb (PyDict.mem key g)) _) as [section|] eqn:Es.
  { intros [= <-]. exists (MissingSettingsSection section).
    split; [reflexivity|].
    apply (fv_section _ (JDict g)); [assumption | assumption|].
    now apply first_missing_find. }
  pose proof (has_fields_find _ _ Es) as Hsec.
  destruct (has_fields_fields _ _ "llm_settings" Hsec) as [llm Hllm];
    [cbn; tauto|].
  destruct (has_fields_fields _ _ "stt_settings" Hsec) as [stt Hstt];
    [cbn; tauto|].
  destruct (has_fields_fields _ _ "tts_settings" Hsec) as [tts Htts];
    [cbn; tauto|].
  cbn [field] in Hllm, Hstt, Htts. rewrite Hllm, Hstt, Htts in Htgs.
  cbn [if_present] in Htgs.
  apply andb_true_iff in Htgs as [Htgs Ht3].
  apply andb_true_iff in Htgs as [Ht1 Ht2].
  destruct llm as [| | | | | |dl]; try discriminate.
  destruct stt as [| | | | | |ds]; try discriminate.
  destruct tts as [| | | | | |dt]; try discriminate.
  cbn [and_then py_getitem]. unfold getitem at 1. rewrite Hllm.
  cbn [and_then]. rewrite all_in_dict. cbn [and_then].
  destruct (has_fields (JDict dl) _) eqn:Hl; cbn [negb].
  2:{ intros [= <-]. exists (IncompleteSettings LLM). split; [reflexivity|].
      apply (fv_settings _ (JDict g) [] LLM [STT; TTS] (JDict dl));
        try assumption; try reflexivity.
      intros s' []. }
  unfold getitem at 1. rewrite Hstt. cbn [and_then].
  rewrite all_in_dict. cbn [and_then].
  destruct (has_fields (JDict ds) _) eqn:Hs; cbn [negb].
  2:{ intros [= <-]. exists (IncompleteSettings STT). split; [reflexivity|].
      apply (fv_settings _ (JDict g) [LLM] STT [TTS] (JDict ds));
        try assumption; try reflexivity.
      intros s' [<-|[]]. exists (JDict dl). now split. }
  unfold getitem at 1. rewrite Htts. cbn [and_then].
  rewrite all_in_dict. cbn [and_then].
  destruct (has_fields (JDict dt) _) eqn:Ht; cbn [negb].
  2:{ intros [= <-]. exists (IncompleteSettings TTS). split; [reflexivity|].
      apply (fv_settings _ (JDict g) [LLM; STT] TTS [] (JDict dt));
        try assumption; try reflexivity.
      intros s' [<-|[<-|[]]];
        [exists (JDict dl) | exists (JDict ds)]; now split. }
  assert (Hsettings : settings_passed (JDict c)).
  { split; [assumption|]. exists (JDict g). split; [assumption|].
    intros [];
      [exists (JDict dl) | exists (JDict ds) | exists (JDict dt)];
      now split. }
  (* the agent section *)
  unfold _validate_agent_config at 1.
  cbn [py_getitem]. unfold getitem at 1. rewrite Hac. cbn [and_then].
  destruct ac as [| | | | | |a]; try discriminate.
  rewrite require_keys_dict.
  destruct (find (fun key => negb (PyDict.mem key a)) _) as [name|] eqn:Ea.
  { intros [= <-]. exists (MissingAgentField name). split; [reflexivity|].
    apply (fv_agent _ (JDict a)); [assumption | assumption|].
    now apply first_missing_find. }
  pose proof (has_fields_find _ _ Ea) as Hagent.
  assert (Hpassed : agent_passed (JDict c)).
  { split; [assumption|]. exists (JDict a). now split. }
  (* the flow *)
  unfold _validate_stage_flow.
  cbn [py_getitem]. unfold getitem at 1. rewrite Hfl. cbn [and_then].
  unfold typed_flow in Htfl.
  destruct fl as [| | | | | |f]; try discriminate.
  cbn [is_dict andb field] in Htfl.
  cbn [py_in py_getitem and_then]. unfold getitem. rewrite !mem_get.
  destruct (PyDict.get "start_stage" f) as [start|] eqn:Est; cbn [negb].
  2:{ intros [= <-]. exists (MissingFlowField "start_stage").
      split; [reflexivity|].
      apply (fv_flow _ (JDict f)); [assumption | assumption|].
      exists [], ["stages"]. split; [reflexivity|]. split; [reflexivity|].
      cbn. now rewrite mem_get, Est. }
  destruct (PyDict.get "stages" f) as [stages|] eqn:Esg; cbn [negb].
  2:{ intros [= <-]. exists (MissingFlowField "stages").
      split; [reflexivity|].
      apply (fv_flow _ (JDict f)); [assumption | assumption|].
      exists ["start_stage"], []. split; [reflexivity|]. split.
      - cbn. now rewrite mem_get, Est.
      - cbn. now rewrite mem_get, Esg. }
  cbn [if_present] in Htfl.
  apply andb_true_iff in Htfl as [Hts Htst].
  destruct start as [| | | |start_stage| |]; try discriminate.
  destruct stages as [| | | | | |all_stages]; try discriminate.
  cbn [and_then py_stage_ref py_items].
  destruct (PyDict.mem start_stage all_stages) eqn:Em; cbn [negb].
  2:{ intros [= <-]. exists (UnknownStartStage start_stage).
      split; [reflexivity|].
      now apply (fv_start _ (JDict f) start_stage all_stages). }
  intros Hr.
  destruct (for_each_first _ _ _ Hr)
    as (before & [stage_id stage] & after & Hall & Hb & Hx).
  cbn [fst snd] in Hx.
  rewrite forallb_forall in Htst.
  assert (Htx : typed_stage stage = true).
  { apply (Htst (stage_id, stage)). rewrite Hall.
    apply in_or_app. right. now left. }
  destruct (validate_stage_first _ _ _ _ Htx Hx) as (v & -> & Hv).
  exists v. split; [reflexivity|]. subst all_stages.
  apply (fv_stage _ (JDict f) start_stage before stage_id stage after);
    try assumption.
  intros item Hin. apply (validate_stage_complete (fst item)).
  now apply Hb.
Qed.

Lemma first_missing_lacks (x : json) (keys : list string) (key : string) :
  first_missing x keys key -> has_fields x keys = false.
Proof.
  intros (before & after & -> & _ & Hk).
  apply (has_fields_missing x _ key); [|assumption].
  apply in_or_app. right. now left.
Qed.

Lemma first_missing_in (x : json) (keys : list string) (key : string) :
  first_missing x keys key -> In key keys /\ has_field x key = false.
Proof.
  intros (before & after & -> & _ & Hk). split; [|assumption].
  apply in_or_app. right. now left.
Qed.

Lemma split_unique {A} (P : A -> Prop) (b1 b2 a1 a2 : list A) (x1 x2 : A) :
  (b1 ++ x1 :: a1 = b2 ++ x2 :: a2)%list ->
  (forall y, In y b1 -> P y) -> (forall y, In y b2 -> P y) ->
  ~ P x1 -> ~ P x2 ->
  b1 = b2 /\ x1 = x2 /\ a1 = a2.
Proof.
  revert b2. induction b1 as [|y b1 IH]; intros [|z b2]; cbn [app].
  - intros [= <- <-]. now repeat split.
  - intros [= <- _] _ H2 H1 _. exfalso. apply H1, H2. now left.
  - intros [= -> _] H1 _ _ H2. exfalso. apply H2, H1. now left.
  - intros [= <- E] H1 H2 N1 N2.
    destruct (IH b2 E) as (-> & -> & ->); try assumption.
    + intros u Hu. apply H1. now right.
    + intros u Hu. apply H2. now right.
    + now repeat split.
Qed.

Lemma first_missing_unique (x : json) (keys : list string) (k1 k2 : string) :
  first_missing x keys k1 -> first_missing x keys k2 -> k1 = k2.
Proof.
  intros (b1 & a1 & -> & H1 & N1) (b2 & a2 & E & H2 & N2).
  unfold has_fields in H1, H2. rewrite forallb_forall in H1, H2.
  destruct (split_unique (fun k => has_field x k = true) _ _ _ _ _ _ E)
    as (_ & H & _); try assumption; congruence.
Qed.

Lemma first_entry_violation_occurs all_stages stage_id next_stage v :
  first_entry_violation all_stages stage_id next_stage v ->
  entry_violation all_stages stage_id next_stage v.
Proof. destruct 1; now constructor. Qed.

Lemma first_stage_violation_occurs all_stages stage_id stage v :
  first_stage_violation all_stages stage_id stage v ->
  stage_violation all_stages stage_id stage v.
Proof.
  destruct 1 as [name Hm|before next_stage after v Hf Hn _ Hv].
  - apply first_missing_in in Hm as [Hin Hm]. now constructor.
  - apply (sv_entry _ _ _ _ next_stage v Hn).
    + apply in_or_app. right. now left.
    + now apply first_entry_violation_occurs.
Qed.

Lemma first_entry_violation_unique all_stages stage_id next_stage v v' :
  first_entry_violation all_stages stage_id next_stage v ->
  first_entry_violation all_stages stage_id next_stage v' ->
  v = v'.
Proof.
  destruct 1 as [H1|H1 H2|t H1 H2 H3 H4];
    destruct 1 as [G1|G1 G2|t' G1 G2 G3 G4];
    try reflexivity; try congruence.
  - apply field_has_field in G2. congruence.
  - apply field_has_field in H2. congruence.
Qed.

Lemma first_stage_violation_unique all_stages stage_id stage v v' :
  first_stage_violation all_stages stage_id stage v ->
  first_stage_violation all_stages stage_id stage v' ->
  v = v'.
Proof.
  destruct 1 as [n1 H1|b1 x1 a1 v1 F1 N1 C1 V1];
    destruct 1 as [n2 H2|b2 x2 a2 v2 F2 N2 C2 V2].
  - f_equal. exact (first_missing_unique _ _ _ _ H1 H2).
  - apply first_missing_lacks in H1. congruence.
  - apply first_missing_lacks in H2. congruence.
  - rewrite N1 in N2. injection N2 as E.
    destruct (split_unique (complete_next_stage all_stages) _ _ _ _ _ _ E)
      as (_ & <- & _); try assumption.
    + apply (entry_violation_not_complete _ stage_id _ v1).
      now apply first_entry_violation_occurs.
    + apply (entry_violation_not_complete _ stage_id _ v2).
      now apply first_entry_violation_occurs.
    + exact (first_entry_violation_unique _ _ _ _ _ V1 V2).
Qed.

Lemma settings_passed_sections (config : json) :
  settings_passed config ->
  exists global_settings,
    field config "global_settings" = Some global_settings
    /\ (forall s, complete_settings global_settings s)
    /\ has_fields global_settings (map settings_key settings_order) = true.
Proof.
  intros (_ & gs & Hgs & Hall). exists gs. split; [assumption|].
  split; [assumption|].
  apply forallb_forall. intros key Hin.
  cbn [map settings_order settings_key In] in Hin.
  destruct Hin as [<-|[<-|[<-|[]]]];
    [destruct (Hall LLM) as (x & Hx & _)
    |destruct (Hall STT) as (x & Hx & _)
    |destruct (Hall TTS) as (x & Hx & _)];
    exact (field_has_field _ _ _ Hx).
Qed.

Lemma first_violation_occurs (config : json) (v : violation) :
  first_violation config v -> occurs config v.
Proof.
  destruct 1 as [key Hm|gs key _ Hgs Hm|gs before s after x _ Hgs _ Ho _ Hx Hl
                |ac name _ Hac Hm|fl name _ Hfl Hm
                |fl start all _ Hfl Hs Ha Hm
                |fl start before stage_id stage after v _ Hfl _ Ha _ _ Hv].
  - apply first_missing_in in Hm as [Hin Hm]. now constructor.
  - apply first_missing_in in Hm as [Hin Hm].
    cbn [map settings_order settings_key In] in Hin.
    destruct Hin as [<-|[<-|[<-|[]]]];
      [apply (occ_section _ gs LLM) | apply (occ_section _ gs STT)
      |apply (occ_section _ gs TTS)]; assumption.
  - now apply (occ_settings _ gs s x).
  - apply first_missing_in in Hm as [Hin Hm]. now apply (occ_agent _ ac).
  - apply first_missing_in in Hm as [Hin Hm]. now apply (occ_flow _ fl).
  - now apply (occ_start _ fl start all).
  - apply (occ_stage _ fl _ stage_id stage v Hfl Ha).
    + apply in_or_app. right. now left.
    + now apply first_stage_violation_occurs.
Qed.

Ltac unfold_passed :=
  repeat match goal with
  | H : agent_passed _ |- _ =>
      let ac := fresh "ac" in
      let Hac := fresh "Hac" in
      let Hag := fresh "Hag" in
      destruct H as (H & ac & Hac & Hag)
  | H : settings_passed _ |- _ =>
      let gs := fresh "gs" in
      let Hgs := fresh "Hgs" in
      let Hall := fresh "Hall" in
      let Hsec := fresh "Hsec" in
      let Htop := fresh "Htop" in
      pose proof (proj1 H) as Htop;
      destruct (settings_passed_sections _ H) as (gs & Hgs & Hall & Hsec);
      clear H
  end.

Ltac same_fields :=
  repeat match goal with
  | H : field ?x ?k = Some ?a, H' : field ?x ?k = Some ?b |- _ =>
      let E := fresh "E" in
      assert (E : a = b) by congruence;
      clear H'; try (injection E as E); try subst
  end.

Ltac lacking :=
  match goal with
  | H : first_missing ?x ?keys _, H' : has_fields ?x ?keys = true |- _ =>
      apply first_missing_lacks in H; congruence
  end.

Lemma first_violation_unique (config : json) (v v' : violation) :
  first_violation config v -> first_violation config v' -> v = v'.
Proof.
  intros H1 H2.
  destruct H1 as [key Hm|gs key Ht Hgs Hm
                 |gs before s after x Ht Hgs Hsc Ho Hb Hx Hl
                 |ac name Hp Hac Hm|fl name Hp Hfl Hm
                 |fl start all Hp Hfl Hs Ha Hm
                 |fl start before stage_id stage after v Hp Hfl Hs Ha Hk Hb Hv];
    destruct H2 as [key' Hm'|gs' key' Ht' Hgs' Hm'
                   |gs' before' s' after' x' Ht' Hgs' Hsc' Ho' Hb' Hx' Hl'
                   |ac' name' Hp' Hac' Hm'|fl' name' Hp' Hfl' Hm'
                   |fl' start' all' Hp' Hfl' Hs' Ha' Hm'
                   |fl' start' before' stage_id' stage' after' v' Hp' Hfl' Hs'
                      Ha' Hk' Hb' Hv'];
    unfold_passed; same_fields;
    try (exfalso; lacking).
  all: try (f_equal; eapply first_missing_unique; eassumption).
  all: try (exfalso;
            match goal with
            | H : forall s, complete_settings ?gs s,
              Hx : field ?gs (settings_key ?s) = Some ?x,
              Hl : has_fields ?x (settings_fields ?s) = false |- _ =>
                destruct (H s) as (y & Hy & Hys);
                rewrite Hx in Hy; injection Hy as <-; congruence
            end).
  all: try (exfalso;
            match goal with
            | H : first_missing ?fl flow_fields _,
              Hs : field ?fl "start_stage" = Some _,
              Ha : field ?fl "stages" = Some _ |- _ =>
                apply first_missing_in in H as [Hin Hlack];
                destruct Hin as [<-|[<-|[]]];
                [apply field_has_field in Hs | apply field_has_field in Ha];
                congruence
            end).
  all: try congruence.
  - (* two settings sections *)
    rewrite Ho in Ho'. f_equal.
    match goal with
    | H : field ?g (settings_key s) = Some x |- _ =>
        assert (Hn : forall s0 x0,
                  field g (settings_key s0) = Some x0 ->
                  has_fields x0 (settings_fields s0) = false ->
                  ~ complete_settings g s0);
        [intros s0 x0 H0 Hl0 (y & Hy & Hys); rewrite H0 in Hy;
         injection Hy as <-; congruence|];
        destruct (split_unique (complete_settings g) _ _ _ _ _ _ Ho')
          as (_ & Hsame & _); eauto
    end.
  - (* two stages *)
    assert (Hn : forall all sid st u,
              first_stage_violation all sid st u -> ~ complete_stage all st).
    { intros all sid st u Hu.
      apply (stage_violation_not_complete _ sid _ u).
      now apply first_stage_violation_occurs. }
    match goal with
    | E : (_ ++ _ :: _ = _ ++ _ :: _)%list |- _ =>
        rewrite <- E in Hb', Hv';
        destruct (split_unique
                    (fun item =>
                       complete_stage
                         (before ++ (stage_id, stage) :: after)%list
                         (snd item)) _ _ _ _ _ _ E)
          as (_ & Hsame & _); try assumption;
        [cbn [snd]; eapply Hn; eassumption
        |cbn [snd]; eapply Hn; eassumption|]
    end.
    injection Hsame as <- <-.
    exact (first_stage_violation_unique _ _ _ _ _ Hv Hv').
Qed.

Lemma top_level_fields (config : json) :
  has_fields config top_level_keys = true ->
  exists gs ac fl,
    field config "global_settings" = Some gs
    /\ field config "agent_config" = Some ac
    /\ field config "flow" = Some fl.
Proof.
  intros Hall.
  destruct (has_fields_fields _ _ "global_settings" Hall) as [gs Hgs];
    [cbn; tauto|].
  destruct (has_fields_fields _ _ "agent_config" Hall) as [ac Hac];
    [cbn; tauto|].
  destruct (has_fields_fields _ _ "flow" Hall) as [fl Hfl];
    [cbn; tauto|].
  now exists gs, ac, fl.
Qed.

Lemma sections_fields (gs : json) :
  has_fields gs (map settings_key settings_order) = true ->
  forall s, has_field gs (settings_key s) = true.
Proof.
  intros Hs s. unfold has_fields in Hs. rewrite forallb_forall in Hs.
  apply Hs. destruct s; cbn; tauto.
Qed.

Lemma settings_order_split (before after : list settings) (s : settings) :
  settings_order = (before ++ s :: after)%list ->
  (before = [] /\ s = LLM)
  \/ (before = [LLM] /\ s = STT)
  \/ (before = [LLM; STT] /\ s = TTS).
Proof.
  unfold settings_order.
  destruct before as [|s1 [|s2 [|s3 before]]]; cbn [app]; intros H;
    inversion H; subst; auto.
  destruct before; discriminate.
Qed.

Ltac by_order lemma :=
  eapply lemma;
  first [eassumption
        |apply sections_fields; eassumption
        |idtac].

Lemma first_violation_rank (config : json) (v v' : violation) :
  first_violation config v -> occurs config v' -> rank v <= rank v'.
Proof.
  intros H Hocc.
  destruct H as [key Hm|gs key Ht Hgs Hm
                |gs before s after x Ht Hgs Hsc Ho Hb Hx Hl
                |ac name Hp Hac Hm|fl name Hp Hfl Hm
                |fl start all Hp Hfl Hs Ha Hm
                |fl start before stage_id stage after v Hp Hfl Hs Ha Hk Hb Hv].
  - cbn [rank]. lia.
  - destruct (top_level_fields _ Ht) as (gs0 & ac & fl & G & A & F).
    cbn [rank]. by_order rank_after_top_level.
  - destruct (top_level_fields _ Ht) as (gs0 & ac & fl & G & A & F).
    same_fields.
    destruct (settings_order_split _ _ _ Ho) as [[-> ->]|[[-> ->]|[-> ->]]].
    + cbn [rank]. by_order rank_after_sections.
    + change (rank (IncompleteSettings STT))
        with (S (rank (IncompleteSettings LLM))).
      by_order rank_after_settings.
      intros s0 Hs. destruct s0; cbn [rank] in Hs; try lia.
      apply Hb. now left.
    + change (rank (IncompleteSettings TTS))
        with (S (rank (IncompleteSettings STT))).
      by_order rank_after_settings.
      intros s0 Hs. destruct s0; cbn [rank] in Hs; try lia;
        apply Hb; cbn; tauto.
  - pose proof (proj1 Hp) as Ht.
    destruct (top_level_fields _ Ht) as (gs0 & ac0 & fl & G & A & F).
    unfold_passed. same_fields.
    cbn [rank]. by_order rank_after_global_settings.
  - pose proof (proj1 (proj1 Hp)) as Ht.
    destruct (top_level_fields _ Ht) as (gs0 & ac0 & fl0 & G & A & F).
    unfold_passed. same_fields.
    cbn [rank]. by_order rank_after_agent_config.
  - pose proof (proj1 (proj1 Hp)) as Ht.
    destruct (top_level_fields _ Ht) as (gs0 & ac0 & fl0 & G & A & F).
    assert (Hflow : has_fields fl flow_fields = true).
    { cbn. now rewrite (field_has_field _ _ _ Hs),
        (field_has_field _ _ _ Ha). }
    unfold_passed. same_fields.
    cbn [rank]. by_order rank_after_flow_fields.
  - assert (Hr : rank v = 8).
    { apply first_stage_violation_occurs in Hv.
      exact (stage_violation_rank _ _ _ _ Hv). }
    rewrite Hr.
    pose proof (proj1 (proj1 Hp)) as Ht.
    destruct (top_level_fields _ Ht) as (gs0 & ac0 & fl0 & G & A & F).
    assert (Hflow : has_fields fl flow_fields = true).
    { cbn. now rewrite (field_has_field _ _ _ Hs),
        (field_has_field _ _ _ Ha). }
    unfold_passed. same_fields.
    by_order rank_after_start_stage.
Qed.

Lemma message_names_its_parts_as_substrings (v : violation) (part : string) :
  In part (named_parts v) -> occurs_in part (message v).
Proof.
  intros H. apply contains_occurs_in. now apply message_names_its_parts.
Qed.

Lemma settings_message_has_no_field_name (s : settings) (name : string) :
  In name (settings_fields s) ->
  ~ occurs_in name (message (IncompleteSettings s)).
Proof.
  intros H Hocc. apply contains_occurs_in in Hocc.
  rewrite (settings_message_names_no_field s name H) in Hocc. discriminate.
Qed.

(** C8 (as amended).  On a document of the schema's types (the sections and
    the stages JSON objects, [next_stages] arrays of objects, the stage
    references strings) [_validate_config] accepts the document exactly when
    it is structurally complete: the three top-level keys; the three settings
    sections with their sub-fields; name and base_instructions of
    agent_config; start_stage and stages of flow, start_stage a key of
    stages; id, name, prompt and completion_criteria of every stage; stage_id
    and condition of every next_stages entry, every stage_id other than "END"
    a key of stages.  On such a document that is not complete it raises the
    [ValueError] of the first violation in the order of the checks: what is
    checked before it is complete, down to the key within a section, the
    stage within the document and the entry within the stage.  That
    violation is one the document has, it is the only first one, and no
    violation of an earlier check is there.  The message holds, as
    substrings, the name of the missing key, section or field and the id of
    the stage and of the unknown target where there is one; for a settings
    section that lacks a sub-field it holds the label of the section and
    does not say which sub-field is missing. *)
Theorem C8_validate_config_accepts_complete_documents :
  (forall config,
     schema_typed config = true ->
     (_validate_config config = Ok tt <-> structurally_complete config))
  /\ (forall config,
        schema_typed config = true ->
        ~ structurally_complete config ->
        exists v,
          _validate_config config = Raise (ValueError (message v))
          /\ first_violation config v
          /\ occurs config v
          /\ forall v', occurs config v' -> rank v <= rank v')
  /\ (forall config v v',
        first_violation config v -> first_violation config v' -> v = v')
  /\ (forall config v, occurs config v -> ~ structurally_complete config)
  /\ (forall v part,
        In part (named_parts v) -> occurs_in part (message v))
  /\ (forall s name,
        In name (settings_fields s) ->
        ~ occurs_in name (message (IncompleteSettings s))).
Proof.
  split; [intros config _; apply validate_config_ok_iff|].
  split.
  { intros config Ht Hn.
    destruct (_validate_config config) as [[]|e] eqn:E.
    - exfalso. apply Hn. now apply validate_config_ok_iff.
    - destruct (validate_config_first config e Ht E) as (v & -> & Hv).
      exists v. split; [reflexivity|]. split; [assumption|].
      split; [now apply first_violation_occurs|].
      intros v'. now apply first_violation_rank. }
  split; [exact first_violation_unique|].
  split; [exact occurs_not_complete|].
  split; [exact message_names_its_parts_as_substrings|].
  exact settings_message_has_no_field_name.
Qed.

Lemma C8_validate_config_accepts_complete_documents_witness :
  _validate_config Sample.document = Ok tt
  /\ exists v,
       _validate_config Sample.document_with_unknown_target
       = Raise (ValueError (message v))
       /\ first_violation Sample.document_with_unknown_target v.
Proof.
  destruct C8_validate_config_accepts_complete_documents as (Hiff & Herr & _).
  split.
  - reflexivity.
  - destruct (Herr Sample.document_with_unknown_target eq_refl)
      as (v & Hv & Hfirst & _).
    + intros Hc.
      apply (Hiff Sample.document_with_unknown_target eq_refl) in Hc.
      discriminate.
    + now exists v.
Defined.

(** C8 as stated fails where it says that the error names the missing
    field: the LLM settings of the sample document lack "model", and the
    message of the error holds none of the names of the sub-fields. *)
Lemma C8_missing_settings_field_is_not_named :
  schema_typed Sample.document_without_model = true
  /\ (exists global_settings llm,
        field Sample.document_without_model "global_settings"
        = Some global_settings
        /\ field global_settings "llm_settings" = Some llm
        /\ has_field llm "model" = false)
  /\ _validate_config Sample.document_without_model
     = Raise (ValueError "LLM settings missing required fields")
  /\ forallb
       (fun name =>
          negb (PyStr.contains name "LLM settings missing required fields"))
       (settings_fields LLM) = true.
Proof.
  split; [reflexivity|]. split.
  - eexists. eexists. split; [reflexivity|]. split; reflexivity.
  - split; reflexivity.
Qed.

(* ----------------------------------------------------------------- *)
(** ** The id of a stage and its key *)

Lemma get_set_other {A} (k k' : string) (v : A) (d : PyDict.t A) :
  k <> k' -> PyDict.get k (PyDict.set k' v d) = PyDict.get k d.
Proof.
  intros Hne. induction d as [|[k0 v0] d IH]; simpl.
  - apply String.eqb_neq in Hne. now rewrite Hne.
  - destruct (String.eqb k' k0) eqn:E; simpl.
    + apply String.eqb_eq in E. subst k0.
      apply String.eqb_neq in Hne. now rewrite Hne.
    + now rewrite IH.
Qed.

Lemma get_set_same {A} (k : string) (v : A) (d : PyDict.t A) :
  PyDict.get k (PyDict.set k v d) = Some v
  \/ exists v', PyDict.get k (PyDict.set k v d) = Some v'.
Proof.
  induction d as [|[k0 v0] d IH]; simpl.
  - rewrite String.eqb_refl. now left.
  - destruct (String.eqb k k0) eqn:E; simpl; rewrite E; [now left | exact IH].
Qed.

Lemma mem_set {A} (k k' : string) (v : A) (d : PyDict.t A) :
  PyDict.mem k (PyDict.set k' v d) = String.eqb k k' || PyDict.mem k d.
Proof.
  destruct (String.eqb k k') eqn:E.
  - apply String.eqb_eq in E. subst k'. rewrite mem_get.
    destruct (get_set_same k v d) as [->|[v' ->]]; reflexivity.
  - apply String.eqb_neq in E. rewrite !mem_get, get_set_other by assumption.
    reflexivity.
Qed.

Lemma find_ext {A} (f g : A -> bool) (l : list A) :
  (forall x, f x = g x) -> find f l = find g l.
Proof.
  intros H. induction l as [|x l IH]; simpl; [reflexivity|].
  now rewrite H, IH.
Qed.

(** [_validate_stage] looks for the key "id" and never at its value. *)
Lemma validate_stage_ignores_id (stage_id : string) (d : PyDict.t json)
    (v1 v2 : json) (all_stages : PyDict.t json) :
  _validate_stage stage_id (JDict (PyDict.set "id" v1 d)) all_stages
  = _validate_stage stage_id (JDict (PyDict.set "id" v2 d)) all_stages.
Proof.
  unfold _validate_stage. rewrite !require_keys_dict.
  rewrite (find_ext (fun key => negb (PyDict.mem key (PyDict.set "id" v1 d)))
             (fun key => negb (PyDict.mem key (PyDict.set "id" v2 d))))
    by (intros x; now rewrite !mem_set).
  cbn [py_in py_getitem]. unfold getitem.
  rewrite !mem_set, !get_set_other by discriminate. reflexivity.
Qed.

(** C9 (as amended).  On a document of the schema's types load-time
    validation guarantees that every stage has an "id" field, and nothing
    about its value: [_validate_stage] gives the same result whatever value
    the field holds, equal to the stage's key or not. *)
Theorem C9_validation_checks_presence_of_id_only :
  (forall config flow all_stages stage_id stage,
     schema_typed config = true ->
     _validate_config config = Ok tt ->
     field config "flow" = Some flow ->
     field flow "stages" = Some (JDict all_stages) ->
     In (stage_id, stage) all_stages ->
     has_field stage "id" = true)
  /\ (forall stage_id d v1 v2 all_stages,
        _validate_stage stage_id (JDict (PyDict.set "id" v1 d)) all_stages
        = _validate_stage stage_id (JDict (PyDict.set "id" v2 d)) all_stages).
Proof.
  split; [|exact validate_stage_ignores_id].
  intros config flow all_stages stage_id stage _ Hok Hf Hs Hin.
  apply validate_config_ok_iff in Hok.
  destruct Hok as (gs & ac & fl & _ & _ & Hfl & _ & _ & Hflow).
  rewrite Hf in Hfl. injection Hfl as <-.
  destruct Hflow as (start & all & _ & Hall & _ & Hstages).
  rewrite Hs in Hall. injection Hall as <-.
  destruct (Hstages stage_id stage Hin) as [Hfields _].
  unfold has_fields in Hfields. rewrite forallb_forall in Hfields.
  apply Hfields. now left.
Qed.

Lemma C9_validation_checks_presence_of_id_only_witness :
  has_field (Sample.stage_document "welcome" [("billing", "bill payment")])
    "id" = true
  /\ _validate_stage "greeting"
       (JDict (PyDict.set "id" (JStr "welcome") [("name", JStr "A stage")]))
       []
     = _validate_stage "greeting"
         (JDict (PyDict.set "id" (JStr "greeting") [("name", JStr "A stage")]))
         [].
Proof.
  destruct C9_validation_checks_presence_of_id_only as [Hid Hsame].
  split.
  - apply (Hid Sample.document_with_other_id
             (JDict [("start_stage", JStr "greeting");
                     ("stages",
                      JDict [("greeting",
                              Sample.stage_document "welcome"
                                [("billing", "bill payment")]);
                             ("billing",
                              Sample.stage_document "billing"
                                [("END", "done")])])])
             [("greeting",
               Sample.stage_document "welcome" [("billing", "bill payment")]);
              ("billing", Sample.stage_document "billing" [("END", "done")])]
             "greeting"
             (Sample.stage_document "welcome" [("billing", "bill payment")]));
      [reflexivity | reflexivity | reflexivity | reflexivity | now left].
  - apply Hsame.
Defined.

(** C9 as stated fails: the sample document stores under the key "greeting"
    a stage whose id is "welcome", and the validator accepts it. *)
Lemma C9_stage_id_may_differ_from_key :
  (exists flow all_stages stage,
     field Sample.document_with_other_id "flow" = Some flow
     /\ field flow "stages" = Some (JDict all_stages)
     /\ PyDict.get "greeting" all_stages = Some stage
     /\ field stage "id" = Some (JStr "welcome"))
  /\ "welcome" <> "greeting"
  /\ _validate_config Sample.document_with_other_id = Ok tt.
Proof.
  split.
  - do 3 eexists. repeat split; reflexivity.
  - split; [discriminate | reflexivity].
Qed.

(* ================================================================= *)
(** * Part III: further properties *)

(* ----------------------------------------------------------------- *)
(** ** The four ways [_enter_stage] ends *)

Lemma enter_stage_no_greeting (self : Agent.t) (stage_id now : string)
    (w : World) (stage : Stage.t) :
  PyDict.get stage_id (Agent.stages self) = Some stage ->
  Stage.greeting stage = None ->
  _enter_stage self stage_id now w
  = (Raise (KeyError "greeting"), half_entered w stage_id stage).
Proof.
  intros Hget Hg. exec. unfold PyDict.mem, getitem. rewrite Hget. simpl.
  unfold half_entered, merged_context.
  destruct (Stage.context_updates stage); simpl; rewrite Hg; reflexivity.
Qed.

Lemma enter_stage_no_description (self : Agent.t) (stage_id now : string)
    (w : World) (stage : Stage.t) (greeting_text : string) :
  PyDict.get stage_id (Agent.stages self) = Some stage ->
  Stage.greeting stage = Some greeting_text ->
  Stage.description stage = None ->
  _enter_stage self stage_id now w
  = (Raise (KeyError "description"), half_entered w stage_id stage).
Proof.
  intros Hget Hg Hd. exec. unfold PyDict.mem, getitem. rewrite Hget. simpl.
  unfold half_entered, merged_context.
  destruct (Stage.context_updates stage); simpl; rewrite Hg; simpl;
    rewrite Hd; reflexivity.
Qed.

Lemma enter_stage_outcome (self : Agent.t) (stage_id now : string) (w : World) :
  enter_outcome self stage_id now w (_enter_stage self stage_id now w).
Proof.
  destruct (PyDict.get stage_id (Agent.stages self)) as [stage|] eqn:Hget.
  - destruct (Stage.greeting stage) as [g|] eqn:Hg.
    + destruct (Stage.description stage) as [d|] eqn:Hd.
      * rewrite (enter_stage_known _ _ _ _ _ _ _ Hget Hg Hd).
        now apply eo_entered.
      * rewrite (enter_stage_no_description _ _ _ _ _ _ Hget Hg Hd).
        apply eo_failed; [assumption|]. unfold readable. now rewrite Hg, Hd.
    + rewrite (enter_stage_no_greeting _ _ _ _ _ Hget Hg).
      apply eo_failed; [assumption|]. unfold readable. now rewrite Hg.
  - assert (Hm : PyDict.mem stage_id (Agent.stages self) = false)
      by (unfold PyDict.mem; now rewrite Hget).
    rewrite (enter_stage_unknown _ _ _ _ Hm). now apply eo_unknown.
Qed.

(* ----------------------------------------------------------------- *)
(** ** The ways an operation ends *)

Lemma move_outcome (self : Agent.t) (target now : string) (w : World) :
  operation_outcome self now w (move_to_next_stage self target now w).
Proof.
  unfold move_to_next_stage, bind, get_userdata, lift.
  destruct (String.eqb target "END"); [apply (oo_event _ _ _ (Say _))|].
  destruct (PyDict.mem target (UserData.stages (userdata w))) eqn:Hm;
    cbn [negb]; [|apply (oo_event _ _ _ (ErrTargetStageNotFound _))].
  destruct (getitem _ _) as [cs|e]; [|apply oo_nothing].
  destruct (negb (str_in target (valid_transitions_of cs)) && _);
    [apply (oo_event _ _ _ (WarnInvalidTransition _ _ _))|].
  now apply oo_enter.
Qed.

Lemma operation_has_outcome (self : Agent.t) (now : string) (op : operation)
    (w : World) :
  operation_outcome self now w (run_operation self now op w).
Proof.
  destruct op as [msg|target|reason|]; cbn [run_operation].
  - apply oo_speech.
  - apply move_outcome.
  - unfold complete_current_stage, bind, get_userdata, lift.
    destruct (_find_next_stage _ _ _ _) as [[target|]|e];
      try apply oo_nothing.
    destruct (truthy target); [apply move_outcome | apply oo_nothing].
  - unfold end_conversation, bind, get_userdata, lift.
    destruct (getitem _ _) as [cs|e]; [|apply oo_nothing].
    destruct (str_in "completion" _); [apply move_outcome|].
    destruct (str_in "goodbye" _); [apply move_outcome|].
    destruct (PyDict.mem "goodbye" (UserData.stages (userdata w))) eqn:Hg;
      [now apply oo_enter | apply (oo_event _ _ _ (Say _))].
Qed.

(** What holds of a world and survives an event, a stage entry and a user
    utterance survives every sequence of operations. *)
Lemma operations_preserve (self : Agent.t) (P : World -> Prop) :
  (forall w e, P w -> P (with_event w e)) ->
  (forall w target now,
     P w -> PyDict.mem target (UserData.stages (userdata w)) = true ->
     P (snd (_enter_stage self target now w))) ->
  (forall w user_msg now,
     P w -> P (snd (on_user_speech_committed user_msg now w))) ->
  forall ops w, P w -> P (run_operations self ops w).
Proof.
  intros Hevent Henter Hspeech.
  induction ops as [|[op now] ops IH]; intros w Hw; [exact Hw|].
  cbn [run_operations]. apply IH.
  destruct (operation_has_outcome self now op w); cbn [snd]; auto.
Qed.

(* ----------------------------------------------------------------- *)
(** ** What the operations keep *)

Lemma grows_refl (w : World) : grows w w.
Proof.
  repeat split; exists []; now rewrite app_nil_r.
Qed.

Lemma grows_trans (w1 w2 w3 : World) : grows w1 w2 -> grows w2 w3 -> grows w1 w3.
Proof.
  intros ([h1 H1] & [c1 C1] & [t1 T1]) ([h2 H2] & [c2 C2] & [t2 T2]).
  repeat split.
  - exists (h1 ++ h2)%list. now rewrite H2, H1, app_assoc.
  - exists (c1 ++ c2)%list. now rewrite C2, C1, app_assoc.
  - exists (t1 ++ t2)%list. now rewrite T2, T1, app_assoc.
Qed.

Lemma enter_stage_grows (self : Agent.t) (stage_id now : string) (w : World) :
  grows w (snd (_enter_stage self stage_id now w)).
Proof.
  destruct (enter_stage_outcome self stage_id now w); cbn [snd];
    repeat split;
    first [exists []; cbn; now rewrite app_nil_r | eexists; reflexivity].
Qed.

Lemma operation_grows (self : Agent.t) (now : string) (op : operation)
    (w : World) :
  grows w (snd (run_operation self now op w)).
Proof.
  destruct (operation_has_outcome self now op w); cbn [snd].
  - apply grows_refl.
  - repeat split;
      first [exists []; cbn; now rewrite app_nil_r | eexists; reflexivity].
  - apply enter_stage_grows.
  - repeat split;
      first [exists []; cbn; now rewrite app_nil_r | eexists; reflexivity].
Qed.

(** X1.  History, chat context and trace are append-only: whatever the
    operations and however they end, what a world held of the three is an
    initial segment of what it holds afterwards; [on_enter] keeps them
    likewise. *)
Theorem history_chat_and_trace_only_grow (self : Agent.t) (now : string)
    (ops : list (operation * string)) (w : World) :
  grows w (run_operations self ops w)
  /\ grows w (snd (on_enter self now w)).
Proof.
  split.
  - revert w. induction ops as [|[op t] ops IH]; intros w;
      [apply grows_refl|].
    cbn [run_operations].
    exact (grows_trans _ _ _ (operation_grows self t op w) (IH _)).
  - unfold on_enter, bind, get_userdata, put_userdata. cbn [fst snd].
    match goal with
    | |- grows _ (snd (_enter_stage _ _ _ ?w0)) =>
        apply (grows_trans _ w0);
          [repeat split; exists []; cbn; now rewrite app_nil_r
          |apply enter_stage_grows]
    end.
Qed.

Lemma get_set_eq {A} (k : string) (v : A) (d : PyDict.t A) :
  PyDict.get k (PyDict.set k v d) = Some v.
Proof.
  induction d as [|[k0 v0] d IH]; simpl.
  - now rewrite String.eqb_refl.
  - destruct (String.eqb k k0) eqn:E; simpl; rewrite E; [reflexivity | exact IH].
Qed.

Lemma get_last {A} (k : string) (d : PyDict.t A) (k0 : string) (v0 : A) :
  PyDict.get k (d ++ [(k0, v0)])%list
  = match PyDict.get k d with
    | Some v => Some v
    | None => if String.eqb k k0 then Some v0 else None
    end.
Proof.
  induction d as [|[k1 v1] d IH]; simpl; [reflexivity|].
  now destruct (String.eqb k k1).
Qed.

(** Lookup after [d.update(updates)]: the last value the updates give the
    key, else what the dictionary had. *)
Lemma get_update {A} (k : string) (d updates : PyDict.t A) :
  PyDict.get k (PyDict.update d updates)
  = match last_value k updates with
    | Some v => Some v
    | None => PyDict.get k d
    end.
Proof.
  unfold PyDict.update, last_value. revert d.
  induction updates as [|[k0 v0] u IH]; intros d; [reflexivity|].
  cbn [fold_left fst snd rev]. rewrite IH, get_last.
  destruct (PyDict.get k (rev u)); [reflexivity|].
  destruct (String.eqb k k0) eqn:E.
  - apply String.eqb_eq in E. subst k0. apply get_set_eq.
  - apply String.eqb_neq in E. now apply get_set_other.
Qed.

Lemma mem_update_keeps {A} (k : string) (d updates : PyDict.t A) :
  PyDict.mem k d = true -> PyDict.mem k (PyDict.update d updates) = true.
Proof.
  rewrite !mem_get, get_update.
  destruct (last_value k updates); [reflexivity | trivial].
Qed.

Lemma enter_stage_keeps_keys (self : Agent.t) (stage_id now : string)
    (w : World) :
  keeps_keys w (snd (_enter_stage self stage_id now w)).
Proof.
  assert (Hm : forall stage key,
            PyDict.mem key (UserData.context (userdata w)) = true ->
            PyDict.mem key
              (merged_context stage (UserData.context (userdata w))) = true).
  { intros stage key H. unfold merged_context.
    destruct (Stage.context_updates stage); [now apply mem_update_keeps | exact H]. }
  destruct (enter_stage_outcome self stage_id now w); cbn [snd];
    intros k Hk; cbn; auto.
Qed.

(** X2.  The context is never cleared: a key of the context stays a key of the
    context through every sequence of operations, whether the calls return or
    raise. *)
Theorem context_keys_are_never_removed (self : Agent.t)
    (ops : list (operation * string)) (w : World) (key : string) :
  PyDict.mem key (UserData.context (userdata w)) = true ->
  PyDict.mem key (UserData.context (userdata (run_operations self ops w)))
  = true.
Proof.
  intros Hk.
  apply (operations_preserve self
           (fun w' => PyDict.mem key (UserData.context (userdata w')) = true));
    auto.
  intros w0 target now H0 _. now apply enter_stage_keeps_keys.
Qed.

Lemma context_keys_are_never_removed_witness :
  PyDict.mem "user_name"
    (UserData.context
       (userdata
          (run_operations Sample.agent
             [(OpMoveToNextStage "billing", "t1"); (OpEndConversation, "t2")]
             Sample.started))) = true.
Proof.
  apply (context_keys_are_never_removed Sample.agent). reflexivity.
Defined.

(* ----------------------------------------------------------------- *)
(** ** The context after a stage entry *)

Lemma enter_stage_context (self : Agent.t) (stage_id now : string) (w : World)
    (stage : Stage.t) :
  PyDict.get stage_id (Agent.stages self) = Some stage ->
  UserData.context (userdata (snd (_enter_stage self stage_id now w)))
  = merged_context stage (UserData.context (userdata w)).
Proof.
  intros Hget.
  destruct (enter_stage_outcome self stage_id now w) as [Hm|s k Hs _|s g d Hs _ _];
    cbn [snd].
  - unfold PyDict.mem in Hm. rewrite Hget in Hm. discriminate.
  - rewrite Hget in Hs. now injection Hs as <-.
  - rewrite Hget in Hs. now injection Hs as <-.
Qed.

(** X3.  The merge of a stage's context updates: after [_enter_stage] on a
    stage of the graph, however the call ends, a key the updates name has the
    last value they give it, and every other key has what it had. *)
Theorem enter_stage_merges_context_updates
    (self : Agent.t) (stage_id now : string) (w : World) (stage : Stage.t)
    (key : string) :
  PyDict.get stage_id (Agent.stages self) = Some stage ->
  PyDict.get key
    (UserData.context (userdata (snd (_enter_stage self stage_id now w))))
  = match Stage.context_updates stage with
    | Some updates =>
        match last_value key updates with
        | Some value => Some value
        | None => PyDict.get key (UserData.context (userdata w))
        end
    | None => PyDict.get key (UserData.context (userdata w))
    end.
Proof.
  intros Hget. rewrite (enter_stage_context _ _ _ _ _ Hget).
  unfold merged_context.
  destruct (Stage.context_updates stage); [apply get_update | reflexivity].
Qed.

Lemma enter_stage_merges_context_updates_witness :
  let w' := snd (_enter_stage Sample.agent "billing" "t1" Sample.started) in
  PyDict.get "department" (UserData.context (userdata w'))
  = Some (JStr "billing")
  /\ PyDict.get "user_name" (UserData.context (userdata w'))
     = PyDict.get "user_name" (UserData.context (userdata Sample.started)).
Proof.
  split.
  - exact (enter_stage_merges_context_updates Sample.agent "billing" "t1"
             Sample.started Sample.billing "department" eq_refl).
  - exact (enter_stage_merges_context_updates Sample.agent "billing" "t1"
             Sample.started Sample.billing "user_name" eq_refl).
Defined.

(* ----------------------------------------------------------------- *)
(** ** A stage without greeting or description *)



(* ----------------------------------------------------------------- *)
(** ** No [KeyError] in a readable graph *)

Lemma get_In {A} (k : string) (d : PyDict.t A) (v : A) :
  PyDict.get k d = Some v -> exists k', In (k', v) d.
Proof.
  induction d as [|[k0 v0] d IH]; simpl; [discriminate|].
  destruct (String.eqb k k0).
  - intros [= <-]. exists k0. now left.
  - intros H. destruct (IH H) as [k' Hk]. exists k'. now right.
Qed.

Lemma getitem_current (self : Agent.t) (w : World) :
  UserData.stages (userdata w) = Agent.stages self ->
  PyDict.mem (UserData.current_stage_id (userdata w)) (Agent.stages self)
  = true ->
  exists current_stage,
    getitem (Agent.stages self) (UserData.current_stage_id (userdata w))
    = Ok current_stage.
Proof.
  intros _ Hm. unfold getitem. rewrite mem_get in Hm.
  destruct (PyDict.get _ _) as [cs|]; [eauto | discriminate].
Qed.

Lemma enter_stage_result (self : Agent.t) (stage_id now : string) (w : World) :
  fst (_enter_stage self stage_id now w) = Ok tt
  \/ exists stage,
       PyDict.get stage_id (Agent.stages self) = Some stage
       /\ readable stage = false
       /\ fst (_enter_stage self stage_id now w)
          = Raise (KeyError match Stage.greeting stage with
                            | None => "greeting"
                            | Some _ => "description"
                            end).
Proof.
  destruct (PyDict.get stage_id (Agent.stages self)) as [stage|] eqn:Hget.
  - destruct (Stage.greeting stage) as [g|] eqn:Hg.
    + destruct (Stage.description stage) as [d|] eqn:Hd.
      * left. now rewrite (enter_stage_known _ _ _ _ _ _ _ Hget Hg Hd).
      * right. exists stage. split; [reflexivity|].
        unfold readable. rewrite Hg, Hd. split; [reflexivity|].
        now rewrite (enter_stage_no_description _ _ _ _ _ _ Hget Hg Hd).
    + right. exists stage. split; [reflexivity|].
      unfold readable. rewrite Hg. split; [reflexivity|].
      now rewrite (enter_stage_no_greeting _ _ _ _ _ Hget Hg).
  - left.
    assert (Hm : PyDict.mem stage_id (Agent.stages self) = false)
      by (unfold PyDict.mem; now rewrite Hget).
    now rewrite (enter_stage_unknown _ _ _ _ Hm).
Qed.

Lemma operation_result (self : Agent.t) (now : string) (op : operation)
    (w : World) :
  session_ok self w ->
  fst (run_operation self now op w) = Ok tt
  \/ exists stage_id stage,
       PyDict.get stage_id (Agent.stages self) = Some stage
       /\ readable stage = false
       /\ fst (run_operation self now op w)
          = Raise (KeyError match Stage.greeting stage with
                            | None => "greeting"
                            | Some _ => "description"
                            end).
Proof.
  intros [Hst Hcur].
  destruct (getitem_current self w Hst Hcur) as [cs Hcs].
  assert (Henter : forall target,
            fst (_enter_stage self target now w) = Ok tt
            \/ exists stage_id stage,
                 PyDict.get stage_id (Agent.stages self) = Some stage
                 /\ readable stage = false
                 /\ fst (_enter_stage self target now w)
                    = Raise (KeyError match Stage.greeting stage with
                                      | None => "greeting"
                                      | Some _ => "description"
                                      end)).
  { intros target.
    destruct (enter_stage_result self target now w) as [H|(stage & H)];
      [now left | right; now exists target, stage]. }
  assert (Hmove : forall target,
            fst (move_to_next_stage self target now w) = Ok tt
            \/ exists stage_id stage,
                 PyDict.get stage_id (Agent.stages self) = Some stage
                 /\ readable stage = false
                 /\ fst (move_to_next_stage self target now w)
                    = Raise (KeyError match Stage.greeting stage with
                                      | None => "greeting"
                                      | Some _ => "description"
                                      end)).
  { intros target.
    unfold move_to_next_stage, bind, get_userdata, lift.
    destruct (String.eqb target "END"); [now left|].
    destruct (PyDict.mem target _); cbn [negb]; [|now left].
    rewrite Hst, Hcs.
    destruct (negb (str_in target (valid_transitions_of cs)) && _);
      [now left | apply Henter]. }
  destruct op as [msg|target|reason|]; cbn [run_operation].
  - now left.
  - apply Hmove.
  - unfold complete_current_stage, bind, get_userdata, lift,
      _find_next_stage.
    rewrite Hcs. destruct (Stage.next_stages cs) as [l|]; [|now left].
    destruct (first_match _ _) as [target|]; [|now left].
    destruct (truthy target); [apply Hmove | now left].
  - unfold end_conversation, bind, get_userdata, lift.
    rewrite Hst, Hcs.
    destruct (str_in "completion" _); [apply Hmove|].
    destruct (str_in "goodbye" _); [apply Hmove|].
    destruct (PyDict.mem "goodbye" _); [apply Henter | now left].
Qed.

Lemma readable_in_graph (stages : PyDict.t Stage.t) (stage_id : string)
    (stage : Stage.t) :
  graph_readable stages = true ->
  PyDict.get stage_id stages = Some stage ->
  readable stage = true.
Proof.
  intros Hg Hs. destruct (get_In _ _ _ Hs) as [k' Hin].
  unfold graph_readable in Hg. rewrite forallb_forall in Hg.
  exact (Hg _ Hin).
Qed.

(** X5.  The only [KeyError] an operation on an entered session raises is
    for the key "greeting" or "description" of a stage of the graph that
    lacks it: every other key the operations read with a subscript is there.
    So in a graph whose stages all have a greeting and a description no call
    of any sequence of operations raises [KeyError]. *)
Theorem operations_raise_no_key_error_in_readable_graph
    (self : Agent.t) (ops : list (operation * string)) (w : World) :
  session_ok self w ->
  Forall
    (fun r =>
       forall key,
         r = Raise (KeyError key) ->
         graph_readable (Agent.stages self) = false
         /\ exists stage_id stage,
              PyDict.get stage_id (Agent.stages self) = Some stage
              /\ readable stage = false
              /\ key = match Stage.greeting stage with
                       | None => "greeting"
                       | Some _ => "description"
                       end)
    (run_results self ops w).
Proof.
  intros Hok. revert w Hok.
  induction ops as [|[op now] ops IH]; intros w Hok; cbn [run_results];
    constructor.
  - intros key Hkey.
    destruct (operation_result self now op w Hok)
      as [H|(stage_id & stage & Hget & Hr & H)];
      rewrite H in Hkey; [discriminate|].
    injection Hkey as <-. split.
    + destruct (graph_readable (Agent.stages self)) eqn:Hg; [|reflexivity].
      rewrite (readable_in_graph _ _ _ Hg Hget) in Hr. discriminate.
    + exists stage_id, stage. split; [assumption|]. now split.
  - apply IH. now apply run_operation_session_ok.
Qed.

Lemma operations_raise_no_key_error_in_readable_graph_witness :
  Forall (fun r => forall key, r <> Raise (KeyError key))
    (run_results Sample.agent
       [(OpUserSpeech "hello", "t1");
        (OpCompleteCurrentStage "a bill payment", "t2");
        (OpMoveToNextStage "greeting", "t3");
        (OpEndConversation, "t4")]
       Sample.started).
Proof.
  assert (Hok : session_ok Sample.agent Sample.started) by (split; reflexivity).
  refine (Forall_impl _ _
            (operations_raise_no_key_error_in_readable_graph Sample.agent
               [(OpUserSpeech "hello", "t1");
                (OpCompleteCurrentStage "a bill payment", "t2");
                (OpMoveToNextStage "greeting", "t3");
                (OpEndConversation, "t4")]
               Sample.started Hok)).
  intros r H key Hr. destruct (H key Hr) as [Hg _]. discriminate Hg.
Defined.

(* ----------------------------------------------------------------- *)
(** ** The history *)

Lemma get_mem_true {A} (k : string) (d : PyDict.t A) (v : A) :
  PyDict.get k d = Some v -> PyDict.mem k d = true.
Proof. rewrite mem_get. now intros ->. Qed.

Lemma enter_stage_history_ok (self : Agent.t) (stage_id now : string)
    (w : World) :
  history_ok self w ->
  history_ok self (snd (_enter_stage self stage_id now w)).
Proof.
  unfold history_ok. intros H.
  destruct (enter_stage_outcome self stage_id now w) as [|s k Hs _|s g d Hs _ _];
    cbn; try assumption.
  apply Forall_app. split; [assumption|].
  constructor; [|constructor]. split; cbn.
  - now apply (get_mem_true _ _ _ Hs).
  - now right.
Qed.

(** X6.  Every entry of the history is a user or an assistant entry and
    carries the id of a stage of the graph: this holds of a session from the
    moment the agent enters it at a start stage of the graph, through every
    sequence of operations. *)
Theorem history_entries_belong_to_stages_of_the_graph
    (self : Agent.t) (now : string) (ops : list (operation * string))
    (w : World) :
  PyDict.mem (Agent.start_stage_id self) (Agent.stages self) = true ->
  history_ok self w ->
  history_ok self (run_operations self ops (snd (on_enter self now w))).
Proof.
  intros Hstart Hh.
  assert (H0 : session_ok self (snd (on_enter self now w))
               /\ history_ok self (snd (on_enter self now w))).
  { unfold on_enter, bind, get_userdata, put_userdata. cbn [fst snd]. split.
    - apply enter_stage_session_ok; [reflexivity | exact Hstart].
    - apply enter_stage_history_ok. exact Hh. }
  apply (operations_preserve self
           (fun w' => session_ok self w' /\ history_ok self w'));
    [| | |exact H0].
  - intros w0 e H. exact H.
  - intros w0 target t [[Hst Hcur] Hhist] Hm. split.
    + apply enter_stage_session_ok; [assumption | now rewrite <- Hst].
    + now apply enter_stage_history_ok.
  - intros w0 msg t [[Hst Hcur] Hhist]. split; [now split|].
    unfold history_ok in *. cbn. apply Forall_app. split; [assumption|].
    constructor; [|constructor]. split; cbn; [assumption | now left].
Qed.

Lemma history_entries_belong_to_stages_of_the_graph_witness :
  history_ok Sample.agent
    (run_operations Sample.agent
       [(OpUserSpeech "I need to pay my bill", "t1");
        (OpCompleteCurrentStage "bill payment", "t2");
        (OpUserSpeech "thanks", "t3")]
       (snd (on_enter Sample.agent "t0" Sample.fresh))).
Proof.
  apply (history_entries_belong_to_stages_of_the_graph Sample.agent);
    [reflexivity | constructor].
Defined.






(* ----------------------------------------------------------------- *)
(** ** A current stage that is not in the graph *)

Lemma lost_operation (self : Agent.t) (now : string) (op : operation)
    (w : World) :
  UserData.stages (userdata w) = Agent.stages self ->
  PyDict.mem (UserData.current_stage_id (userdata w)) (Agent.stages self)
  = false ->
  (exists r, run_operation self now op w = (r, w))
  \/ (exists e, run_operation self now op w = (Ok tt, with_event w e))
  \/ (exists user_msg,
        run_operation self now op w = on_user_speech_committed user_msg now w).
Proof.
  intros Hst Hcur.
  assert (Hget : getitem (Agent.stages self)
                   (UserData.current_stage_id (userdata w))
                 = Raise (KeyError (UserData.current_stage_id (userdata w)))).
  { unfold getitem. rewrite mem_get in Hcur.
    destruct (PyDict.get _ _); [discriminate | reflexivity]. }
  assert (Hmove : forall target,
            (exists r, move_to_next_stage self target now w = (r, w))
            \/ (exists e,
                  move_to_next_stage self target now w
                  = (Ok tt, with_event w e))).
  { intros target. unfold move_to_next_stage, bind, get_userdata, lift.
    destruct (String.eqb target "END"); [right; eexists; reflexivity|].
    destruct (PyDict.mem target _); cbn [negb];
      [|right; eexists; reflexivity].
    rewrite Hst, Hget. left. eexists. reflexivity. }
  destruct op as [msg|target|reason|]; cbn [run_operation].
  - right. right. now exists msg.
  - destruct (Hmove target) as [H|H]; [now left | right; now left].
  - left. unfold complete_current_stage, bind, get_userdata, lift,
      _find_next_stage.
    rewrite Hget. eexists. reflexivity.
  - left. unfold end_conversation, bind, get_userdata, lift.
    rewrite Hst, Hget. eexists. reflexivity.
Qed.

(** X8.  A current stage that is not a key of the graph is never repaired:
    from such a session no sequence of operations changes the current stage,
    the context or the chat context; [complete_current_stage] and
    [end_conversation] raise [KeyError], and so does [move_to_next_stage] for
    every stage of the graph. *)
Theorem lost_session_is_never_repaired
    (self : Agent.t) (ops : list (operation * string)) (w : World) :
  UserData.stages (userdata w) = Agent.stages self ->
  PyDict.mem (UserData.current_stage_id (userdata w)) (Agent.stages self)
  = false ->
  (UserData.current_stage_id (userdata (run_operations self ops w))
   = UserData.current_stage_id (userdata w)
   /\ UserData.context (userdata (run_operations self ops w))
      = UserData.context (userdata w)
   /\ chat_ctx (run_operations self ops w) = chat_ctx w)
  /\ (forall now reason,
        fst (complete_current_stage self reason now w)
        = Raise (KeyError (UserData.current_stage_id (userdata w))))
  /\ (forall now,
        fst (end_conversation self now w)
        = Raise (KeyError (UserData.current_stage_id (userdata w))))
  /\ (forall now target,
        PyDict.mem target (Agent.stages self) = true ->
        target <> "END" ->
        fst (move_to_next_stage self target now w)
        = Raise (KeyError (UserData.current_stage_id (userdata w)))).
Proof.
  intros Hst Hcur.
  assert (Hget : getitem (Agent.stages self)
                   (UserData.current_stage_id (userdata w))
                 = Raise (KeyError (UserData.current_stage_id (userdata w)))).
  { unfold getitem. rewrite mem_get in Hcur.
    destruct (PyDict.get _ _); [discriminate | reflexivity]. }
  split; [|split; [|split]].
  - revert w Hst Hcur Hget.
    induction ops as [|[op now] ops IH]; intros w Hst Hcur _;
      [repeat split|].
    cbn [run_operations].
    assert (Hstep :
      UserData.stages (userdata (snd (run_operation self now op w)))
      = UserData.stages (userdata w)
      /\ UserData.current_stage_id (userdata (snd (run_operation self now op w)))
         = UserData.current_stage_id (userdata w)
      /\ UserData.context (userdata (snd (run_operation self now op w)))
         = UserData.context (userdata w)
      /\ chat_ctx (snd (run_operation self now op w)) = chat_ctx w).
    { destruct (lost_operation self now op w Hst Hcur)
        as [[r ->]|[[e ->]|[msg ->]]]; repeat split. }
    destruct Hstep as (Hs & Hc & Hx & Hh).
    destruct (IH (snd (run_operation self now op w))) as (H1 & H2 & H3).
    + now rewrite Hs.
    + now rewrite Hc.
    + unfold getitem. rewrite Hc. rewrite mem_get in Hcur.
      destruct (PyDict.get _ _); [discriminate | reflexivity].
    + rewrite H1, H2, H3. repeat split; assumption.
  - intros now reason.
    unfold complete_current_stage, bind, get_userdata, lift, _find_next_stage.
    now rewrite Hget.
  - intros now. unfold end_conversation, bind, get_userdata, lift.
    now rewrite Hst, Hget.
  - intros now target Hm Hend. apply String.eqb_neq in Hend.
    unfold move_to_next_stage, bind, get_userdata, lift.
    now rewrite Hend, Hst, Hm, Hget.
Qed.

Lemma lost_session_is_never_repaired_witness :
  UserData.current_stage_id
    (userdata
       (run_operations Sample.agent
          [(OpMoveToNextStage "greeting", "t2");
           (OpCompleteCurrentStage "bill payment", "t3");
           (OpEndConversation, "t4")]
          SampleMore.lost)) = "nowhere"
  /\ fst (move_to_next_stage Sample.agent "billing" "t2" SampleMore.lost)
     = Raise (KeyError "nowhere").
Proof.
  destruct (lost_session_is_never_repaired Sample.agent
              [(OpMoveToNextStage "greeting", "t2");
               (OpCompleteCurrentStage "bill payment", "t3");
               (OpEndConversation, "t4")]
              SampleMore.lost eq_refl eq_refl)
    as ((Hcur & _) & _ & _ & Hmove).
  split; [exact Hcur|].
  apply (Hmove "t2" "billing"); [reflexivity | discriminate].
Defined.

(* ----------------------------------------------------------------- *)
(** ** The resolver and the user's words *)

Lemma lower_char_isspace (c : ascii) :
  PyStr.isspace (PyStr.lower_char c) = PyStr.isspace c.
Proof.
  destruct c as [[] [] [] [] [] [] [] []]; reflexivity.
Qed.

Lemma all_space_lower (s : string) :
  all_space (PyStr.lower s) = all_space s.
Proof.
  induction s as [|c s IH]; [reflexivity|].
  cbn [PyStr.lower all_space]. now rewrite lower_char_isspace, IH.
Qed.

Lemma split_all_space (s : string) :
  all_space s = true -> PyStr.split_from EmptyString s = [].
Proof.
  induction s as [|c s IH]; [reflexivity|].
  cbn [all_space PyStr.split_from]. intros H.
  apply andb_true_iff in H as [-> Hs]. now apply IH.
Qed.

Lemma append_nonempty (cur : string) (c : ascii) :
  (cur ++ String c EmptyString)%string <> EmptyString.
Proof. destruct cur; discriminate. Qed.

(** The words [split] gives are not empty. *)
Lemma split_from_nonempty (s cur keyword : string) :
  In keyword (PyStr.split_from cur s) -> keyword <> EmptyString.
Proof.
  revert cur. induction s as [|c s IH]; intros cur; cbn [PyStr.split_from].
  - destruct cur; [contradiction|]. intros [<-|[]]. discriminate.
  - destruct (PyStr.isspace c).
    + destruct cur as [|a cur]; [apply IH|].
      intros [<-|H]; [discriminate | now apply IH in H].
    + apply IH.
Qed.

Lemma contains_in_empty (keyword : string) :
  keyword <> EmptyString -> PyStr.contains keyword EmptyString = false.
Proof. destruct keyword; [contradiction | reflexivity]. Qed.

Lemma contains_inside (needle before hay after : string) :
  PyStr.contains needle hay = true ->
  PyStr.contains needle (before ++ hay ++ after) = true.
Proof.
  intros H. apply contains_inv in H as (pre & post & ->).
  replace (before ++ (pre ++ needle ++ post) ++ after)%string
    with ((before ++ pre) ++ needle ++ (post ++ after))%string
    by now rewrite !append_assoc.
  apply contains_append.
Qed.

Lemma lower_append (a b : string) :
  PyStr.lower (a ++ b) = (PyStr.lower a ++ PyStr.lower b)%string.
Proof.
  induction a as [|c a IH]; [reflexivity|].
  cbn [append PyStr.lower]. now rewrite IH.
Qed.

Lemma condition_matches_inside (before user_lower after : string)
    (ns : NextStage.t) :
  condition_matches user_lower ns = true ->
  condition_matches (before ++ user_lower ++ after) ns = true.
Proof.
  rewrite !condition_matches_spec. intros (keyword & Hin & Hc).
  exists keyword. split; [assumption | now apply contains_inside].
Qed.

Lemma blank_condition_never_matches (user_lower : string) (ns : NextStage.t) :
  all_space (NextStage.condition ns) = true ->
  condition_matches user_lower ns = false.
Proof.
  intros H. unfold condition_matches, PyStr.split.
  rewrite split_all_space; [reflexivity | now rewrite all_space_lower].
Qed.

Lemma empty_input_never_matches (ns : NextStage.t) :
  condition_matches EmptyString ns = false.
Proof.
  unfold condition_matches, PyStr.split.
  destruct (existsb _ _) eqn:E; [|reflexivity].
  apply existsb_exists in E as (keyword & Hin & Hc).
  apply split_from_nonempty in Hin.
  rewrite (contains_in_empty _ Hin) in Hc. discriminate.
Qed.

Section SortAndFilter.

Context {A : Type} (key : A -> Z) (keep : A -> bool).

Lemma insert_desc_front (x : A) (l : list A) :
  Forall (fun y => (key y <= key x)%Z) l -> insert_desc key x l = x :: l.
Proof.
  destruct l as [|y l]; [reflexivity|]. intros H.
  apply Forall_inv in H. cbn [insert_desc].
  destruct (key x <? key y)%Z eqn:E; [|reflexivity]. lia.
Qed.

Lemma filter_insert_desc (x : A) (l : list A) :
  StronglySorted (key_ge key) l ->
  filter keep (insert_desc key x l)
  = if keep x then insert_desc key x (filter keep l) else filter keep l.
Proof.
  induction l as [|y l IH]; intros Hs.
  - cbn [insert_desc filter]. now destruct (keep x).
  - apply StronglySorted_inv in Hs as [Hl Hy].
    cbn [insert_desc]. destruct (key x <? key y)%Z eqn:E.
    + cbn [filter]. rewrite (IH Hl).
      destruct (keep x), (keep y); try reflexivity.
      cbn [insert_desc]. now rewrite E.
    + change (filter keep (x :: y :: l))
        with (if keep x then x :: filter keep (y :: l)
              else filter keep (y :: l)).
      destruct (keep x); [|reflexivity].
      symmetry. apply insert_desc_front.
      apply Forall_forall. intros z Hz. apply filter_In in Hz as [Hz _].
      destruct Hz as [<-|Hz]; [lia|].
      rewrite Forall_forall in Hy. specialize (Hy z Hz).
      unfold key_ge in Hy. lia.
Qed.

(** The stable sort and a filter commute. *)
Lemma filter_sorted_desc (l : list A) :
  filter keep (sorted_desc key l) = sorted_desc key (filter keep l).
Proof.
  induction l as [|x l IH]; [reflexivity|].
  cbn [sorted_desc filter].
  rewrite filter_insert_desc by apply sorted_desc_sorted.
  rewrite IH. now destruct (keep x).
Qed.

Lemma find_filter (f : A -> bool) (l : list A) :
  (forall x, keep x = false -> f x = false) ->
  find f (filter keep l) = find f l.
Proof.
  intros H. induction l as [|x l IH]; [reflexivity|].
  cbn [filter find]. destruct (keep x) eqn:E.
  - cbn [find]. now rewrite IH.
  - now rewrite (H x E).
Qed.

End SortAndFilter.

(** X9.  What the user says and what the conditions hold, on ASCII strings
    (where [str.lower()] and [str.split()] are the byte-wise functions of
    the model).  An entry whose condition is empty or holds only whitespace
    has no keyword: the resolver answers as it does for the stage without
    such entries, whatever the user says.  The empty input matches no entry,
    so a stage of the graph resolves it to no target.  Matching is monotone
    in the input: when an input resolves to a target, so does every text
    that contains it (the target may be another, of an entry that comes
    earlier in the order of the priorities). *)
Theorem find_next_stage_reads_keywords_only
    (self : Agent.t) (current_stage_id : string) (context : PyDict.t json)
    (current_stage : Stage.t) (entries : list NextStage.t) :
  PyDict.get current_stage_id (Agent.stages self) = Some current_stage ->
  Stage.next_stages current_stage = Some entries ->
  Forall (fun ns => is_ascii (NextStage.condition ns) = true) entries ->
  (forall user_input other other_stage,
     is_ascii user_input = true ->
     PyDict.get current_stage_id (Agent.stages other) = Some other_stage ->
     Stage.next_stages other_stage
     = Some (filter (fun ns => negb (all_space (NextStage.condition ns)))
               entries) ->
     _find_next_stage self user_input current_stage_id context
     = _find_next_stage other user_input current_stage_id context)
  /\ _find_next_stage self "" current_stage_id context = Ok None
  /\ (forall before user_input after target,
        is_ascii before = true ->
        is_ascii user_input = true ->
        is_ascii after = true ->
        _find_next_stage self user_input current_stage_id context
        = Ok (Some target) ->
        exists target',
          _find_next_stage self (before ++ user_input ++ after)
            current_stage_id context = Ok (Some target')).
Proof.
  intros Hget Hnext _.
  assert (Hrun : forall user_input,
            _find_next_stage self user_input current_stage_id context
            = Ok (first_match (PyStr.lower user_input)
                    (sorted_desc priority_of entries))).
  { intros u. unfold _find_next_stage, getitem. now rewrite Hget, Hnext. }
  split; [|split].
  - intros u other other_stage _ Hother Hfiltered. rewrite Hrun.
    unfold _find_next_stage, getitem. rewrite Hother, Hfiltered.
    f_equal. rewrite !first_match_find. f_equal.
    rewrite <- filter_sorted_desc. symmetry. apply find_filter.
    intros ns Hns. apply negb_false_iff in Hns.
    now apply blank_condition_never_matches.
  - rewrite Hrun. f_equal. rewrite first_match_find.
    cbn [PyStr.lower].
    destruct (find _ _) as [ns|] eqn:E; [|reflexivity].
    apply find_some in E as [_ E].
    now rewrite empty_input_never_matches in E.
  - intros before u after target _ _ _. rewrite !Hrun, !first_match_find.
    intros [= H].
    destruct (find (condition_matches (PyStr.lower u)) _) as [ns|] eqn:E;
      [|discriminate].
    apply find_some in E as [Hin Hm].
    destruct (find (condition_matches (PyStr.lower (before ++ u ++ after))) _)
      as [ns'|] eqn:E'.
    + now exists (NextStage.stage_id ns').
    + pose proof (find_none _ _ E' ns Hin) as Hno.
      rewrite !lower_append in Hno.
      now rewrite (condition_matches_inside _ _ _ _ Hm) in Hno.
Qed.

Lemma find_next_stage_reads_keywords_only_witness :
  _find_next_stage Sample.agent "" "greeting" [] = Ok None
  /\ exists target,
       _find_next_stage Sample.agent
         ("well, " ++ "a bill payment is due" ++ ", I think") "greeting" []
       = Ok (Some target).
Proof.
  assert (Hascii : Forall (fun ns => is_ascii (NextStage.condition ns) = true)
                     (match Stage.next_stages Sample.greeting with
                      | Some l => l
                      | None => []
                      end)).
  { repeat constructor. }
  destruct (find_next_stage_reads_keywords_only Sample.agent "greeting" []
              Sample.greeting
              (match Stage.next_stages Sample.greeting with
               | Some l => l
               | None => []
               end) eq_refl eq_refl Hascii) as (_ & Hempty & Hmono).
  split; [exact Hempty|].
  apply (Hmono "well, " "a bill payment is due" ", I think" "billing");
    reflexivity.
Defined.

(* ----------------------------------------------------------------- *)
(** ** Substitution: fixed points and order *)

Lemma replace_no_open (key new text : string) :
  no_open text = true -> PyStr.replace (marker key) new text = text.
Proof.
  intros H.
  pose proof (replace_scan_no_open (String "{" (key ++ "}}")) new text
                EmptyString H) as E.
  cbn [PyStr.replace_scan] in E. rewrite !append_empty_r in E. exact E.
Qed.

(** X10.  A text without an opening brace holds no marker:
    [_substitute_variables] returns it as it is, whatever the context, its
    keys and its values. *)
Theorem substitute_variables_keeps_text_without_braces
    (text : string) (context : PyDict.t json) :
  no_open text = true -> _substitute_variables text context = text.
Proof.
  intros H. induction context as [|[key value] rest IH]; [reflexivity|].
  cbn [_substitute_variables]. now rewrite replace_no_open.
Qed.

Lemma substitute_variables_keeps_text_without_braces_witness :
  _substitute_variables "Your balance } is due"
    [("}", JStr "{{name}}"); ("", JInt 3); ("name", JStr "Ana")]
  = "Your balance } is due".
Proof.
  apply (substitute_variables_keeps_text_without_braces
           "Your balance } is due"). reflexivity.
Defined.

Lemma substitute_fill_all (template : list piece) (context : PyDict.t json) :
  plain_template template = true ->
  plain_context context = true ->
  _substitute_variables (render template) context
  = render (fill_all context template)
  /\ plain_template (fill_all context template) = true.
Proof.
  revert template. induction context as [|[a v] rest IH]; intros t Ht Hc.
  - now split.
  - cbn [plain_context forallb fst snd] in Hc.
    apply andb_true_iff in Hc as [Hav Hrest].
    apply andb_true_iff in Hav as [Ha Hv].
    cbn [_substitute_variables fill_all].
    rewrite replace_render by assumption.
    apply IH; [now apply fill_plain | assumption].
Qed.

Lemma vars_fill (a new : string) (template : list piece) (k : string) :
  In k (vars (fill a new template)) -> In k (vars template) /\ k <> a.
Proof.
  induction template as [|[text|key] t IH].
  - contradiction.
  - rewrite fill_lit. exact IH.
  - rewrite fill_var. destruct (String.eqb key a) eqn:E; cbn [vars].
    + intros H. destruct (IH H). split; [now right | assumption].
    + apply String.eqb_neq in E. intros [<-|H]; [split; [now left | exact E]|].
      destruct (IH H). split; [now right | assumption].
Qed.

Lemma vars_fill_all (context : PyDict.t json) (template : list piece)
    (k : string) :
  In k (vars (fill_all context template)) ->
  In k (vars template) /\ PyDict.mem k context = false.
Proof.
  revert template. induction context as [|[a v] rest IH]; intros t.
  - intros H. now split.
  - cbn [fill_all]. intros H. destruct (IH _ H) as [Hin Hm].
    apply vars_fill in Hin as [Hin Hne]. split; [assumption|].
    unfold PyDict.mem in *. cbn [PyDict.get].
    apply String.eqb_neq in Hne. now rewrite Hne.
Qed.

Lemma fill_absent (a new : string) (template : list piece) :
  ~ In a (vars template) -> fill a new template = template.
Proof.
  induction template as [|[text|key] t IH]; intros H.
  - reflexivity.
  - rewrite fill_lit. f_equal. now apply IH.
  - rewrite fill_var. cbn [vars] in H.
    destruct (String.eqb key a) eqn:E.
    + apply String.eqb_eq in E. subst key. exfalso. apply H. now left.
    + f_equal. apply IH. intros Hin. apply H. now right.
Qed.

Lemma fill_all_absent (context : PyDict.t json) (template : list piece) :
  (forall k, In k (vars template) -> PyDict.mem k context = false) ->
  fill_all context template = template.
Proof.
  induction context as [|[a v] rest IH]; intros H; [reflexivity|].
  cbn [fill_all]. rewrite fill_absent.
  - apply IH. intros k Hk. specialize (H k Hk).
    unfold PyDict.mem in *. cbn [PyDict.get] in H.
    destruct (String.eqb k a); [discriminate | assumption].
  - intros Hin. specialize (H a Hin).
    unfold PyDict.mem in H. cbn [PyDict.get] in H.
    now rewrite String.eqb_refl in H.
Qed.

(** X11.  On a template and a context without brace characters
    [_substitute_variables] is idempotent: its result holds no marker of a key
    of the context any more, so a second pass with the same context leaves it
    as it is. *)
Theorem substitute_variables_is_idempotent_on_plain_text
    (template : list piece) (context : PyDict.t json) :
  plain_template template = true ->
  plain_context context = true ->
  _substitute_variables
    (_substitute_variables (render template) context) context
  = _substitute_variables (render template) context.
Proof.
  intros Ht Hc.
  destruct (substitute_fill_all template context Ht Hc) as [-> Hplain].
  destruct (substitute_fill_all _ context Hplain Hc) as [-> _].
  f_equal. apply fill_all_absent.
  intros k Hk. now apply vars_fill_all in Hk.
Qed.

Lemma substitute_variables_is_idempotent_on_plain_text_witness :
  _substitute_variables
    (_substitute_variables "Dear {{name}}, {{item}} is late for {{name}}"
       [("name", JStr "Ana"); ("days", JInt 3)])
    [("name", JStr "Ana"); ("days", JInt 3)]
  = _substitute_variables "Dear {{name}}, {{item}} is late for {{name}}"
      [("name", JStr "Ana"); ("days", JInt 3)].
Proof.
  apply (substitute_variables_is_idempotent_on_plain_text
           [Lit "Dear "; Var "name"; Lit ", "; Var "item";
            Lit " is late for "; Var "name"]
           [("name", JStr "Ana"); ("days", JInt 3)]); reflexivity.
Defined.

Lemma get_permutation {A} (k : string) (d d' : PyDict.t A) :
  Permutation d d' -> NoDup (PyDict.keys d) ->
  PyDict.get k d = PyDict.get k d'.
Proof.
  unfold PyDict.keys.
  induction 1 as [|[a v] l l' Hp IH|[a v] [b w] l|l l' l'' H1 IH1 H2 IH2];
    intros Hnd.
  - reflexivity.
  - cbn [PyDict.get]. cbn [map fst] in Hnd. apply NoDup_cons_iff in Hnd as [_ Hnd].
    now rewrite IH.
  - cbn [PyDict.get]. cbn [map fst] in Hnd.
    apply NoDup_cons_iff in Hnd as [Hnot _].
    destruct (String.eqb k a) eqn:Ea, (String.eqb k b) eqn:Eb;
      try reflexivity.
    apply String.eqb_eq in Ea, Eb. subst. exfalso. apply Hnot. now left.
  - rewrite IH1 by assumption. apply IH2.
    apply (Permutation_NoDup (Permutation_map fst H1) Hnd).
Qed.

Lemma instantiate_ext (template : list piece) (c c' : PyDict.t json) :
  (forall k, PyDict.get k c = PyDict.get k c') ->
  instantiate template c = instantiate template c'.
Proof.
  intros H. induction template as [|[text|key] t IH]; cbn [instantiate].
  - reflexivity.
  - now rewrite IH.
  - now rewrite H, IH.
Qed.

Lemma plain_context_permutation (c c' : PyDict.t json) :
  Permutation c c' -> plain_context c = true -> plain_context c' = true.
Proof.
  unfold plain_context. rewrite !forallb_forall.
  intros Hp H x Hx. apply H. apply (Permutation_in _ (Permutation_sym Hp) Hx).
Qed.

(** X12.  On a template and a context without brace characters the order of
    the items of the context does not matter: a context with the same items in
    another order gives the same text. *)
Theorem substitute_variables_ignores_item_order_on_plain_text
    (template : list piece) (context context' : PyDict.t json) :
  plain_template template = true ->
  plain_context context = true ->
  NoDup (PyDict.keys context) ->
  Permutation context context' ->
  _substitute_variables (render template) context
  = _substitute_variables (render template) context'.
Proof.
  intros Ht Hc Hnd Hp.
  rewrite !substitute_plain;
    [|assumption | now apply (plain_context_permutation context)
     |assumption | assumption].
  apply instantiate_ext. intros k. now apply get_permutation.
Qed.

Lemma substitute_variables_ignores_item_order_on_plain_text_witness :
  _substitute_variables "Dear {{name}}, {{n}} days"
    [("name", JStr "Ana"); ("n", JInt 3)]
  = _substitute_variables "Dear {{name}}, {{n}} days"
      [("n", JInt 3); ("name", JStr "Ana")].
Proof.
  apply (substitute_variables_ignores_item_order_on_plain_text
           [Lit "Dear "; Var "name"; Lit ", "; Var "n"; Lit " days"]
           [("name", JStr "Ana"); ("n", JInt 3)]
           [("n", JInt 3); ("name", JStr "Ana")]).
  - reflexivity.
  - reflexivity.
  - repeat constructor; cbn; intuition discriminate.
  - apply perm_swap.
Defined.

(* ----------------------------------------------------------------- *)
(** ** Start-up on an accepted document *)

Lemma getitem_field (x : json) (key : string) (v : json) :
  field x key = Some v -> SchemaValidator.py_getitem x key = Ok v.
Proof.
  destruct x; cbn [field]; try discriminate.
  intros H. cbn [SchemaValidator.py_getitem]. unfold getitem. now rewrite H.
Qed.

Lemma in_field_dict (x : json) (key : string) (v : json) :
  field x key = Some v ->
  SchemaValidator.py_in key x = Ok true.
Proof.
  destruct x; cbn [field]; try discriminate.
  intros H. cbn [SchemaValidator.py_in]. now rewrite mem_get, H.
Qed.

Section CompleteSettings.

Import SchemaValidator Startup.

Variable returns : call -> bool.
Variable global_settings : json.
Hypothesis Hsettings : forall s, complete_settings global_settings s.

Lemma create_stt_provider_reads :
  exists stt_settings provider model language,
    field global_settings "stt_settings" = Some stt_settings
    /\ field stt_settings "provider" = Some provider
    /\ field stt_settings "model" = Some model
    /\ field stt_settings "language" = Some language
    /\ _create_stt_provider returns global_settings
       = livekit returns
           (if is_name provider "deepgram" then DeepgramSTT model language
            else if is_name provider "openai" then OpenAISTT model language
            else DeepgramDefaultSTT).
Proof.
  destruct (Hsettings STT) as (x & Hx & Hf). cbn [settings_key settings_fields] in *.
  destruct (has_fields_fields x _ "provider" Hf) as [p Hp]; [cbn; tauto|].
  destruct (has_fields_fields x _ "model" Hf) as [m Hm]; [cbn; tauto|].
  destruct (has_fields_fields x _ "language" Hf) as [l Hl]; [cbn; tauto|].
  exists x, p, m, l. repeat (split; [assumption|]).
  unfold _create_stt_provider.
  rewrite (getitem_field _ _ _ Hx). cbn [own and_next].
  rewrite (getitem_field _ _ _ Hp). cbn [own and_next].
  rewrite (getitem_field _ _ _ Hm), (getitem_field _ _ _ Hl).
  cbn [own and_next].
  destruct (is_name p "deepgram"); [reflexivity|].
  now destruct (is_name p "openai").
Qed.

Lemma create_llm_provider_reads :
  exists llm_settings model temperature,
    field global_settings "llm_settings" = Some llm_settings
    /\ field llm_settings "model" = Some model
    /\ field llm_settings "temperature" = Some temperature
    /\ _create_llm_provider returns global_settings
       = livekit returns (OpenAILLM model temperature).
Proof.
  destruct (Hsettings LLM) as (x & Hx & Hf). cbn [settings_key settings_fields] in *.
  destruct (has_fields_fields x _ "model" Hf) as [m Hm]; [cbn; tauto|].
  destruct (has_fields_fields x _ "temperature" Hf) as [t Ht]; [cbn; tauto|].
  exists x, m, t. repeat (split; [assumption|]).
  unfold _create_llm_provider.
  rewrite (getitem_field _ _ _ Hx). cbn [own and_next].
  now rewrite (getitem_field _ _ _ Hm), (getitem_field _ _ _ Ht).
Qed.

Lemma create_tts_provider_reads :
  exists tts_settings provider model voice,
    field global_settings "tts_settings" = Some tts_settings
    /\ field tts_settings "provider" = Some provider
    /\ field tts_settings "model" = Some model
    /\ field tts_settings "voice" = Some voice
    /\ _create_tts_provider returns global_settings
       = livekit returns
           (if is_name provider "elevenlabs" then ElevenLabsTTS voice model
            else if is_name provider "cartesia" then CartesiaTTS model voice
            else if is_name provider "openai" then OpenAITTS model voice
            else CartesiaDefaultTTS).
Proof.
  destruct (Hsettings TTS) as (x & Hx & Hf). cbn [settings_key settings_fields] in *.
  destruct (has_fields_fields x _ "provider" Hf) as [p Hp]; [cbn; tauto|].
  destruct (has_fields_fields x _ "model" Hf) as [m Hm]; [cbn; tauto|].
  destruct (has_fields_fields x _ "voice" Hf) as [v Hv]; [cbn; tauto|].
  exists x, p, m, v. repeat (split; [assumption|]).
  unfold _create_tts_provider.
  rewrite (getitem_field _ _ _ Hx). cbn [own and_next].
  rewrite (getitem_field _ _ _ Hp). cbn [own and_next].
  rewrite (getitem_field _ _ _ Hm), (getitem_field _ _ _ Hv).
  cbn [own and_next].
  destruct (is_name p "elevenlabs"); [reflexivity|].
  destruct (is_name p "cartesia"); [reflexivity|].
  now destruct (is_name p "openai").
Qed.

End CompleteSettings.

(** X13.  The fields the validator asks of the three settings sections are
    the fields the provider factories read: on the settings of an accepted
    document of the schema's types no factory raises an exception of its
    own, it reaches the call of a constructor of LiveKit and ends as that
    call ends.  The LLM is OpenAI's whatever the provider field of the LLM
    settings says (the validator asks for the field, the factory never reads
    it); the STT and the TTS constructor are chosen by the provider field
    alone, and a name the factory does not know gives the default
    constructor, called without the model, the language or the voice. *)
Theorem provider_factories_raise_nothing_of_their_own
    (returns : Startup.call -> bool) (config global_settings : json) :
  schema_typed config = true ->
  SchemaValidator._validate_config config = Ok tt ->
  field config "global_settings" = Some global_settings ->
  (exists stt_settings provider model language,
     field global_settings "stt_settings" = Some stt_settings
     /\ field stt_settings "provider" = Some provider
     /\ field stt_settings "model" = Some model
     /\ field stt_settings "language" = Some language
     /\ Startup._create_stt_provider returns global_settings
        = Startup.livekit returns
            (if Startup.is_name provider "deepgram"
             then Startup.DeepgramSTT model language
             else if Startup.is_name provider "openai"
             then Startup.OpenAISTT model language
             else Startup.DeepgramDefaultSTT))
  /\ (exists llm_settings model temperature,
        field global_settings "llm_settings" = Some llm_settings
        /\ field llm_settings "model" = Some model
        /\ field llm_settings "temperature" = Some temperature
        /\ Startup._create_llm_provider returns global_settings
           = Startup.livekit returns (Startup.OpenAILLM model temperature))
  /\ (exists tts_settings provider model voice,
        field global_settings "tts_settings" = Some tts_settings
        /\ field tts_settings "provider" = Some provider
        /\ field tts_settings "model" = Some model
        /\ field tts_settings "voice" = Some voice
        /\ Startup._create_tts_provider returns global_settings
           = Startup.livekit returns
               (if Startup.is_name provider "elevenlabs"
                then Startup.ElevenLabsTTS voice model
                else if Startup.is_name provider "cartesia"
                then Startup.CartesiaTTS model voice
                else if Startup.is_name provider "openai"
                then Startup.OpenAITTS model voice
                else Startup.CartesiaDefaultTTS)).
Proof.
  intros _ Hv Hgs. apply validate_config_ok_iff in Hv.
  destruct Hv as (gs & ac & fl & Hgs' & _ & _ & Hset & _).
  rewrite Hgs in Hgs'. injection Hgs' as <-.
  split; [|split].
  - now apply create_stt_provider_reads.
  - now apply create_llm_provider_reads.
  - now apply create_tts_provider_reads.
Qed.

Lemma provider_factories_raise_nothing_of_their_own_witness :
  exists global_settings,
    field Sample.document "global_settings" = Some global_settings
    /\ Startup._create_stt_provider (fun _ => true) global_settings
       = Startup.Returned (Startup.DeepgramSTT (JStr "nova-2") (JStr "en"))
    /\ Startup._create_llm_provider (fun _ => false) global_settings
       = Startup.LiveKitRaised
           (Startup.OpenAILLM (JStr "gpt-4o-mini") (JFloat "0.7"))
    /\ Startup._create_tts_provider (fun _ => true) global_settings
       = Startup.Returned (Startup.CartesiaTTS (JStr "sonic") (JStr "ash")).
Proof.
  eexists. split; [reflexivity|].
  destruct (provider_factories_raise_nothing_of_their_own (fun _ => true)
              Sample.document _ eq_refl eq_refl eq_refl)
    as ((ss & p & m & l & Hss & Hp & Hm & Hl & Hstt) & _
        & (ts & tp & tm & tv & Hts & Htp & Htm & Htv & Htts)).
  destruct (provider_factories_raise_nothing_of_their_own (fun _ => false)
              Sample.document _ eq_refl eq_refl eq_refl)
    as (_ & (ls & lm & lt & Hls & Hlm & Hlt & Hllm) & _).
  injection Hss as <-. injection Hp as <-. injection Hm as <-.
  injection Hl as <-. injection Hls as <-. injection Hlm as <-.
  injection Hlt as <-. injection Hts as <-. injection Htp as <-.
  injection Htm as <-. injection Htv as <-.
  split; [exact Hstt|]. split; [exact Hllm | exact Htts].
Defined.

Lemma get_In_key {A} (k : string) (d : PyDict.t A) (v : A) :
  PyDict.get k d = Some v -> In (k, v) d.
Proof.
  induction d as [|[k0 v0] d IH]; cbn [PyDict.get]; [discriminate|].
  destruct (String.eqb k k0) eqn:E.
  - apply String.eqb_eq in E. subst k0. intros [= <-]. now left.
  - intros H. right. now apply IH.
Qed.

Lemma occurs_in_refl (s : string) : occurs_in s s.
Proof. exists EmptyString, EmptyString. now rewrite append_empty_r. Qed.

Lemma occurs_in_after (needle before hay : string) :
  occurs_in needle hay -> occurs_in needle (before ++ hay).
Proof.
  intros (pre & post & ->). exists (before ++ pre)%string, post.
  now rewrite !append_assoc.
Qed.

Lemma occurs_in_before (needle hay after : string) :
  occurs_in needle hay -> occurs_in needle (hay ++ after).
Proof.
  intros (pre & post & ->). exists pre, (post ++ after)%string.
  now rewrite !append_assoc.
Qed.

(** Every element of a joined list occurs in the text. *)
Lemma occurs_in_join (sep key : string) (keys : list string) :
  In key keys -> occurs_in key (PyStr.join sep keys).
Proof.
  induction keys as [|x keys IH]; [contradiction|].
  intros Hin. destruct keys as [|y keys].
  - destruct Hin as [<-|[]]. apply occurs_in_refl.
  - change (PyStr.join sep (x :: y :: keys))
      with (x ++ sep ++ PyStr.join sep (y :: keys))%string.
    destruct Hin as [<-|Hin].
    + exists EmptyString, (sep ++ PyStr.join sep (y :: keys))%string.
      reflexivity.
    + apply occurs_in_after, occurs_in_after, IH, Hin.
Qed.

Lemma instructions_name_stage (configured stage_list key : string) :
  occurs_in key stage_list ->
  occurs_in key (Startup.base_instructions_of configured stage_list).
Proof.
  intros H. unfold Startup.base_instructions_of.
  apply occurs_in_after, occurs_in_after, occurs_in_after, occurs_in_before.
  exact H.
Qed.

Section AcceptedDocument.

Import SchemaValidator Startup.

Variable returns : call -> bool.
Variable config : json.
Hypothesis Haccepted : _validate_config config = Ok tt.

Lemma accepted_parts :
  exists global_settings agent_config flow name configured start all_stages,
    field config "global_settings" = Some global_settings
    /\ field config "agent_config" = Some agent_config
    /\ field config "flow" = Some flow
    /\ (forall s, complete_settings global_settings s)
    /\ field agent_config "name" = Some name
    /\ field agent_config "base_instructions" = Some configured
    /\ field flow "start_stage" = Some (JStr start)
    /\ field flow "stages" = Some (JDict all_stages)
    /\ PyDict.mem start all_stages = true.
Proof.
  destruct (proj1 (validate_config_ok_iff config) Haccepted)
    as (gs & ac & fl & Hgs & Hac & Hfl & Hset & Hagent & Hflow).
  destruct Hflow as (start & all & Hstart & Hstages & Hmem & _).
  destruct (has_fields_fields ac _ "name" Hagent) as [name Hname];
    [cbn; tauto|].
  destruct (has_fields_fields ac _ "base_instructions" Hagent)
    as [configured Hconf]; [cbn; tauto|].
  exists gs, ac, fl, name, configured, start, all. repeat split; assumption.
Qed.

(** [__init__] on an accepted document: the calls of LiveKit it makes, in
    their order, and the agent it leaves when they return. *)
Lemma init_accepted :
  exists flow configured start all_stages stt llm tts,
    field config "flow" = Some flow
    /\ field flow "start_stage" = Some (JStr start)
    /\ field flow "stages" = Some (JDict all_stages)
    /\ PyDict.mem start all_stages = true
    /\ __init__ returns config
       = (made_stt <== livekit returns stt ;;;
          made_llm <== livekit returns llm ;;;
          made_tts <== livekit returns tts ;;;
          made_vad <== livekit returns SileroVADLoad ;;;
          agent <==
            livekit returns
              (AgentInit
                 (base_instructions_of (PyRepr.str configured)
                    (PyStr.join ", " (PyDict.keys all_stages)))
                 made_stt made_llm made_tts made_vad) ;;;
          Returned
            {| c_start_stage_id := JStr start;
               c_stages := all_stages;
               c_instructions :=
                 base_instructions_of (PyRepr.str configured)
                   (PyStr.join ", " (PyDict.keys all_stages));
               c_stt := made_stt;
               c_llm := made_llm;
               c_tts := made_tts;
               c_vad := made_vad |}).
Proof.
  destruct accepted_parts
    as (gs & ac & fl & name & configured & start & all
        & Hgs & Hac & Hfl & Hset & Hname & Hconf & Hstart & Hstages & Hmem).
  destruct (create_stt_provider_reads returns gs Hset)
    as (? & p1 & m1 & l1 & _ & _ & _ & _ & Hstt).
  destruct (create_llm_provider_reads returns gs Hset)
    as (? & m2 & t2 & _ & _ & _ & Hllm).
  destruct (create_tts_provider_reads returns gs Hset)
    as (? & p3 & m3 & v3 & _ & _ & _ & _ & Htts).
  exists fl, configured, start, all.
  eexists. eexists. eexists.
  repeat (split; [eassumption|]).
  unfold __init__.
  rewrite (getitem_field _ _ _ Hgs), (getitem_field _ _ _ Hac),
    (getitem_field _ _ _ Hfl). cbn [own and_next].
  rewrite (getitem_field _ _ _ Hstart), (getitem_field _ _ _ Hstages).
  cbn [own and_next py_items].
  rewrite (getitem_field _ _ _ Hconf). cbn [own and_next].
  rewrite Hstt, Hllm, Htts. unfold _create_vad_provider.
  rewrite (getitem_field _ _ _ Hname). cbn [own].
  reflexivity.
Qed.

Lemma entrypoint_accepted : entrypoint returns config = __init__ returns config.
Proof.
  destruct accepted_parts
    as (gs & ac & fl & name & configured & start & all
        & Hgs & Hac & Hfl & Hset & Hname & Hconf & Hstart & Hstages & Hmem).
  unfold entrypoint. rewrite Haccepted. cbn [own and_next].
  rewrite (getitem_field _ _ _ Hac). cbn [own and_next].
  rewrite (getitem_field _ _ _ Hname). cbn [own and_next].
  rewrite (in_field_dict _ _ _ Hfl). cbn [own and_next negb].
  rewrite (getitem_field _ _ _ Hfl). cbn [own and_next].
  rewrite (in_field_dict _ _ _ Hstart). cbn [own and_next negb].
  rewrite (in_field_dict _ _ _ Hstages). cbn [own and_next negb].
  rewrite (getitem_field _ _ _ Hstart), (getitem_field _ _ _ Hstages).
  cbn [own and_next py_stage_ref py_items]. now rewrite Hmem.
Qed.

End AcceptedDocument.

(** X14.  On a document of the schema's types that the validator accepts,
    [__init__] raises no exception of its own: the keys it reads are keys
    the validator asks for, and it ends as the calls of LiveKit it makes
    end.  When they all return it leaves an agent whose stages are those of
    the flow, that starts at one of them, and whose instructions hold the id
    of every stage as a substring. *)
Theorem init_raises_nothing_of_its_own_on_accepted_document
    (returns : Startup.call -> bool) (config : json) :
  schema_typed config = true ->
  SchemaValidator._validate_config config = Ok tt ->
  (forall e, Startup.__init__ returns config <> Startup.Raised e)
  /\ ((forall c, returns c = true) ->
      exists agent, Startup.__init__ returns config = Startup.Returned agent)
  /\ (forall agent,
        Startup.__init__ returns config = Startup.Returned agent ->
        (exists flow start,
           field config "flow" = Some flow
           /\ field flow "stages" = Some (JDict (Startup.c_stages agent))
           /\ Startup.c_start_stage_id agent = JStr start
           /\ PyDict.mem start (Startup.c_stages agent) = true)
        /\ forall stage_id,
             PyDict.mem stage_id (Startup.c_stages agent) = true ->
             occurs_in stage_id (Startup.c_instructions agent)).
Proof.
  intros _ Hv.
  destruct (init_accepted returns config Hv)
    as (fl & configured & start & all & stt & llm & tts
        & Hfl & Hstart & Hstages & Hmem & Hinit).
  rewrite Hinit. unfold Startup.livekit, Startup.and_next.
  split; [|split].
  - intros e.
    repeat match goal with
           | |- context [returns ?c] => destruct (returns c)
           end; discriminate.
  - intros Hall. rewrite !Hall. eexists. reflexivity.
  - intros agent.
    repeat match goal with
           | |- context [returns ?c] => destruct (returns c)
           end; try discriminate.
    intros [= <-]. cbn. split.
    + now exists fl, start.
    + intros stage_id Hin. apply instructions_name_stage, occurs_in_join.
      unfold PyDict.keys. rewrite mem_get in Hin.
      destruct (PyDict.get stage_id all) as [v|] eqn:E; [|discriminate].
      apply get_In_key in E. now apply (in_map fst) in E.
Qed.

Lemma init_raises_nothing_of_its_own_on_accepted_document_witness :
  exists agent,
    Startup.__init__ (fun _ => true) Sample.document = Startup.Returned agent
    /\ occurs_in "billing" (Startup.c_instructions agent).
Proof.
  destruct (init_raises_nothing_of_its_own_on_accepted_document
              (fun _ => true) Sample.document eq_refl eq_refl)
    as (_ & Hreturns & Hagent).
  destruct (Hreturns (fun _ => eq_refl)) as [agent Hinit].
  exists agent. split; [exact Hinit|].
  destruct (Hagent agent Hinit) as [_ Hnames]. apply Hnames.
  assert (H : Startup.__init__ (fun _ => true) Sample.document
              = Startup.Returned agent) by exact Hinit.
  vm_compute in H. injection H as <-. reflexivity.
Defined.

Lemma validator_messages (config : json) (v : violation) :
  occurs config v ->
  message v <> "Missing 'flow' section in configuration"
  /\ message v
     <> "Flow must contain both 'start_stage' and 'stages' definitions"
  /\ forall start_stage,
       message v <> ("Start stage '" ++ start_stage
                     ++ "' not found in defined stages")%string.
Proof.
  assert (Hentry : forall all_stages stage_id next_stage v',
            entry_violation all_stages stage_id next_stage v' ->
            message v' <> "Missing 'flow' section in configuration"
            /\ message v'
               <> "Flow must contain both 'start_stage' and 'stages' definitions"
            /\ forall start_stage,
                 message v' <> ("Start stage '" ++ start_stage
                               ++ "' not found in defined stages")%string).
  { intros all_stages stage_id next_stage v' []; cbn [message append];
      (split; [discriminate | split; [discriminate | intros; discriminate]]). }
  intros [key Hin _|gs s _ _|gs s x _ _ _|ac name _ Hin _|fl name _ Hin _
          |fl start all _ _ _ _|fl all stage_id stage v0 _ _ _ Hsv].
  - cbn [message append].
    split; [discriminate | split; [discriminate | intros; discriminate]].
  - destruct s; cbn [message settings_key append];
      (split; [discriminate | split; [discriminate | intros; discriminate]]).
  - destruct s; cbn [message settings_label append];
      (split; [discriminate | split; [discriminate | intros; discriminate]]).
  - destruct Hin as [<-|[<-|[]]]; cbn [message append];
      (split; [discriminate | split; [discriminate | intros; discriminate]]).
  - destruct Hin as [<-|[<-|[]]]; cbn [message append];
      (split; [discriminate | split; [discriminate | intros; discriminate]]).
  - cbn [message append].
    split; [discriminate | split; [discriminate | intros; discriminate]].
  - destruct Hsv as [name _ _|entries next_stage v1 _ _ He].
    + cbn [message append].
      split; [discriminate | split; [discriminate | intros; discriminate]].
    + exact (Hentry _ _ _ _ He).
Qed.

(** X15.  On a document of the schema's types the checks [entrypoint] makes
    of the flow after the validator has run never fire, each repeats a check
    of the validator: [entrypoint] raises what the validator raises and
    otherwise goes on to [__init__], and none of its own three errors is
    ever raised. *)
Theorem entrypoint_checks_repeat_the_validator
    (returns : Startup.call -> bool) (config : json) :
  schema_typed config = true ->
  Startup.entrypoint returns config
  = match SchemaValidator._validate_config config with
    | Ok _ => Startup.__init__ returns config
    | Raise e => Startup.Raised e
    end
  /\ Startup.entrypoint returns config
     <> Startup.Raised (ValueError "Missing 'flow' section in configuration")
  /\ Startup.entrypoint returns config
     <> Startup.Raised
          (ValueError
             "Flow must contain both 'start_stage' and 'stages' definitions")
  /\ forall start_stage,
       Startup.entrypoint returns config
       <> Startup.Raised
            (ValueError ("Start stage '" ++ start_stage
                         ++ "' not found in defined stages")).
Proof.
  intros Htyped.
  pose proof (validate_config_outcome config) as Hout.
  pose proof (entrypoint_accepted returns config) as Hacc.
  destruct (SchemaValidator._validate_config config) as [[]|e] eqn:Ev.
  - rewrite (Hacc eq_refl). split; [reflexivity|].
    assert (Hinit : forall e,
              Startup.__init__ returns config <> Startup.Raised e).
    { intros e0.
      destruct (init_accepted returns config Ev)
        as (fl & configured & start & all & stt & llm & tts
            & _ & _ & _ & _ & ->).
      unfold Startup.livekit, Startup.and_next.
      repeat match goal with
             | |- context [returns ?c] => destruct (returns c)
             end; discriminate. }
    split; [apply Hinit | split; [apply Hinit | intros; apply Hinit]].
  - assert (Hraise : Startup.entrypoint returns config = Startup.Raised e).
    { unfold Startup.entrypoint. now rewrite Ev. }
    rewrite Hraise. split; [reflexivity|].
    destruct e as [k|m|]; cbn [outcome] in Hout.
    + contradiction.
    + destruct Hout as [_ (v & -> & Hocc & _)].
      destruct (validator_messages config v Hocc) as (H1 & H2 & H3).
      split; [congruence | split; [congruence|]].
      intros s [= H]. now apply (H3 s).
    + split; [discriminate | split; [discriminate | intros; discriminate]].
Qed.

Lemma entrypoint_checks_repeat_the_validator_witness :
  Startup.entrypoint (fun _ => true) Sample.document_with_unknown_target
  = Startup.Raised
      (ValueError "Stage 'billing' references non-existent stage: refund")
  /\ Startup.entrypoint (fun _ => true) Sample.document
     = Startup.__init__ (fun _ => true) Sample.document.
Proof.
  split.
  - exact (proj1 (entrypoint_checks_repeat_the_validator (fun _ => true)
                    Sample.document_with_unknown_target eq_refl)).
  - exact (proj1 (entrypoint_checks_repeat_the_validator (fun _ => true)
                    Sample.document eq_refl)).
Defined.

(* ----------------------------------------------------------------- *)
(** ** The summary of a configuration *)

(** X16.  [get_config_summary] never raises on a document of the schema's
    types that the validator accepts: the summary holds the eight entries in
    their order, the stage count is the length of the stage list, the stage
    list holds the keys of the stages in the order of the document, and the
    start stage is one of them. *)
Theorem config_summary_of_accepted_document (config : json) :
  schema_typed config = true ->
  SchemaValidator._validate_config config = Ok tt ->
  exists agent_name start all_stages llm_model stt_provider tts_provider,
    ConfigSummary.get_config_summary (Some config)
    = Ok (JDict
            [("agent_name", agent_name);
             ("schema_type", JStr "stages");
             ("start_stage", JStr start);
             ("total_stages", JInt (Z.of_nat (List.length all_stages)));
             ("stage_list", JList (map JStr (PyDict.keys all_stages)));
             ("llm_model", llm_model);
             ("stt_provider", stt_provider);
             ("tts_provider", tts_provider)])
    /\ (exists flow agent_config global_settings llm stt tts,
          field config "flow" = Some flow
          /\ field flow "stages" = Some (JDict all_stages)
          /\ field config "agent_config" = Some agent_config
          /\ field agent_config "name" = Some agent_name
          /\ field config "global_settings" = Some global_settings
          /\ field global_settings "llm_settings" = Some llm
          /\ field llm "model" = Some llm_model
          /\ field global_settings "stt_settings" = Some stt
          /\ field stt "provider" = Some stt_provider
          /\ field global_settings "tts_settings" = Some tts
          /\ field tts "provider" = Some tts_provider)
    /\ In start (PyDict.keys all_stages)
    /\ List.length (PyDict.keys all_stages) = List.length all_stages.
Proof.
  intros _ Hv.
  destruct (accepted_parts config Hv)
    as (gs & ac & fl & name & configured & start & all
        & Hgs & Hac & Hfl & Hset & Hname & Hconf & Hstart & Hstages & Hmem).
  destruct (create_stt_provider_reads (fun _ => true) gs Hset)
    as (ss & sp & _ & _ & Hss & Hsp & _).
  destruct (create_llm_provider_reads (fun _ => true) gs Hset)
    as (ls & lm & _ & Hls & Hlm & _).
  destruct (create_tts_provider_reads (fun _ => true) gs Hset)
    as (ts & tp & _ & _ & Hts & Htp & _).
  exists name, start, all, lm, sp, tp.
  split; [|split; [|split]].
  - unfold ConfigSummary.get_config_summary.
    assert (Htrue : ConfigSummary.py_truthy config = true).
    { destruct config as [| | | | | |[|item d]]; try discriminate Hgs.
      reflexivity. }
    rewrite Htrue. cbn [negb].
    rewrite (getitem_field _ _ _ Hfl), (getitem_field _ _ _ Hac).
    cbn [SchemaValidator.and_then].
    rewrite (getitem_field _ _ _ Hname), (getitem_field _ _ _ Hstart),
      (getitem_field _ _ _ Hstages).
    cbn [SchemaValidator.and_then SchemaValidator.py_items].
    rewrite (getitem_field _ _ _ Hgs). cbn [SchemaValidator.and_then].
    rewrite (getitem_field _ _ _ Hls). cbn [SchemaValidator.and_then].
    rewrite (getitem_field _ _ _ Hlm). cbn [SchemaValidator.and_then].
    rewrite (getitem_field _ _ _ Hss). cbn [SchemaValidator.and_then].
    rewrite (getitem_field _ _ _ Hsp). cbn [SchemaValidator.and_then].
    rewrite (getitem_field _ _ _ Hts). cbn [SchemaValidator.and_then].
    rewrite (getitem_field _ _ _ Htp). reflexivity.
  - exists fl, ac, gs, ls, ss, ts. repeat split; assumption.
  - unfold PyDict.keys. rewrite mem_get in Hmem.
    destruct (PyDict.get start all) as [v|] eqn:E; [|discriminate].
    apply get_In_key in E. now apply (in_map fst) in E.
  - unfold PyDict.keys. apply length_map.
Qed.

Lemma config_summary_of_accepted_document_witness :
  exists agent_name start (all_stages : PyDict.t json) llm_model stt_provider
         tts_provider,
    ConfigSummary.get_config_summary (Some Sample.document)
    = Ok (JDict
            [("agent_name", agent_name);
             ("schema_type", JStr "stages");
             ("start_stage", JStr start);
             ("total_stages", JInt (Z.of_nat (List.length all_stages)));
             ("stage_list", JList (map JStr (PyDict.keys all_stages)));
             ("llm_model", llm_model);
             ("stt_provider", stt_provider);
             ("tts_provider", tts_provider)])
    /\ In start (PyDict.keys all_stages).
Proof.
  destruct (config_summary_of_accepted_document Sample.document eq_refl
              eq_refl)
    as (n & s & a & l & st & tt' & H & _ & Hin & _).
  exists n, s, a, l, st, tt'. split; assumption.
Defined.

(* ----------------------------------------------------------------- *)
(** ** The moves of the current stage *)

Lemma move_to_next_stage_moves (self : Agent.t) (target now : string)
    (w : World) :
  session_ok self w ->
  UserData.current_stage_id
    (userdata (snd (move_to_next_stage self target now w)))
  = UserData.current_stage_id (userdata w)
  \/ exists stage,
       PyDict.get (UserData.current_stage_id (userdata w)) (Agent.stages self)
       = Some stage
       /\ In target (valid_transitions_of stage)
       /\ target <> "END"
       /\ PyDict.mem target (Agent.stages self) = true
       /\ UserData.current_stage_id
            (userdata (snd (move_to_next_stage self target now w)))
          = target.
Proof.
  intros [Hst Hcur].
  unfold move_to_next_stage, bind, get_userdata, lift.
  destruct (String.eqb target "END") eqn:Eend; [now left|].
  rewrite Hst.
  destruct (PyDict.mem target (Agent.stages self)) eqn:Hm; cbn [negb];
    [|now left].
  unfold getitem.
  destruct (PyDict.get _ _) as [cs|] eqn:Hget; [|now left].
  destruct (str_in target (valid_transitions_of cs)) eqn:Hin;
    cbn [negb andb]; [|now left].
  right. exists cs. split; [reflexivity|].
  split; [now apply str_in_In|]. split; [now apply String.eqb_neq|].
  split; [reflexivity|]. apply enter_stage_current.
Qed.

Lemma operation_moves (self : Agent.t) (now : string) (op : operation)
    (w : World) :
  session_ok self w ->
  UserData.current_stage_id (userdata (snd (run_operation self now op w)))
  = UserData.current_stage_id (userdata w)
  \/ move self (UserData.current_stage_id (userdata w))
       (UserData.current_stage_id
          (userdata (snd (run_operation self now op w)))).
Proof.
  intros Hok.
  assert (Hmove : forall target,
            UserData.current_stage_id
              (userdata (snd (move_to_next_stage self target now w)))
            = UserData.current_stage_id (userdata w)
            \/ move self (UserData.current_stage_id (userdata w))
                 (UserData.current_stage_id
                    (userdata (snd (move_to_next_stage self target now w))))).
  { intros target.
    destruct (move_to_next_stage_moves self target now w Hok)
      as [H|(stage & Hget & Hin & Hend & Hm & ->)]; [now left|].
    right. now apply (move_declared _ _ _ stage). }
  destruct op as [msg|target|reason|]; cbn [run_operation].
  - now left.
  - apply Hmove.
  - unfold complete_current_stage, bind, get_userdata, lift.
    destruct (_find_next_stage _ _ _ _) as [[target|]|e]; try now left.
    destruct (truthy target); [apply Hmove | now left].
  - destruct Hok as [Hst Hcur].
    unfold end_conversation, bind, get_userdata, lift.
    destruct (getitem _ _) as [cs|e]; [|now left].
    destruct (str_in "completion" _); [apply Hmove|].
    destruct (str_in "goodbye" _); [apply Hmove|].
    destruct (PyDict.mem "goodbye" (UserData.stages (userdata w))) eqn:Hg;
      [|now left].
    right. cbn [snd].
    destruct (enter_stage_current self "goodbye" now w) as [-> _].
    apply move_forced; [assumption | reflexivity | now rewrite <- Hst].
Qed.

Lemma operations_path (self : Agent.t) (ops : list (operation * string))
    (w : World) (start : string) :
  session_ok self w ->
  path self start (UserData.current_stage_id (userdata w)) ->
  path self start
    (UserData.current_stage_id (userdata (run_operations self ops w))).
Proof.
  revert w. induction ops as [|[op now] ops IH]; intros w Hok Hp;
    [exact Hp|].
  cbn [run_operations]. apply IH.
  - now apply run_operation_session_ok.
  - destruct (operation_moves self now op w Hok) as [->|Hm]; [exact Hp|].
    now apply (path_move _ _ _ _ Hp).
Qed.

Lemma path_not_end (self : Agent.t) (a b : string) :
  path self a b -> a <> "END" -> b <> "END".
Proof.
  intros Hp Ha. induction Hp as [|b c _ _ Hm]; [exact Ha|].
  destruct Hm as [stage _ _ Hend _|_ -> _]; [exact Hend | discriminate].
Qed.

(** X17.  The current stage moves along the graph. From the start stage of a
    session the current stage is, after every sequence of operations, at the
    end of a path of moves each of which follows a transition its stage
    declares, to a stage of the graph, or is the forced move of
    [end_conversation] to the stage "goodbye", the one move that needs no
    declared transition. *)
Theorem current_stage_follows_declared_transitions
    (self : Agent.t) (now : string) (ops : list (operation * string))
    (w : World) :
  PyDict.mem (Agent.start_stage_id self) (Agent.stages self) = true ->
  path self (Agent.start_stage_id self)
    (UserData.current_stage_id
       (userdata (run_operations self ops (snd (on_enter self now w))))).
Proof.
  intros Hstart.
  assert (Hcur : UserData.current_stage_id (userdata (snd (on_enter self now w)))
                 = Agent.start_stage_id self).
  { unfold on_enter, bind, get_userdata, put_userdata. cbn [fst snd].
    apply enter_stage_current. }
  apply operations_path.
  - unfold on_enter, bind, get_userdata, put_userdata. cbn [fst snd].
    apply enter_stage_session_ok; [reflexivity | exact Hstart].
  - rewrite Hcur. apply path_here.
Qed.

Lemma current_stage_follows_declared_transitions_witness :
  path Sample.agent "greeting"
    (UserData.current_stage_id
       (userdata
          (run_operations Sample.agent
             [(OpMoveToNextStage "nowhere", "t1");
              (OpCompleteCurrentStage "bill payment", "t2");
              (OpEndConversation, "t3")]
             (snd (on_enter Sample.agent "t0" Sample.fresh))))).
Proof.
  apply (current_stage_follows_declared_transitions Sample.agent).
  reflexivity.
Defined.

(** X18.  No operation makes a stage stored under the key "END" the current
    stage: [move_to_next_stage] takes the target "END" for the end of the
    conversation before it looks at the graph, and the other operations change
    the stage through it or go to "goodbye". Such a stage can only be the
    start stage. *)
Theorem operations_never_enter_a_stage_named_END
    (self : Agent.t) (ops : list (operation * string)) (w : World) :
  session_ok self w ->
  UserData.current_stage_id (userdata w) <> "END" ->
  UserData.current_stage_id (userdata (run_operations self ops w)) <> "END".
Proof.
  intros Hok Hne.
  apply (path_not_end self (UserData.current_stage_id (userdata w)));
    [|exact Hne].
  apply operations_path; [exact Hok | apply path_here].
Qed.

Lemma operations_never_enter_a_stage_named_END_witness :
  PyDict.mem "END" (Agent.stages SampleMore.end_agent) = true
  /\ UserData.current_stage_id
       (userdata
          (run_operations SampleMore.end_agent
             [(OpMoveToNextStage "END", "t1");
              (OpCompleteCurrentStage "done", "t2");
              (OpEndConversation, "t3")]
             SampleMore.end_started)) <> "END".
Proof.
  split; [reflexivity|].
  apply (operations_never_enter_a_stage_named_END SampleMore.end_agent).
  - split; reflexivity.
  - discriminate.
Defined.

(* ----------------------------------------------------------------- *)
(** ** The keys of a stage the validator reads *)

Lemma find_ext_in {A} (f g : A -> bool) (l : list A) :
  (forall x, In x l -> f x = g x) -> find f l = find g l.
Proof.
  induction l as [|x l IH]; intros H; [reflexivity|].
  cbn [find]. rewrite (H x (or_introl eq_refl)).
  destruct (g x); [reflexivity|]. apply IH. intros y Hy. apply H. now right.
Qed.

(** X19.  [_validate_stage] reads five keys of a stage: the four it asks for
    and "next_stages". Whether any other key is there, and with what value,
    does not change its result; so it is with "greeting" and "description",
    which [_enter_stage] reads with [stage[...]], and with "context_updates". *)
Theorem validate_stage_ignores_other_keys
    (stage_id key : string) (value : json) (d : PyDict.t json)
    (all_stages : PyDict.t json) :
  ~ In key ("next_stages" :: stage_fields) ->
  SchemaValidator._validate_stage stage_id (JDict (PyDict.set key value d))
    all_stages
  = SchemaValidator._validate_stage stage_id (JDict d) all_stages.
Proof.
  intros Hkey. unfold SchemaValidator._validate_stage.
  rewrite !require_keys_dict.
  rewrite (find_ext_in
             (fun k => negb (PyDict.mem k (PyDict.set key value d)))
             (fun k => negb (PyDict.mem k d))).
  2:{ intros k Hk. rewrite mem_set.
      destruct (String.eqb k key) eqn:E; [|reflexivity].
      apply String.eqb_eq in E. subst k. exfalso. apply Hkey. now right. }
  cbn [SchemaValidator.py_in SchemaValidator.py_getitem]. unfold getitem.
  rewrite mem_set.
  assert (Hne : "next_stages" <> key) by (intros <-; apply Hkey; now left).
  rewrite get_set_other by exact Hne.
  apply String.eqb_neq in Hne. rewrite Hne. reflexivity.
Qed.

Lemma validate_stage_ignores_other_keys_witness :
  SchemaValidator._validate_stage "greeting"
    (JDict (PyDict.set "greeting" JNull
              [("id", JStr "greeting"); ("name", JStr "Welcome");
               ("prompt", JStr "Greet"); ("completion_criteria", JStr "")]))
    []
  = SchemaValidator._validate_stage "greeting"
      (JDict [("id", JStr "greeting"); ("name", JStr "Welcome");
              ("prompt", JStr "Greet"); ("completion_criteria", JStr "")])
      [].
Proof.
  apply validate_stage_ignores_other_keys.
  cbn. intuition discriminate.
Defined.
